(** * Test-Sync-Pro: the delta / de-duplication decision pipeline

    A shallow embedding of [dedup_engine.py], [delta_analyzer.py],
    [folder_manager.py] and the orchestration of [run.py], together with the
    part of Python's [difflib.SequenceMatcher] those modules call, the
    validation of the settings of [config.py], the choice of the client of
    [test_generator.py] and the provisioning of the folders of
    [ado_client.py].

    Conventions of the embedding
    - a Python [int] is a [Z]; a [str] is the list of its code points;
    - a Python [float] that the code computes is the quotient of two
      integers; it is kept as the exact rational in lowest terms ([Qred]),
      so that equal scores are equal terms and [>], [>=] are the order of
      [Q].  Float division rounds correctly and monotonically, and two
      different quotients in [0, 1] with denominators below 2^26 are more
      than one unit in the last place apart, so on sequences shorter than
      that the comparisons of the code and of the model agree;
    - [dict] is [gmap], [set] is [gset];
    - a computation that can raise returns a [res]; a [while] loop carries
      a fuel and yields [Diverge] when it runs out; [sys.exit] ends a
      computation with an [exit];
    - the remote services are parameters: a type of worlds with the
      operations on it, and a log of the calls made. *)

From Stdlib Require Import ZArith QArith Lia String Ascii.
From stdpp Require Import gmap strings list fin_maps sorting.

Local Open Scope Z_scope.

(** ** Results of computations that may raise *)

Inductive exn : Type :=
| IndexError
| ZeroDivisionError
| NotFound
| RemoteError
| GenerationError
| ConfigError.

Inductive res (A : Type) : Type :=
| Ok (x : A)
| Raise (e : exn)
| Diverge.

Arguments Ok {A} x.
Arguments Raise {A} e.
Arguments Diverge {A}.

Definition rbind {A B : Type} (m : res A) (f : A -> res B) : res B :=
  match m with
  | Ok x => f x
  | Raise e => Raise e
  | Diverge => Diverge
  end.

Notation "'let!' x ':=' m 'in' k" := (rbind m (fun x => k))
  (at level 10, x name, m at level 100, k at level 200,
   format "'[v' 'let!'  x  ':='  m  'in' '/' k ']'").

(** [while cond: body] with a bound on the number of iterations. *)
Fixpoint while {S : Type} (fuel : nat) (cond : S -> res bool)
    (body : S -> res S) (s : S) : res S :=
  match fuel with
  | O => Diverge
  | Datatypes.S fuel' =>
      let! c := cond s in
      if (c : bool) then let! s' := body s in while fuel' cond body s'
      else Ok s
  end.

(** ** Python strings and sequences *)

Abbreviation char := N (only parsing).
Abbreviation str := (list N) (only parsing).

Definition of_string (s : string) : str :=
  List.map N_of_ascii (list_ascii_of_string s).

Definition len {A : Type} (l : list A) : Z := Z.of_nat (length l).

(** [l[i]]: a negative index counts from the end, anything out of range
    raises [IndexError]. *)
Definition py_index {A : Type} (l : list A) (i : Z) : res A :=
  let j := if i <? 0 then len l + i else i in
  if (0 <=? j) && (j <? len l) then
    match l !! Z.to_nat j with
    | Some x => Ok x
    | None => Raise IndexError
    end
  else Raise IndexError.

(** [x / y] on integers (true division). *)
Definition py_truediv (x y : Z) : res Q :=
  if y =? 0 then Raise ZeroDivisionError
  else Ok (Qred (Qmake (x * Z.sgn y) (Z.to_pos (Z.abs y)))).

(** [range(lo, hi)] *)
Definition range (lo hi : Z) : list Z := seqZ lo (hi - lo).

(** [enumerate(l)] *)
Definition enumerate {A : Type} (l : list A) : list (Z * A) :=
  zip (seqZ 0 (len l)) l.

(** [sep.join(parts)] *)
Fixpoint join (sep : str) (parts : list str) : str :=
  match parts with
  | [] => []
  | [p] => p
  | p :: ps => p ++ sep ++ join sep ps
  end.

(** [s.split(c)] for a one-character separator. *)
Fixpoint split (c : char) (s : str) : list str :=
  match s with
  | [] => [[]]
  | x :: s' =>
      if N.eqb x c then [] :: split c s'
      else match split c s' with
           | h :: t => (x :: h) :: t
           | [] => [[x]]
           end
  end.

(** [s.replace("\r\n", "\n")] *)
Fixpoint replace_crlf (s : str) : str :=
  match s with
  | [] => []
  | x :: s' =>
      match s' with
      | y :: s'' =>
          if N.eqb x 13 && N.eqb y 10 then 10%N :: replace_crlf s''
          else x :: replace_crlf s'
      | [] => [x]
      end
  end.

Fixpoint startswith (s x : str) : bool :=
  match x, s with
  | [], _ => true
  | _ :: _, [] => false
  | c :: x', d :: s' => N.eqb c d && startswith s' x'
  end.

(** [x in s] on strings: [x] occurs in [s] as a contiguous block. *)
Fixpoint contains (s x : str) : bool :=
  startswith s x ||
  match s with
  | [] => false
  | _ :: s' => contains s' x
  end.

(** [s.lstrip(chars)] and [s.rstrip(chars)] for a set of characters given
    by its membership test. *)
Fixpoint lstrip_by (p : char -> bool) (s : str) : str :=
  match s with
  | [] => []
  | c :: s' => if p c then lstrip_by p s' else s
  end.

Definition rstrip_by (p : char -> bool) (s : str) : str :=
  rev (lstrip_by p (rev s)).

(** The two places where the code depends on the Unicode tables of the
    interpreter: [str.lower] and the white space that [str.strip] removes.
    [str.lower] maps strings to strings (it may change the length). *)
Class Unicode : Type := {
  lower : str -> str;
  isspace : char -> bool
}.

Definition strip `{Unicode} (s : str) : str :=
  rstrip_by isspace (lstrip_by isspace s).

(** The tables restricted to ASCII: [A-Z] are lowered, the white space is
    tab, line feed, vertical tab, form feed, carriage return, the four
    separators 28-31 and the space. *)
Definition ascii_lower_char (c : char) : char :=
  if (65 <=? c)%N && (c <=? 90)%N then (c + 32)%N else c.

Definition ascii_isspace (c : char) : bool :=
  ((9 <=? c)%N && (c <=? 13)%N) || ((28 <=? c)%N && (c <=? 32)%N).

Definition ascii_tables : Unicode :=
  {| lower := List.map ascii_lower_char; isspace := ascii_isspace |}.

(** ** difflib.SequenceMatcher

    [dedup_engine.py] and [delta_analyzer.py] call [difflib] of Python's
    standard library.  The functions they reach are embedded here from
    CPython's [Lib/difflib.py], one definition per function or loop.  The
    matcher is always built as [SequenceMatcher(None, a, b)]: no junk
    predicate, [autojunk] left at its default [True]. *)

Module difflib.

Definition Match : Type := Z * Z * Z.

Definition size (m : Match) : Z := m.2.

Record SequenceMatcher : Type := {
  a : str;
  b : str;
  b2j : gmap N (list Z);
  bjunk : gset N;
  bpopular : gset N
}.

(** [__chain_b]:
<<
    self.b2j = b2j = {}
    for i, elt in enumerate(b):
        indices = b2j.setdefault(elt, [])
        indices.append(i)
    self.bjunk = junk = set()          # isjunk is None: nothing is added
    self.bpopular = popular = set()
    n = len(b)
    if self.autojunk and n >= 200:
        ntest = n // 100 + 1
        for elt, idxs in b2j.items():
            if len(idxs) > ntest:
                popular.add(elt)
        for elt in popular:
            del b2j[elt]
>> *)
Definition chain_b_index (b : str) : gmap N (list Z) :=
  fold_left
    (fun (m : gmap N (list Z)) (p : Z * N) =>
       <[p.2 := default [] (m !! p.2) ++ [p.1]]> m)
    (enumerate b) ∅.

Definition is_popular (ntest : Z) (idxs : list Z) : bool := ntest <? len idxs.

Definition chain_b (autojunk : bool) (b : str) :
    gmap N (list Z) * gset N * gset N :=
  let b2j := chain_b_index b in
  let junk : gset N := ∅ in
  let n := len b in
  if autojunk && (200 <=? n) then
    let ntest := n / 100 + 1 in
    let popular : gset N :=
      dom (filter (fun p : N * list Z => is_popular ntest p.2 = true) b2j) in
    (filter (fun p : N * list Z => p.1 ∉ popular) b2j, junk, popular)
  else (b2j, junk, ∅).

Definition new (a b : str) : SequenceMatcher :=
  let '(b2j, junk, popular) := chain_b true b in
  {| a := a; b := b; b2j := b2j; bjunk := junk; bpopular := popular |}.

(** [find_longest_match(alo, ahi, blo, bhi)], first loop:
<<
    besti, bestj, bestsize = alo, blo, 0
    j2len = {}
    for i in range(alo, ahi):
        newj2len = {}
        for j in b2j.get(a[i], nothing):
            if j < blo: continue
            if j >= bhi: break
            k = newj2len[j] = j2len.get(j-1, 0) + 1
            if k > bestsize:
                besti, bestj, bestsize = i-k+1, j-k+1, k
        j2len = newj2len
>>
    [flm_row] is the inner loop, [flm_rows] the outer one. *)
Fixpoint flm_row (i blo bhi : Z) (j2len : gmap Z Z) (js : list Z)
    (newj2len : gmap Z Z) (best : Match) : gmap Z Z * Match :=
  match js with
  | [] => (newj2len, best)
  | j :: js' =>
      if j <? blo then flm_row i blo bhi j2len js' newj2len best
      else if bhi <=? j then (newj2len, best)
      else
        let k := default 0 (j2len !! (j - 1)) + 1 in
        let best' := if size best <? k then (i - k + 1, j - k + 1, k)
                     else best in
        flm_row i blo bhi j2len js' (<[j := k]> newj2len) best'
  end.

Fixpoint flm_rows (sm : SequenceMatcher) (blo bhi : Z) (rows : list Z)
    (j2len : gmap Z Z) (best : Match) : res Match :=
  match rows with
  | [] => Ok best
  | i :: rows' =>
      let! ai := py_index (a sm) i in
      let '(newj2len, best') :=
        flm_row i blo bhi j2len (default [] (b2j sm !! ai)) ∅ best in
      flm_rows sm blo bhi rows' newj2len best'
  end.

(** The four extension loops that follow:
<<
    while besti > alo and bestj > blo and \
          not isbjunk(b[bestj-1]) and a[besti-1] == b[bestj-1]:
        besti, bestj, bestsize = besti-1, bestj-1, bestsize+1
    while besti+bestsize < ahi and bestj+bestsize < bhi and \
          not isbjunk(b[bestj+bestsize]) and \
          a[besti+bestsize] == b[bestj+bestsize]:
        bestsize += 1
>>
    and the same two loops once more with [isbjunk(...)] in place of
    [not isbjunk(...)].  [and] evaluates its operands from left to right
    and stops at the first false one; [junk] tells which of the two
    variants a condition is. *)
Definition ext_left_cond (sm : SequenceMatcher) (alo blo : Z) (junk : bool)
    (m : Match) : res bool :=
  let '(besti, bestj, bestsize) := m in
  if negb ((alo <? besti) && (blo <? bestj)) then Ok false
  else
    let! bj := py_index (b sm) (bestj - 1) in
    if negb (Bool.eqb (bool_decide (bj ∈ bjunk sm)) junk) then Ok false
    else
      let! ai := py_index (a sm) (besti - 1) in
      Ok (N.eqb ai bj).

Definition ext_left_body (m : Match) : res Match :=
  let '(besti, bestj, bestsize) := m in
  Ok (besti - 1, bestj - 1, bestsize + 1).

Definition ext_right_cond (sm : SequenceMatcher) (ahi bhi : Z) (junk : bool)
    (m : Match) : res bool :=
  let '(besti, bestj, bestsize) := m in
  if negb ((besti + bestsize <? ahi) && (bestj + bestsize <? bhi))
  then Ok false
  else
    let! bj := py_index (b sm) (bestj + bestsize) in
    if negb (Bool.eqb (bool_decide (bj ∈ bjunk sm)) junk) then Ok false
    else
      let! ai := py_index (a sm) (besti + bestsize) in
      Ok (N.eqb ai bj).

Definition ext_right_body (m : Match) : res Match :=
  let '(besti, bestj, bestsize) := m in
  Ok (besti, bestj, bestsize + 1).

(** Each extension loop moves one end of the block by one position inside
    the window, so the width of the window bounds its iterations. *)
Definition ext_fuel (alo ahi : Z) : nat := Datatypes.S (Z.to_nat (ahi - alo)).

Definition find_longest_match (sm : SequenceMatcher) (alo ahi blo bhi : Z) :
    res Match :=
  let! m := flm_rows sm blo bhi (range alo ahi) ∅ (alo, blo, 0) in
  let fuel := ext_fuel alo ahi in
  let! m := while fuel (ext_left_cond sm alo blo false) ext_left_body m in
  let! m := while fuel (ext_right_cond sm ahi bhi false) ext_right_body m in
  let! m := while fuel (ext_left_cond sm alo blo true) ext_left_body m in
  while fuel (ext_right_cond sm ahi bhi true) ext_right_body m.

(** [get_matching_blocks]:
<<
    la, lb = len(self.a), len(self.b)
    queue = [(0, la, 0, lb)]
    matching_blocks = []
    while queue:
        alo, ahi, blo, bhi = queue.pop()
        i, j, k = x = self.find_longest_match(alo, ahi, blo, bhi)
        if k:
            matching_blocks.append(x)
            if alo < i and blo < j:
                queue.append((alo, i, blo, j))
            if i+k < ahi and j+k < bhi:
                queue.append((i+k, ahi, j+k, bhi))
    matching_blocks.sort()
    i1 = j1 = k1 = 0
    non_adjacent = []
    for i2, j2, k2 in matching_blocks:
        if i1 + k1 == i2 and j1 + k1 == j2:
            k1 += k2
        else:
            if k1:
                non_adjacent.append((i1, j1, k1))
            i1, j1, k1 = i2, j2, k2
    if k1:
        non_adjacent.append((i1, j1, k1))
    non_adjacent.append( (la, lb, 0) )
>>
    The work list [queue] is used as a stack ([append] / [pop]); its top
    is the head of the list here. *)
Definition Region : Type := Z * Z * Z * Z.

Definition gmb_cond (st : list Region * list Match) : res bool :=
  Ok (match st.1 with [] => false | _ :: _ => true end).

Definition gmb_body (sm : SequenceMatcher) (st : list Region * list Match) :
    res (list Region * list Match) :=
  match st with
  | ([], _) => Raise IndexError
  | ((alo, ahi, blo, bhi) :: queue, matching_blocks) =>
      let! x := find_longest_match sm alo ahi blo bhi in
      let '(i, j, k) := x in
      if k =? 0 then Ok (queue, matching_blocks)
      else
        let queue1 :=
          if (alo <? i) && (blo <? j) then (alo, i, blo, j) :: queue
          else queue in
        let queue2 :=
          if (i + k <? ahi) && (j + k <? bhi)
          then (i + k, ahi, j + k, bhi) :: queue1
          else queue1 in
        Ok (queue2, matching_blocks ++ [x])
  end.

(** Every pass removes a region and adds at most two, which together are
    at least one element shorter in [a]. *)
Definition gmb_fuel (la : Z) : nat := Z.to_nat (2 * la + 2).

(** [matching_blocks.sort()]: tuples are ordered lexicographically. *)
Definition match_leb (x y : Match) : bool :=
  let '(i1, j1, k1) := x in
  let '(i2, j2, k2) := y in
  (i1 <? i2) || ((i1 =? i2) && ((j1 <? j2) || ((j1 =? j2) && (k1 <=? k2)))).

Fixpoint insert_sorted (x : Match) (l : list Match) : list Match :=
  match l with
  | [] => [x]
  | y :: l' => if match_leb x y then x :: l else y :: insert_sorted x l'
  end.

Definition sort (l : list Match) : list Match :=
  fold_right insert_sorted [] l.

(** The pass that merges adjacent blocks. *)
Definition collapse_step (st : Match * list Match) (blk : Match) :
    Match * list Match :=
  let '((i1, j1, k1), non_adjacent) := st in
  let '(i2, j2, k2) := blk in
  if (i1 + k1 =? i2) && (j1 + k1 =? j2) then ((i1, j1, k1 + k2), non_adjacent)
  else
    ((i2, j2, k2),
     if k1 =? 0 then non_adjacent else non_adjacent ++ [(i1, j1, k1)]).

Definition get_matching_blocks (sm : SequenceMatcher) : res (list Match) :=
  let la := len (a sm) in
  let lb := len (b sm) in
  let! st := while (gmb_fuel la) gmb_cond (gmb_body sm) ([(0, la, 0, lb)], []) in
  let matching_blocks := sort st.2 in
  let '((i1, j1, k1), non_adjacent) :=
    fold_left collapse_step matching_blocks ((0, 0, 0), []) in
  let non_adjacent :=
    if k1 =? 0 then non_adjacent else non_adjacent ++ [(i1, j1, k1)] in
  Ok (non_adjacent ++ [(la, lb, 0)]).

(** [ratio] and [_calculate_ratio]:
<<
    def _calculate_ratio(matches, length):
        if length:
            return 2.0 * matches / length
        return 1.0

    def ratio(self):
        matches = sum(triple[-1] for triple in self.get_matching_blocks())
        return _calculate_ratio(matches, len(self.a) + len(self.b))
>> *)
Definition _calculate_ratio (matches length : Z) : res Q :=
  if length =? 0 then Ok 1%Q else py_truediv (2 * matches) length.

Definition sum_sizes (blocks : list Match) : Z :=
  fold_left (fun acc blk => acc + size blk) blocks 0.

Definition ratio (sm : SequenceMatcher) : res Q :=
  let! blocks := get_matching_blocks sm in
  _calculate_ratio (sum_sizes blocks) (len (a sm) + len (b sm)).

End difflib.

(** ** models.py *)

Record UserStory : Type := {
  us_id : Z;
  us_title : str;
  us_description : str;
  us_acceptance_criteria : str;
  us_priority : Z;
  us_tags : list str;
  us_state : str
}.

Record TestStep : Type := {
  action : str;
  expected_result : str
}.

Record GeneratedTestCase : Type := {
  gtc_title : str;
  gtc_given : str;
  gtc_when : str;
  gtc_then : str;
  gtc_steps : list TestStep;
  gtc_priority : Z;
  gtc_tags : list str;
  gtc_category : str;
  gtc_test_type : str
}.

Record ExistingTestCase : Type := {
  etc_id : Z;
  etc_title : str;
  etc_steps : list TestStep;
  etc_priority : Z;
  etc_tags : list str;
  etc_revision : Z
}.

Record SyncResult : Type := {
  story_id : Z;
  created_ids : list Z;
  updated_ids : list Z;
  skipped_count : Z;
  folder_map : gmap (list N) Z
}.

(** ** config.py

    [Settings.DEDUP_THRESHOLD] is [float(os.getenv("DEDUP_THRESHOLD",
    "0.90"))]: the value of the variable when it is set, 0.90 otherwise. *)

Record Settings : Type := {
  DEDUP_THRESHOLD : Q
}.

Definition load_settings (env_DEDUP_THRESHOLD : option Q) : Settings :=
  {| DEDUP_THRESHOLD := default (9 # 10)%Q env_DEDUP_THRESHOLD |}.

Definition default_settings : Settings := load_settings None.

Definition LF : str := [10%N].
Definition SP : str := [32%N].

(** ** dedup_engine.py *)

Section DedupEngine.
Context `{Unicode}.

Definition _tc_signature (title given when_ then_ : str) : str :=
  lower (strip (title ++ LF ++ given ++ LF ++ when_ ++ LF ++ then_)).

Definition _existing_signature (tc : ExistingTestCase) : str :=
  let steps_text :=
    join LF (List.map (fun s => action s ++ SP ++ expected_result s)
                      (etc_steps tc)) in
  lower (strip (etc_title tc ++ LF ++ steps_text)).

Definition _similarity (a b : str) : res Q :=
  difflib.ratio (difflib.new a b).

Record DedupResult : Type := {
  is_duplicate : bool;
  matched_id : Z;
  score : Q
}.

Record DedupEngine : Type := {
  _threshold : Q;
  _existing_sigs : list (Z * str)
}.

(** [x > y] and [x >= y] on scores. *)
Definition Qgtb (x y : Q) : bool := negb (Qle_bool x y).
Definition Qgeb (x y : Q) : bool := Qle_bool y x.

(** [threshold or Settings.DEDUP_THRESHOLD]: [None] and [0.0] are falsy. *)
Definition threshold_or (threshold : option Q) (dflt : Q) : Q :=
  match threshold with
  | Some t => if Qeq_bool t 0 then dflt else t
  | None => dflt
  end.

Definition DedupEngine_init (cfg : Settings) (existing : list ExistingTestCase)
    (threshold : option Q) : DedupEngine :=
  {| _threshold := threshold_or threshold (DEDUP_THRESHOLD cfg);
     _existing_sigs :=
       List.map (fun tc => (etc_id tc, _existing_signature tc)) existing |}.

(** The loop of [check] over the existing signatures. *)
Fixpoint check_loop (new_sig : str) (sigs : list (Z * str))
    (best_score : Q) (best_id : Z) : res (Q * Z) :=
  match sigs with
  | [] => Ok (best_score, best_id)
  | (existing_id, existing_sig) :: sigs' =>
      let! score := _similarity new_sig existing_sig in
      if Qgtb score best_score
      then check_loop new_sig sigs' score existing_id
      else check_loop new_sig sigs' best_score best_id
  end.

Definition check (self : DedupEngine) (tc : GeneratedTestCase) :
    res DedupResult :=
  let new_sig :=
    _tc_signature (gtc_title tc) (gtc_given tc) (gtc_when tc) (gtc_then tc) in
  let! best := check_loop new_sig (_existing_sigs self) 0%Q 0 in
  let '(best_score, best_id) := best in
  if Qgeb best_score (_threshold self) then
    Ok {| is_duplicate := true; matched_id := best_id; score := best_score |}
  else
    Ok {| is_duplicate := false; matched_id := 0; score := best_score |}.

Fixpoint check_batch (self : DedupEngine) (cases : list GeneratedTestCase) :
    res (list (GeneratedTestCase * DedupResult)) :=
  match cases with
  | [] => Ok []
  | tc :: cases' =>
      let! r := check self tc in
      let! rs := check_batch self cases' in
      Ok ((tc, r) :: rs)
  end.

End DedupEngine.

(** ** delta_analyzer.py *)

Section DeltaAnalyzer.
Context `{Unicode}.

(** The characters of ["-•*0123456789.) "]. *)
Definition bullet_char (c : char) : bool :=
  N.eqb c 45 || N.eqb c 8226 || N.eqb c 42 ||
  ((48 <=? c)%N && (c <=? 57)%N) || N.eqb c 46 || N.eqb c 41 || N.eqb c 32.

Definition nonempty {A : Type} (l : list A) : bool :=
  match l with [] => false | _ :: _ => true end.

Definition _extract_criteria_lines (ac_text : str) : list str :=
  fold_left
    (fun lines raw =>
       let clean := lstrip_by bullet_char (strip raw) in
       if nonempty clean then lines ++ [clean] else lines)
    (split 10%N (replace_crlf ac_text)) [].

Definition _existing_coverage_text (existing : list ExistingTestCase) : str :=
  let parts :=
    fold_left
      (fun parts tc =>
         fold_left
           (fun parts step => (parts ++ [action step]) ++ [expected_result step])
           (etc_steps tc) (parts ++ [etc_title tc]))
      existing [] in
  lower (join LF parts).

Definition _line_is_covered (line coverage_text : str) (threshold : Q) :
    res bool :=
  if contains coverage_text (lower line) then Ok true
  else
    let! best :=
      difflib.find_longest_match (difflib.new (lower line) coverage_text)
        0 (len (lower line)) 0 (len coverage_text) in
    let! ratio :=
      if nonempty coverage_text
      then py_truediv (difflib.size best * 2) (len line + len coverage_text)
      else Ok 0%Q in
    Ok (Qgeb ratio threshold).

Definition coverage_threshold : Q := (7 # 10)%Q.

Record DeltaAnalyzer : Type := {
  _story : UserStory;
  _existing : list ExistingTestCase
}.

Fixpoint uncovered_lines (ac_lines : list str) (coverage : str)
    (uncovered : list str) : res (list str) :=
  match ac_lines with
  | [] => Ok uncovered
  | line :: ac_lines' =>
      let! covered := _line_is_covered line coverage coverage_threshold in
      if negb covered
      then uncovered_lines ac_lines' coverage (uncovered ++ [line])
      else uncovered_lines ac_lines' coverage uncovered
  end.

Definition compute_delta (self : DeltaAnalyzer) : res str :=
  let ac_lines :=
    _extract_criteria_lines (us_acceptance_criteria (_story self)) in
  if negb (nonempty ac_lines) then Ok []
  else if negb (nonempty (_existing self)) then Ok []
  else
    let coverage := _existing_coverage_text (_existing self) in
    let! uncovered := uncovered_lines ac_lines coverage [] in
    if negb (nonempty uncovered) then Ok []
    else Ok (join LF (List.map (fun line => of_string "- " ++ line) uncovered)).

Definition has_existing_tests (self : DeltaAnalyzer) : bool :=
  nonempty (_existing self).

End DeltaAnalyzer.

(** ** The external collaborators

    [ADOClient] and [TestGenerator] talk to remote services.  They are kept
    abstract: each operation reads and changes an external world [W] and
    either returns or raises.  Every invocation is recorded in a trace. *)

Inductive Call : Type :=
| NewADOClient
| GetUserStory (story_id : Z)
| GetLinkedTestCases (story_id : Z)
| NewTestGenerator
| Generate (story : UserStory) (delta_hint : str)
| EnsureFolders
| CreateTestCase (tc : GeneratedTestCase) (story_id : Z)
| UpdateTestCase (tc_id : Z) (tc : GeneratedTestCase)
| AddTestToSuite (suite_id test_case_id : Z).

Class Collaborators (W : Type) : Type := {
  ado_init : W -> res unit * W;
  get_user_story : Z -> W -> res UserStory * W;
  get_linked_test_cases : Z -> W -> res (list ExistingTestCase) * W;
  generator_init : W -> res unit * W;
  generate : UserStory -> str -> W -> res (list GeneratedTestCase) * W;
  ensure_folders : W -> res (gmap (list N) Z) * W;
  create_test_case : GeneratedTestCase -> Z -> W -> res Z * W;
  update_test_case : Z -> GeneratedTestCase -> W -> res unit * W;
  add_test_to_suite : Z -> Z -> W -> res unit * W
}.

(** Computations over the world and the trace. *)
Definition M (W A : Type) : Type := W * list Call -> res A * (W * list Call).

Definition ret {W A : Type} (x : A) : M W A := fun st => (Ok x, st).

Definition mbind {W A B : Type} (m : M W A) (f : A -> M W B) : M W B :=
  fun st =>
    match m st with
    | (Ok x, st') => f x st'
    | (Raise e, st') => (Raise e, st')
    | (Diverge, st') => (Diverge, st')
    end.

Definition lift {W A : Type} (r : res A) : M W A := fun st => (r, st).

Definition call {W A : Type} (ev : Call) (op : W -> res A * W) : M W A :=
  fun st => let '(r, w') := op st.1 in (r, (w', st.2 ++ [ev])).

Notation "'do!' x ':=' m 'in' k" := (mbind m (fun x => k))
  (at level 10, x name, m at level 100, k at level 200,
   format "'[v' 'do!'  x  ':='  m  'in' '/' k ']'").

(** [for x in l: body], threading an accumulator. *)
Fixpoint for_each {W A S : Type} (l : list A) (body : S -> A -> M W S)
    (s : S) : M W S :=
  match l with
  | [] => ret s
  | x :: l' => do! s' := body s x in for_each l' body s'
  end.

(** ** folder_manager.py *)

Definition COMPLETE : str := of_string "Complete Test Cases".
Definition REGRESSION : str := of_string "Regression".
Definition SMOKE : str := of_string "Smoke".
Definition SANITY : str := of_string "Sanity".

Record FolderManager : Type := {
  _folder_map : gmap (list N) Z
}.

(** The truth value of [d.get(key)]: a missing key gives [None], and the
    integer 0 is falsy as well. *)
Definition truthy_id (o : option Z) : bool :=
  match o with
  | Some i => negb (i =? 0)
  | None => false
  end.

Section FolderManager.
Context {W : Type} `{Collaborators W}.

Definition setup_folders (self : FolderManager) :
    M W (FolderManager * gmap (list N) Z) :=
  do! m := call EnsureFolders ensure_folders in
  ret ({| _folder_map := m |}, m).

Definition ensure_folder_map (self : FolderManager) : M W FolderManager :=
  if bool_decide (_folder_map self = ∅)
  then do! r := setup_folders self in ret r.1
  else ret self.

Definition normalize_category (category : str) : str :=
  if bool_decide (category ∈ [SMOKE; SANITY; REGRESSION]) then category
  else REGRESSION.

Definition file_into (suite : option Z) (test_case_id : Z) : M W unit :=
  match suite with
  | Some suite_id =>
      if truthy_id suite
      then call (AddTestToSuite suite_id test_case_id)
                (add_test_to_suite suite_id test_case_id)
      else ret tt
  | None => ret tt
  end.

Definition assign_test (self : FolderManager) (test_case_id : Z)
    (tc : GeneratedTestCase) : M W FolderManager :=
  do! self := ensure_folder_map self in
  let complete_id := _folder_map self !! COMPLETE in
  do! _ := file_into complete_id test_case_id in
  let category := normalize_category (gtc_category tc) in
  let cat_suite_id := _folder_map self !! category in
  do! _ := file_into cat_suite_id test_case_id in
  ret self.

Definition assign_many (self : FolderManager)
    (id_tc_pairs : list (Z * GeneratedTestCase)) : M W FolderManager :=
  do! self := ensure_folder_map self in
  for_each id_tc_pairs (fun self p => assign_test self p.1 p.2) self.

End FolderManager.

(** ** run.py *)

Section Run.
Context {W : Type} `{Collaborators W} `{Unicode} (cfg : Settings).

Definition new_result (story_id : Z) : SyncResult :=
  {| story_id := story_id; created_ids := []; updated_ids := [];
     skipped_count := 0; folder_map := ∅ |}.

(** The loop of phase 4 that splits the paired results. *)
Definition partition_step
    (acc : list GeneratedTestCase * list (Z * GeneratedTestCase))
    (p : GeneratedTestCase * DedupResult) :
    list GeneratedTestCase * list (Z * GeneratedTestCase) :=
  let '(to_create, to_update) := acc in
  if is_duplicate p.2 then (to_create, to_update ++ [(matched_id p.2, p.1)])
  else (to_create ++ [p.1], to_update).

Definition run (story_id : Z) (dry_run : bool) : M W SyncResult :=
  let result := new_result story_id in
  (* Phase 1: fetch *)
  do! _ := call NewADOClient ado_init in
  do! story := call (GetUserStory story_id) (get_user_story story_id) in
  do! existing :=
    call (GetLinkedTestCases story_id) (get_linked_test_cases story_id) in
  (* Phase 2: delta analysis *)
  let analyzer := {| _story := story; _existing := existing |} in
  do! delta := lift (compute_delta analyzer) in
  if has_existing_tests analyzer && negb (nonempty delta) then
    ret {| story_id := story_id; created_ids := created_ids result;
           updated_ids := updated_ids result;
           skipped_count := len existing;
           folder_map := folder_map result |}
  else
    (* Phase 3: generation *)
    do! _ := call NewTestGenerator generator_init in
    do! cases := call (Generate story delta) (generate story delta) in
    if dry_run then ret result
    else
      (* Phase 4: de-duplication *)
      let dedup := DedupEngine_init cfg existing None in
      do! paired := lift (check_batch dedup cases) in
      let '(to_create, to_update) := fold_left partition_step paired ([], []) in
      (* Phase 5: push *)
      let folder_mgr := {| _folder_map := ∅ |} in
      do! fm := setup_folders folder_mgr in
      let '(folder_mgr, fmap) := fm in
      do! created :=
        for_each to_create
          (fun (acc : list Z * list (Z * GeneratedTestCase)) tc =>
             do! new_id := call (CreateTestCase tc story_id)
                                (create_test_case tc story_id) in
             ret (acc.1 ++ [new_id], acc.2 ++ [(new_id, tc)]))
          ([], []) in
      do! updated :=
        for_each to_update
          (fun (acc : list Z * list (Z * GeneratedTestCase)) p =>
             do! _ := call (UpdateTestCase p.1 p.2)
                           (update_test_case p.1 p.2) in
             ret (acc.1 ++ [p.1], acc.2 ++ [(p.1, p.2)]))
          ([], created.2) in
      do! _ := assign_many folder_mgr updated.2 in
      ret {| story_id := story_id; created_ids := created.1;
             updated_ids := updated.1;
             skipped_count := skipped_count result;
             folder_map := fmap |}.

End Run.

(** ** Vocabulary of the specification *)

(** [x] occurs in [s] as a contiguous block. *)
Definition is_substring (x s : str) : Prop :=
  exists pre post : str, s = pre ++ x ++ post.


(** The positions of [c] in [s], in increasing order. *)
Definition positions (s : str) (c : N) : list Z :=
  (filter (fun p : Z * N => p.2 = c) (enumerate s)).*1.

(** The elements that [__chain_b] purges as popular. *)
Definition popular (s : str) (c : N) : bool :=
  (200 <=? len s) && (len s / 100 + 1 <? len (positions s c)).

(** The first loop of [find_longest_match] on the window
    [alo..], [blo..bhi): a cell is a pair of positions holding the same
    element, not purged from the index; a diagonal is a run of cells. *)
Section Window.
Variables (a b : str) (alo blo bhi : Z).

Definition cell (i j : Z) : Prop :=
  alo <= i /\ blo <= j < bhi /\
  exists c : N, a !! Z.to_nat i = Some c /\ b !! Z.to_nat j = Some c /\
                popular b c = false.

Definition diag (i j k : Z) : Prop :=
  forall d : Z, 0 <= d < k -> cell (i - d) (j - d).

(** [k] is the length of the longest diagonal that ends at [(i, j)]. *)
Definition exact (i j k : Z) : Prop :=
  0 <= k /\ diag i j k /\ ~ cell (i - k) (j - k).

Definition row_inv (i : Z) (j2len : gmap Z Z) : Prop :=
  forall j : Z, exact i j (default 0 (j2len !! j)).

(** [(i', j')] has been visited when the loops stand in row [i] with the
    positions [js] still to come. *)
Definition visited (i : Z) (js : list Z) (i' j' : Z) : Prop :=
  i' < i \/ (i' = i /\ Forall (fun x => j' < x) js).

(** The best block so far ends at the first visited cell that carries the
    longest diagonal. *)
Definition best_inv (i : Z) (js : list Z) (best : difflib.Match) : Prop :=
  let '(besti, bestj, bestsize) := best in
  0 <= bestsize /\
  (bestsize = 0 -> besti = alo /\ bestj = blo) /\
  (0 < bestsize ->
     diag (besti + bestsize - 1) (bestj + bestsize - 1) bestsize /\
     besti + bestsize - 1 <= i /\
     forall i' j' k : Z,
       i' < besti + bestsize - 1 \/
       (i' = besti + bestsize - 1 /\ j' < bestj + bestsize - 1) ->
       diag i' j' k -> k < bestsize) /\
  (forall i' j' k : Z, visited i js i' j' -> diag i' j' k -> k <= bestsize).

(** A block of equal elements inside the window [alo..ahi), [blo..bhi). *)
Definition block (ahi : Z) (m : difflib.Match) : Prop :=
  let '(i, j, k) := m in
  0 <= k /\ alo <= i /\ i + k <= ahi /\ blo <= j /\ j + k <= bhi /\
  forall d : Z, 0 <= d < k ->
    exists c : N, a !! Z.to_nat (i + d) = Some c /\
                  b !! Z.to_nat (j + d) = Some c.

Definition window_ok (ahi : Z) : Prop :=
  0 <= alo <= ahi /\ ahi <= len a /\ 0 <= blo <= bhi /\ bhi <= len b.

End Window.

(** The measure that bounds the passes of [get_matching_blocks]. *)
Definition region_weight (r : difflib.Region) : Z :=
  let '(alo, ahi, blo, bhi) := r in 2 * (ahi - alo) + 1.

Definition queue_weight (q : list difflib.Region) : Z :=
  fold_right (fun r acc => region_weight r + acc) 0 q.

Definition region_ok (a b : str) (r : difflib.Region) : Prop :=
  let '(alo, ahi, blo, bhi) := r in window_ok a b alo blo bhi ahi.

(** The diagonal a block lies on. *)
Definition offset (m : difflib.Match) : Z := m.1.1 - m.1.2.



(** [l'] keeps, in order, the elements of [l] that satisfy [P]. *)
Inductive filtered {A : Type} (P : A -> Prop) : list A -> list A -> Prop :=
| filtered_nil : filtered P [] []
| filtered_keep (x : A) (l l' : list A) :
    P x -> filtered P l l' -> filtered P (x :: l) (x :: l')
| filtered_drop (x : A) (l l' : list A) :
    ~ P x -> filtered P l l' -> filtered P (x :: l) l'.

Definition bullet_list (lines : list str) : str :=
  join LF (List.map (fun line => of_string "- " ++ line) lines).

(** The criteria text has no line left after stripping. *)
Definition no_criteria_lines `{Unicode} (ac_text : str) : Prop :=
  Forall (fun raw => lstrip_by bullet_char (strip raw) = [])
         (split 10%N (replace_crlf ac_text)).

(** [(best_score, best_id)] is the maximum of the scored artifacts, taken
    from the first artifact that reaches it; with no positive score it is
    [(0.0, 0)]. *)
Definition first_max (scored : list (Z * Q)) (best_score : Q) (best_id : Z) :
    Prop :=
  (best_score = 0%Q /\ best_id = 0 /\
   forall p, p ∈ scored -> (p.2 <= 0)%Q) \/
  (exists pre id post,
     scored = pre ++ (id, best_score) :: post /\ best_id = id /\
     (0 < best_score)%Q /\
     (forall p, p ∈ pre -> (p.2 < best_score)%Q) /\
     (forall p, p ∈ post -> (p.2 <= best_score)%Q)).

(** The scores of a candidate signature against the existing ones. *)
Definition scores_of `{Unicode} (new_sig : str) (sigs : list (Z * str))
    (scored : list (Z * Q)) : Prop :=
  Forall2 (fun (s : Z * str) (q : Z * Q) =>
             q.1 = s.1 /\ _similarity new_sig s.2 = Ok q.2)
          sigs scored.

(** The filing that the specification asks for: into the suite of a
    folder name, when the map has one. *)
Definition filing (suite : option Z) (test_case_id : Z) : list Call :=
  match suite with
  | Some suite_id =>
      if suite_id =? 0 then [] else [AddTestToSuite suite_id test_case_id]
  | None => []
  end.

Definition is_write_call (ev : Call) : bool :=
  match ev with
  | CreateTestCase _ _ | UpdateTestCase _ _ | AddTestToSuite _ _ => true
  | _ => false
  end.

(** ** A canned world for concrete runs

    The world holds the answers of the remote services; creating a test
    case hands out the next identifier. *)
Record Canned : Type := {
  c_story : UserStory;
  c_existing : list ExistingTestCase;
  c_cases : list GeneratedTestCase;
  c_folders : gmap (list N) Z;
  c_next_id : Z
}.

Definition canned_collaborators : Collaborators Canned :=
  {| ado_init := fun w => (Ok tt, w);
     get_user_story := fun _ w => (Ok (c_story w), w);
     get_linked_test_cases := fun _ w => (Ok (c_existing w), w);
     generator_init := fun w => (Ok tt, w);
     generate := fun _ _ w => (Ok (c_cases w), w);
     ensure_folders := fun w => (Ok (c_folders w), w);
     create_test_case := fun _ _ w =>
       (Ok (c_next_id w),
        {| c_story := c_story w; c_existing := c_existing w;
           c_cases := c_cases w; c_folders := c_folders w;
           c_next_id := c_next_id w + 1 |});
     update_test_case := fun _ _ w => (Ok tt, w);
     add_test_to_suite := fun _ _ w => (Ok tt, w) |}.

Definition mk_story (id : Z) (ac : str) : UserStory :=
  {| us_id := id; us_title := of_string "Login"; us_description := [];
     us_acceptance_criteria := ac; us_priority := 2; us_tags := [];
     us_state := of_string "Active" |}.

Definition mk_existing (id : Z) (title : str) (steps : list TestStep) :
    ExistingTestCase :=
  {| etc_id := id; etc_title := title; etc_steps := steps;
     etc_priority := 2; etc_tags := []; etc_revision := 1 |}.

Definition mk_case (title given when_ then_ category : str) :
    GeneratedTestCase :=
  {| gtc_title := title; gtc_given := given; gtc_when := when_;
     gtc_then := then_; gtc_steps := []; gtc_priority := 2; gtc_tags := [];
     gtc_category := category; gtc_test_type := of_string "Positive" |}.

(** The worked example of the specification. *)
Definition example_story : UserStory :=
  mk_story 1 (of_string "- User can log in" ++ LF ++
              of_string "- User can reset password").

Definition example_existing : list ExistingTestCase :=
  [mk_existing 7 (of_string "Verify user login")
     [{| action := of_string "user logs in";
         expected_result := of_string "dashboard shown" |}]].

Definition example_case : GeneratedTestCase :=
  mk_case (of_string "Verify user login") (of_string "a registered user")
          (of_string "the user logs in") (of_string "the dashboard is shown")
          (of_string "Bogus").

(** The two criteria lines and the corpus of the worked example. *)
Definition login_line : list N := of_string "User can log in".

Definition reset_line : list N := of_string "User can reset password".

Definition example_corpus : list N :=
  of_string "verify user login" ++ LF ++ of_string "user logs in" ++ LF ++
  of_string "dashboard shown".


(** The calls of a dry run, in order. *)
Definition dry_run_calls (story_id : Z) (story : UserStory) (delta : list N) :
    list Call :=
  [NewADOClient; GetUserStory story_id; GetLinkedTestCases story_id;
   NewTestGenerator; Generate story delta].

Definition canned_world : Canned :=
  {| c_story := mk_story 1 (of_string "- User logs in");
     c_existing := example_existing;
     c_cases := [example_case];
     c_folders := <[COMPLETE := 3]> (<[REGRESSION := 5]> ∅);
     c_next_id := 100 |}.

(** ** Further vocabulary: what is left to match

    The elements of [a] and of [b] that the regions of the work list of
    [get_matching_blocks] still cover. *)
Definition queue_span_a (q : list difflib.Region) : Z :=
  fold_right (fun (r : difflib.Region) acc => (r.1.1.2 - r.1.1.1) + acc) 0 q.

Definition queue_span_b (q : list difflib.Region) : Z :=
  fold_right (fun (r : difflib.Region) acc => (r.2 - r.1.2) + acc) 0 q.

(** The invariant of the loop of [get_matching_blocks]: the blocks found
    and the regions left never hold more elements than the sequences. *)
Definition gmb_inv (a b : str) (st : list difflib.Region * list difflib.Match) :
    Prop :=
  Forall (region_ok a b) st.1 /\
  0 <= difflib.sum_sizes st.2 /\
  difflib.sum_sizes st.2 + queue_span_a st.1 <= len a /\
  difflib.sum_sizes st.2 + queue_span_b st.1 <= len b.

(** An engine and a candidate with the same signature. *)
Definition identical_engine : DedupEngine :=
  DedupEngine_init (H := ascii_tables) default_settings
    [mk_existing 7 (of_string "Login works")
       [{| action := of_string "open page";
           expected_result := of_string "form shown" |}]] None.

Definition identical_case : GeneratedTestCase :=
  mk_case (of_string "Login works") (of_string "open page form shown")
          [] [] REGRESSION.

(** ** Further vocabulary: the kinds of collaborator calls *)

(** The fetches, the generation and the provisioning of the folders. *)
Definition is_fetch_call (ev : Call) : bool :=
  match ev with
  | NewADOClient | GetUserStory _ | GetLinkedTestCases _
  | NewTestGenerator | Generate _ _ | EnsureFolders => true
  | _ => false
  end.

Definition is_create_call (ev : Call) : bool :=
  match ev with CreateTestCase _ _ => true | _ => false end.

Definition is_update_call (ev : Call) : bool :=
  match ev with UpdateTestCase _ _ => true | _ => false end.

(** What [assign_test] may invoke. *)
Definition is_filing_call (ev : Call) : bool :=
  match ev with AddTestToSuite _ _ | EnsureFolders => true | _ => false end.

(** The filings of one test case against a folder map. *)
Definition filings_of (m : gmap (list N) Z) (p : Z * GeneratedTestCase) :
    list Call :=
  filing (m !! COMPLETE) p.1 ++
  filing (m !! normalize_category (gtc_category p.2)) p.1.

(** Variants of the canned world: a suite service that refuses every
    filing, a provisioning that returns no folder, and a generator whose
    answer cannot be parsed. *)
Definition broken_suite_collaborators : Collaborators Canned :=
  {| ado_init := @ado_init _ canned_collaborators;
     get_user_story := @get_user_story _ canned_collaborators;
     get_linked_test_cases := @get_linked_test_cases _ canned_collaborators;
     generator_init := @generator_init _ canned_collaborators;
     generate := @generate _ canned_collaborators;
     ensure_folders := @ensure_folders _ canned_collaborators;
     create_test_case := @create_test_case _ canned_collaborators;
     update_test_case := @update_test_case _ canned_collaborators;
     add_test_to_suite := fun _ _ w => (Raise RemoteError, w) |}.

Definition no_folder_collaborators : Collaborators Canned :=
  {| ado_init := @ado_init _ canned_collaborators;
     get_user_story := @get_user_story _ canned_collaborators;
     get_linked_test_cases := @get_linked_test_cases _ canned_collaborators;
     generator_init := @generator_init _ canned_collaborators;
     generate := @generate _ canned_collaborators;
     ensure_folders := fun w => (Ok ∅, w);
     create_test_case := @create_test_case _ canned_collaborators;
     update_test_case := @update_test_case _ canned_collaborators;
     add_test_to_suite := @add_test_to_suite _ canned_collaborators |}.

Definition broken_generator_collaborators : Collaborators Canned :=
  {| ado_init := @ado_init _ canned_collaborators;
     get_user_story := @get_user_story _ canned_collaborators;
     get_linked_test_cases := @get_linked_test_cases _ canned_collaborators;
     generator_init := @generator_init _ canned_collaborators;
     generate := fun _ _ w => (Raise GenerationError, w);
     ensure_folders := @ensure_folders _ canned_collaborators;
     create_test_case := @create_test_case _ canned_collaborators;
     update_test_case := @update_test_case _ canned_collaborators;
     add_test_to_suite := @add_test_to_suite _ canned_collaborators |}.

(** A world in which the story has an uncovered criteria line. *)
Definition open_world : Canned :=
  {| c_story := example_story;
     c_existing :=
       example_existing ++
       [mk_existing 8 (of_string "Login works")
          [{| action := of_string "open page";
              expected_result := of_string "form shown" |}]];
     c_cases := [example_case; identical_case];
     c_folders := <[COMPLETE := 3]> (<[REGRESSION := 5]> ∅);
     c_next_id := 100 |}.

(** The split of phase 4, as the specification words it: the candidates
    without a match, to create, and the matched ones, each with the
    identifier it matched, to update. *)
Definition cases_to_create (paired : list (GeneratedTestCase * DedupResult)) :
    list GeneratedTestCase :=
  List.map fst (List.filter (fun p => negb (is_duplicate p.2)) paired).

Definition cases_to_update (paired : list (GeneratedTestCase * DedupResult)) :
    list (Z * GeneratedTestCase) :=
  List.map (fun p => (matched_id p.2, p.1))
           (List.filter (fun p => is_duplicate p.2) paired).

Definition open_world_after : Canned :=
  {| c_story := c_story open_world; c_existing := c_existing open_world;
     c_cases := c_cases open_world; c_folders := c_folders open_world;
     c_next_id := 101 |}.

(** A computation only adds calls that satisfy [Q] to the trace, whatever
    it returns. *)
Definition only_calls {W A : Type} (Q : Call -> bool) (m : M W A) : Prop :=
  forall st : W * list Call,
    exists evs, (m st).2.2 = st.2 ++ evs /\ Forall (fun ev => Q ev = true) evs.

(** The calls of a run come in phases: fetches, generation and
    provisioning, then creations, then updates, then filings. *)
Definition phased (evs : list Call) : Prop :=
  exists fetches creates updates filings,
    evs = fetches ++ creates ++ updates ++ filings /\
    Forall (fun ev => is_fetch_call ev = true) fetches /\
    Forall (fun ev => is_create_call ev = true) creates /\
    Forall (fun ev => is_update_call ev = true) updates /\
    Forall (fun ev => is_filing_call ev = true) filings.

(** The calls [evs] fall into consecutive stretches, one for each kind of
    [kinds], in that order (a stretch may be empty). *)
Fixpoint staged (kinds : list (Call -> bool)) (evs : list Call) : Prop :=
  match kinds with
  | [] => evs = []
  | Q :: kinds' =>
      exists e1 e2, evs = e1 ++ e2 /\
                    Forall (fun ev => Q ev = true) e1 /\ staged kinds' e2
  end.

Definition runs_in {W A : Type} (kinds : list (Call -> bool)) (m : M W A) :
    Prop :=
  forall st : W * list Call,
    exists evs, (m st).2.2 = st.2 ++ evs /\ staged kinds evs.

(** A world in which the story has no linked test case yet. *)
Definition fresh_world : Canned :=
  {| c_story := example_story; c_existing := [];
     c_cases := [example_case; identical_case];
     c_folders := <[COMPLETE := 3]> (<[REGRESSION := 5]> ∅);
     c_next_id := 100 |}.

Definition fresh_world_after : Canned :=
  {| c_story := c_story fresh_world; c_existing := [];
     c_cases := c_cases fresh_world; c_folders := c_folders fresh_world;
     c_next_id := 102 |}.

(** ** config.py: the validation of the settings *)

(** [sys.exit(message)]: the call does not return, the interpreter ends
    with the message. *)
Inductive exit (A : Type) : Type :=
| Return (x : A)
| SystemExit (message : str).
Arguments Return {A} x.
Arguments SystemExit {A} message.

(** The order of Python on [str]: lexicographic on the code points. *)
Fixpoint str_leb (a b : str) : bool :=
  match a, b with
  | [], _ => true
  | _ :: _, [] => false
  | x :: a', y :: b' =>
      if (x <? y)%N then true
      else if (y <? x)%N then false
      else str_leb a' b'
  end.

Fixpoint insert_str (x : str) (l : list str) : list str :=
  match l with
  | [] => [x]
  | y :: l' => if str_leb x y then x :: l else y :: insert_str x l'
  end.

(** [sorted(s)] on a set of strings. *)
Definition sorted (s : gset str) : list str :=
  fold_right insert_str [] (elements s).

Module config.

Definition VALID_PROVIDERS : gset str :=
  list_to_set
    [of_string "openai"; of_string "anthropic"; of_string "azure_openai";
     of_string "groq"; of_string "deepseek"; of_string "mistral";
     of_string "together"; of_string "google"; of_string "ollama";
     of_string "lmstudio"; of_string "custom"].

Definition PROVIDER_BASE_URLS : gmap str str :=
  list_to_map
    [(of_string "groq", of_string "https://api.groq.com/openai/v1");
     (of_string "deepseek", of_string "https://api.deepseek.com");
     (of_string "mistral", of_string "https://api.mistral.ai/v1");
     (of_string "together", of_string "https://api.together.xyz/v1");
     (of_string "google",
      of_string "https://generativelanguage.googleapis.com/v1beta/openai/");
     (of_string "ollama", of_string "http://localhost:11434/v1");
     (of_string "lmstudio", of_string "http://localhost:1234/v1")].

(** The attributes of the class [Settings], as they stand once the module
    is loaded. *)
Record Settings : Type := {
  ADO_ORG_URL : str;
  ADO_PROJECT : str;
  ADO_PAT : str;
  ADO_TEST_PLAN_ID : Z;
  LLM_PROVIDER : str;
  LLM_API_KEY : str;
  LLM_MODEL : str;
  LLM_BASE_URL : str;
  AZURE_OPENAI_ENDPOINT : str;
  AZURE_OPENAI_API_KEY : str;
  AZURE_OPENAI_DEPLOYMENT : str;
  AZURE_OPENAI_API_VERSION : str;
  DEDUP_THRESHOLD : Q
}.

Definition resolved_base_url (cls : Settings) : str :=
  if nonempty (LLM_BASE_URL cls) then LLM_BASE_URL cls
  else default [] (PROVIDER_BASE_URLS !! LLM_PROVIDER cls).

(** The arrow of the two messages, U+2192. *)
Definition ARROW : str := [8594%N].

Definition unknown_provider_message (provider : str) : str :=
  of_string "[ERROR] Unknown LLM_PROVIDER='" ++ provider ++ of_string "'." ++
  LF ++ of_string "  " ++ ARROW ++ of_string " Valid options: " ++
  join (of_string ", ") (sorted VALID_PROVIDERS).

Definition missing_message (missing : list str) : str :=
  of_string "[ERROR] Missing required environment variables: " ++
  join (of_string ", ") missing ++
  LF ++ of_string "  " ++ ARROW ++
  of_string " Copy .env.example to .env and fill in all values.".

Definition validate (cls : Settings) : exit unit :=
  let missing : list str := [] in
  let missing :=
    if negb (nonempty (ADO_ORG_URL cls))
    then missing ++ [of_string "ADO_ORG_URL"] else missing in
  let missing :=
    if negb (nonempty (ADO_PROJECT cls))
    then missing ++ [of_string "ADO_PROJECT"] else missing in
  let missing :=
    if negb (nonempty (ADO_PAT cls))
    then missing ++ [of_string "ADO_PAT"] else missing in
  let missing :=
    if ADO_TEST_PLAN_ID cls =? 0
    then missing ++ [of_string "ADO_TEST_PLAN_ID"] else missing in
  if negb (bool_decide (LLM_PROVIDER cls ∈ VALID_PROVIDERS)) then
    SystemExit (unknown_provider_message (LLM_PROVIDER cls))
  else
    let missing :=
      if bool_decide (LLM_PROVIDER cls = of_string "azure_openai") then
        let missing :=
          if negb (nonempty (AZURE_OPENAI_ENDPOINT cls))
          then missing ++ [of_string "AZURE_OPENAI_ENDPOINT"] else missing in
        let missing :=
          if negb (nonempty (AZURE_OPENAI_API_KEY cls))
          then missing ++ [of_string "AZURE_OPENAI_API_KEY"] else missing in
        if negb (nonempty (AZURE_OPENAI_DEPLOYMENT cls))
        then missing ++ [of_string "AZURE_OPENAI_DEPLOYMENT"] else missing
      else if negb (bool_decide (LLM_PROVIDER cls
                                 ∈ [of_string "ollama"; of_string "lmstudio"]))
      then
        if negb (nonempty (LLM_API_KEY cls))
        then missing ++ [of_string "LLM_API_KEY"] else missing
      else missing in
    if nonempty missing then SystemExit (missing_message missing)
    else Return tt.

End config.

(** The values [validate] asks for, in the order in which it looks at
    them: the name of each variable and whether its value is set. *)
Definition required_values (cls : config.Settings) : list (str * bool) :=
  [(of_string "ADO_ORG_URL", nonempty (config.ADO_ORG_URL cls));
   (of_string "ADO_PROJECT", nonempty (config.ADO_PROJECT cls));
   (of_string "ADO_PAT", nonempty (config.ADO_PAT cls));
   (of_string "ADO_TEST_PLAN_ID", negb (config.ADO_TEST_PLAN_ID cls =? 0))]
  ++
  (if bool_decide (config.LLM_PROVIDER cls = of_string "azure_openai") then
     [(of_string "AZURE_OPENAI_ENDPOINT",
       nonempty (config.AZURE_OPENAI_ENDPOINT cls));
      (of_string "AZURE_OPENAI_API_KEY",
       nonempty (config.AZURE_OPENAI_API_KEY cls));
      (of_string "AZURE_OPENAI_DEPLOYMENT",
       nonempty (config.AZURE_OPENAI_DEPLOYMENT cls))]
   else if bool_decide (config.LLM_PROVIDER cls
                        ∈ [of_string "ollama"; of_string "lmstudio"])
   then []
   else [(of_string "LLM_API_KEY", nonempty (config.LLM_API_KEY cls))]).

Definition missing_values (cls : config.Settings) : list str :=
  (List.filter (fun p : str * bool => negb p.2) (required_values cls)).*1.

Definition example_settings : config.Settings :=
  {| config.ADO_ORG_URL := of_string "https://dev.azure.com/acme";
     config.ADO_PROJECT := of_string "Shop";
     config.ADO_PAT := of_string "secret";
     config.ADO_TEST_PLAN_ID := 7;
     config.LLM_PROVIDER := of_string "openai";
     config.LLM_API_KEY := of_string "sk-1";
     config.LLM_MODEL := of_string "gpt-4o";
     config.LLM_BASE_URL := [];
     config.AZURE_OPENAI_ENDPOINT := [];
     config.AZURE_OPENAI_API_KEY := [];
     config.AZURE_OPENAI_DEPLOYMENT := [];
     config.AZURE_OPENAI_API_VERSION := of_string "2024-02-15-preview";
     config.DEDUP_THRESHOLD := (9 # 10)%Q |}.

(** [cls] with another provider and without an API key. *)
Definition with_provider (provider : str) (cls : config.Settings) :
    config.Settings :=
  {| config.ADO_ORG_URL := config.ADO_ORG_URL cls;
     config.ADO_PROJECT := config.ADO_PROJECT cls;
     config.ADO_PAT := config.ADO_PAT cls;
     config.ADO_TEST_PLAN_ID := config.ADO_TEST_PLAN_ID cls;
     config.LLM_PROVIDER := provider;
     config.LLM_API_KEY := [];
     config.LLM_MODEL := config.LLM_MODEL cls;
     config.LLM_BASE_URL := config.LLM_BASE_URL cls;
     config.AZURE_OPENAI_ENDPOINT := config.AZURE_OPENAI_ENDPOINT cls;
     config.AZURE_OPENAI_API_KEY := config.AZURE_OPENAI_API_KEY cls;
     config.AZURE_OPENAI_DEPLOYMENT := config.AZURE_OPENAI_DEPLOYMENT cls;
     config.AZURE_OPENAI_API_VERSION := config.AZURE_OPENAI_API_VERSION cls;
     config.DEDUP_THRESHOLD := config.DEDUP_THRESHOLD cls |}.

(** The settings of an empty environment. *)
Definition unconfigured : config.Settings :=
  {| config.ADO_ORG_URL := []; config.ADO_PROJECT := [];
     config.ADO_PAT := []; config.ADO_TEST_PLAN_ID := 0;
     config.LLM_PROVIDER := of_string "openai";
     config.LLM_API_KEY := []; config.LLM_MODEL := of_string "gpt-4o";
     config.LLM_BASE_URL := [];
     config.AZURE_OPENAI_ENDPOINT := []; config.AZURE_OPENAI_API_KEY := [];
     config.AZURE_OPENAI_DEPLOYMENT := [];
     config.AZURE_OPENAI_API_VERSION := of_string "2024-02-15-preview";
     config.DEDUP_THRESHOLD := (9 # 10)%Q |}.

(** ** ado_client.py: the folders of the test plan *)

(** An entry of the suite listing: [s["name"]], [s["id"]] and the id of
    [s["parentSuite"]], when the entry has one. *)
Record SuiteEntry : Type := {
  suite_name : str;
  suite_id : Z;
  parent_suite : option Z
}.

(** The requests to the Test-Plan endpoints. *)
Inductive Request : Type :=
| GetPlan
| GetSuites
| PostSuite (parent_suite_id : Z) (name : str).

(** The endpoints: what the service answers, once [raise_for_status] and
    the decoding of the answer are through. *)
Class TestPlanService (W : Type) : Type := {
  get_plan : W -> res Z * W;
  get_suites : W -> res (list SuiteEntry) * W;
  post_suite : Z -> str -> W -> res Z * W
}.

Module ado_client.

Definition REQUIRED_FOLDERS : list str := [COMPLETE; REGRESSION; SMOKE; SANITY].

Section ADOClient.
Context {W : Type} `{TestPlanService W}.

(** Computations over the service and the log of the requests sent. *)
Definition Http (A : Type) : Type :=
  W * list Request -> res A * (W * list Request).

Definition unit_ {A : Type} (x : A) : Http A := fun st => (Ok x, st).

Definition bind {A B : Type} (m : Http A) (f : A -> Http B) : Http B :=
  fun st =>
    match m st with
    | (Ok x, st') => f x st'
    | (Raise e, st') => (Raise e, st')
    | (Diverge, st') => (Diverge, st')
    end.

Definition request {A : Type} (ev : Request) (op : W -> res A * W) : Http A :=
  fun st => let '(r, w') := op st.1 in (r, (w', st.2 ++ [ev])).

Definition _get_root_suite_id : Http Z := request GetPlan get_plan.

(** The dict comprehension over the listing. *)
Definition child_suites (all_suites : list SuiteEntry) (parent_suite_id : Z) :
    gmap str Z :=
  fold_left
    (fun (m : gmap str Z) s =>
       if bool_decide (parent_suite s = Some parent_suite_id)
       then <[suite_name s := suite_id s]> m else m)
    all_suites ∅.

Definition _list_child_suites (parent_suite_id : Z) : Http (gmap str Z) :=
  bind (request GetSuites get_suites) (fun all_suites =>
  unit_ (child_suites all_suites parent_suite_id)).

Definition _create_static_suite (parent_suite_id : Z) (name : str) : Http Z :=
  request (PostSuite parent_suite_id name) (post_suite parent_suite_id name).

(** [for folder in folders: ...] of [ensure_folders]. *)
Fixpoint ensure_each (folders : list str) (root_id : Z)
    (existing folder_map : gmap str Z) : Http (gmap str Z) :=
  match folders with
  | [] => unit_ folder_map
  | folder :: folders' =>
      match existing !! folder with
      | Some id =>
          ensure_each folders' root_id existing (<[folder := id]> folder_map)
      | None =>
          bind (_create_static_suite root_id folder) (fun id =>
          ensure_each folders' root_id existing (<[folder := id]> folder_map))
      end
  end.

Definition ensure_folders : Http (gmap str Z) :=
  bind _get_root_suite_id (fun root_id =>
  bind (_list_child_suites root_id) (fun existing =>
  ensure_each REQUIRED_FOLDERS root_id existing ∅)).

End ADOClient.
End ado_client.

(** The collaborators of the pipeline with the folders provisioned by
    [ADOClient.ensure_folders]. *)
Definition ado_collaborators {W : Type} `{TestPlanService W}
    (base : Collaborators (W * list Request)) :
    Collaborators (W * list Request) :=
  {| ado_init := @ado_init _ base;
     get_user_story := @get_user_story _ base;
     get_linked_test_cases := @get_linked_test_cases _ base;
     generator_init := @generator_init _ base;
     generate := @generate _ base;
     ensure_folders := ado_client.ensure_folders;
     create_test_case := @create_test_case _ base;
     update_test_case := @update_test_case _ base;
     add_test_to_suite := @add_test_to_suite _ base |}.

(** The required folders that the listing lacks, in the order of
    [REQUIRED_FOLDERS]. *)
Definition missing_folders (existing : gmap str Z) : list str :=
  List.filter (fun folder => bool_decide (existing !! folder = None))
              ado_client.REQUIRED_FOLDERS.

(** The identifiers of the suites of a name under a parent, in the order
    of the listing. *)
Definition listed_ids (all_suites : list SuiteEntry) (parent_suite_id : Z)
    (name : str) : list Z :=
  List.map suite_id
    (List.filter
       (fun s => bool_decide (parent_suite s = Some parent_suite_id)
                 && bool_decide (suite_name s = name))
       all_suites).

(** A test plan kept in memory: its root suite, its suites, and the
    identifier the next created suite gets. *)
Record Plan : Type := {
  p_root : Z;
  p_suites : list SuiteEntry;
  p_next : Z
}.

Definition plan_service : TestPlanService Plan :=
  {| get_plan := fun w => (Ok (p_root w), w);
     get_suites := fun w => (Ok (p_suites w), w);
     post_suite := fun parent name w =>
       (Ok (p_next w),
        {| p_root := p_root w;
           p_suites := p_suites w ++
             [{| suite_name := name; suite_id := p_next w;
                 parent_suite := Some parent |}];
           p_next := p_next w + 1 |}) |}.

(** The same plan behind a service that refuses to create suites. *)
Definition read_only_service : TestPlanService Plan :=
  {| get_plan := fun w => (Ok (p_root w), w);
     get_suites := fun w => (Ok (p_suites w), w);
     post_suite := fun _ _ w => (Raise RemoteError, w) |}.

(** A plan with two of the four folders, one of them listed twice, and a
    suite of another parent that bears the name of a third. *)
Definition example_plan : Plan :=
  {| p_root := 1;
     p_suites :=
       [{| suite_name := REGRESSION; suite_id := 4; parent_suite := Some 1 |};
        {| suite_name := SMOKE; suite_id := 6; parent_suite := Some 4 |};
        {| suite_name := COMPLETE; suite_id := 3; parent_suite := Some 1 |};
        {| suite_name := REGRESSION; suite_id := 5; parent_suite := Some 1 |};
        {| suite_name := of_string "Root"; suite_id := 1;
           parent_suite := None |}];
     p_next := 10 |}.

(** ** test_generator.py: the choice of the client *)

Module test_generator.

(** The client objects [__init__] builds, with the arguments it passes;
    [OpenAI] receives a dict of keyword arguments. *)
Inductive Client : Type :=
| AzureOpenAI (azure_endpoint api_key api_version : str)
| Anthropic (api_key : str)
| OpenAI (kwargs : gmap str str).

Record TestGenerator : Type := {
  _provider : str;
  _client : Client;
  _model : str
}.

(** [TestGenerator.__init__]; [None] is the [ImportError] raised when
    the provider is [anthropic] and its package is not installed. *)
Definition TestGenerator_init (cls : config.Settings)
    (anthropic_installed : bool) : option TestGenerator :=
  let provider := config.LLM_PROVIDER cls in
  if bool_decide (provider = of_string "azure_openai") then
    Some {| _provider := of_string "openai_compat";
            _client := AzureOpenAI (config.AZURE_OPENAI_ENDPOINT cls)
                                   (config.AZURE_OPENAI_API_KEY cls)
                                   (config.AZURE_OPENAI_API_VERSION cls);
            _model := config.AZURE_OPENAI_DEPLOYMENT cls |}
  else if bool_decide (provider = of_string "anthropic") then
    if anthropic_installed then
      Some {| _provider := of_string "anthropic";
              _client := Anthropic (config.LLM_API_KEY cls);
              _model := config.LLM_MODEL cls |}
    else None
  else
    let base_url := config.resolved_base_url cls in
    let kwargs : gmap str str :=
      {[ of_string "api_key" := config.LLM_API_KEY cls ]} in
    let kwargs :=
      if nonempty base_url then <[of_string "base_url" := base_url]> kwargs
      else kwargs in
    Some {| _provider := of_string "openai_compat";
            _client := OpenAI kwargs;
            _model := config.LLM_MODEL cls |}.

End test_generator.

(** The credential a client is built with. *)
Definition credential (c : test_generator.Client) : option str :=
  match c with
  | test_generator.AzureOpenAI _ api_key _ => Some api_key
  | test_generator.Anthropic api_key => Some api_key
  | test_generator.OpenAI kwargs => kwargs !! of_string "api_key"
  end.

(** The address a client is pointed at; [None] leaves it to the
    library's default. *)
Definition endpoint (c : test_generator.Client) : option str :=
  match c with
  | test_generator.AzureOpenAI azure_endpoint _ _ => Some azure_endpoint
  | test_generator.Anthropic _ => None
  | test_generator.OpenAI kwargs => kwargs !! of_string "base_url"
  end.

(** The generators [TestGenerator.__init__] builds from
    [example_settings] and from the same settings with the provider
    [custom]. *)
Definition example_generator : test_generator.TestGenerator :=
  {| test_generator._provider := of_string "openai_compat";
     test_generator._client :=
       test_generator.OpenAI {[ of_string "api_key" := of_string "sk-1" ]};
     test_generator._model := of_string "gpt-4o" |}.

Definition custom_generator : test_generator.TestGenerator :=
  {| test_generator._provider := of_string "openai_compat";
     test_generator._client :=
       test_generator.OpenAI {[ of_string "api_key" := [] ]};
     test_generator._model := of_string "gpt-4o" |}.

Definition example_plan_after : Plan :=
  {| p_root := 1;
     p_suites :=
       p_suites example_plan ++
       [{| suite_name := SMOKE; suite_id := 10; parent_suite := Some 1 |};
        {| suite_name := SANITY; suite_id := 11; parent_suite := Some 1 |}];
     p_next := 12 |}.

Definition example_folder_map : gmap str Z :=
  <[SANITY := 11]> (<[SMOKE := 10]> (<[REGRESSION := 5]>
    (<[COMPLETE := 3]> ∅))).

(** Collaborators over the plan kept in memory that accept every
    filing; their own provisioning returns no folder. *)
Definition plan_base : Collaborators (Plan * list Request) :=
  {| ado_init := fun w => (Ok tt, w);
     get_user_story := fun _ w => (Ok example_story, w);
     get_linked_test_cases := fun _ w => (Ok [], w);
     generator_init := fun w => (Ok tt, w);
     generate := fun _ _ w => (Ok [], w);
     ensure_folders := fun w => (Ok ∅, w);
     create_test_case := fun _ _ w => (Ok 100, w);
     update_test_case := fun _ _ w => (Ok tt, w);
     add_test_to_suite := fun _ _ w => (Ok tt, w) |}.

(** ** Further vocabulary: the folder map of a filing, failures *)



(** A candidate and an artifact without any text, and the engine that
    holds the artifact. *)
Definition blank_case : GeneratedTestCase := mk_case [] [] [] [] [].

Definition blank_existing : ExistingTestCase := mk_existing 7 [] [].

(** A corpus of 200 characters that are all different, and a line that
    shares 150 contiguous characters with it. *)
Definition distinct_corpus : str := List.map N.of_nat (seq 1000 200).

Definition distinct_line : str :=
  [120%N] ++ List.map N.of_nat (seq 1010 150).

(** * Proofs *)

(** ** Loops and indexing *)

Lemma while_inv {S : Type} (Inv : S -> Prop) (mu : S -> nat)
    (cond : S -> res bool) (body : S -> res S) :
  (forall s, Inv s ->
     exists c, cond s = Ok c /\
       (c = true -> exists s', body s = Ok s' /\ Inv s' /\ (mu s' < mu s)%nat)) ->
  forall fuel s, Inv s -> (mu s < fuel)%nat ->
    exists s', while fuel cond body s = Ok s' /\ Inv s' /\ cond s' = Ok false.
Proof.
  intros Hstep fuel. induction fuel as [|fuel IH]; intros s Hs Hmu; [lia|].
  destruct (Hstep s Hs) as (c & Hc & Hbody). simpl. rewrite Hc. simpl.
  destruct c.
  - destruct (Hbody eq_refl) as (s' & Hb & Hs' & Hlt). rewrite Hb. simpl.
    apply IH; [done | lia].
  - exists s. done.
Qed.

Lemma while_false {S : Type} (cond : S -> res bool) (body : S -> res S)
    (fuel : nat) (s : S) :
  cond s = Ok false -> while (Datatypes.S fuel) cond body s = Ok s.
Proof. intros Hc. simpl. rewrite Hc. reflexivity. Qed.

Lemma len_nonneg {A : Type} (l : list A) : 0 <= len l.
Proof. unfold len. lia. Qed.

Lemma len_app {A : Type} (l1 l2 : list A) : len (l1 ++ l2) = len l1 + len l2.
Proof. unfold len. rewrite length_app. lia. Qed.

Lemma py_index_in_range {A : Type} (l : list A) (i : Z) :
  0 <= i < len l ->
  exists x, py_index l i = Ok x /\ l !! Z.to_nat i = Some x.
Proof.
  intros Hi. unfold py_index.
  destruct (i <? 0) eqn:Hneg; [lia|].
  replace ((0 <=? i) && (i <? len l)) with true
    by (symmetry; apply andb_true_iff; lia).
  destruct (lookup_lt_is_Some_2 l (Z.to_nat i)) as [x Hx];
    [unfold len in Hi; lia|].
  exists x. rewrite Hx. done.
Qed.

Lemma lookup_Some_len {A : Type} (l : list A) (i : Z) (x : A) :
  0 <= i -> l !! Z.to_nat i = Some x -> i < len l.
Proof.
  intros Hi Hx. apply lookup_lt_Some in Hx. unfold len. lia.
Qed.

(** ** The index built by [__chain_b] *)

Lemma enumerate_snoc {A : Type} (l : list A) (x : A) :
  enumerate (l ++ [x]) = enumerate l ++ [(len l, x)].
Proof.
  unfold enumerate. rewrite len_app. change (len [x]) with 1.
  rewrite seqZ_app by (pose proof (len_nonneg l); lia).
  rewrite zip_with_app by (rewrite length_seqZ; unfold len; lia).
  reflexivity.
Qed.

Lemma positions_snoc (s : list N) (x c : N) :
  positions (s ++ [x]) c =
  positions s c ++ (if decide (x = c) then [len s] else []).
Proof.
  unfold positions. rewrite enumerate_snoc, filter_app, fmap_app.
  f_equal. rewrite filter_cons, filter_nil. simpl.
  destruct (decide (x = c)); reflexivity.
Qed.

Lemma elem_of_positions (s : list N) (c : N) (j : Z) :
  j ∈ positions s c <-> 0 <= j < len s /\ s !! Z.to_nat j = Some c.
Proof.
  induction s as [|x s IH] using rev_ind.
  - unfold positions, enumerate, len. simpl. split.
    + intros Hin. inversion Hin.
    + intros [? _]. lia.
  - rewrite positions_snoc, elem_of_app, IH, len_app. change (len [x]) with 1.
    pose proof (len_nonneg s) as Hs. split.
    + intros [[Hj Hl] | Hin].
      * split; [lia|]. rewrite lookup_app_l by (unfold len in *; lia). done.
      * destruct (decide (x = c)) as [->|]; [|inversion Hin].
        apply list_elem_of_singleton in Hin. subst j. split; [lia|].
        unfold len. rewrite Nat2Z.id. apply list_lookup_middle. done.
    + intros [Hj Hl]. destruct (decide (j < len s)) as [Hlt|Hge].
      * left. split; [lia|]. rewrite lookup_app_l in Hl by (unfold len in *; lia). done.
      * right. assert (j = len s) as -> by lia.
        unfold len in Hl. rewrite Nat2Z.id in Hl.
        rewrite list_lookup_middle in Hl by done. injection Hl as ->.
        rewrite decide_True by done. apply list_elem_of_singleton. done.
Qed.

Lemma positions_sorted (s : list N) (c : N) :
  StronglySorted Z.lt (positions s c).
Proof.
  induction s as [|x s IH] using rev_ind.
  - constructor.
  - rewrite positions_snoc. destruct (decide (x = c)).
    + apply StronglySorted_app_2; [| done | repeat constructor].
      intros y1 y2 Hy1 Hy2. apply list_elem_of_singleton in Hy2. subst y2.
      apply elem_of_positions in Hy1. lia.
    + rewrite app_nil_r. done.
Qed.

Lemma chain_b_index_snoc (s : list N) (x : N) :
  difflib.chain_b_index (s ++ [x]) =
  <[x := default [] (difflib.chain_b_index s !! x) ++ [len s]]>
    (difflib.chain_b_index s).
Proof.
  unfold difflib.chain_b_index. rewrite enumerate_snoc, fold_left_app.
  reflexivity.
Qed.

Lemma chain_b_index_lookup (s : list N) (c : N) :
  difflib.chain_b_index s !! c =
  match positions s c with [] => None | l => Some l end.
Proof.
  induction s as [|x s IH] using rev_ind.
  - reflexivity.
  - rewrite chain_b_index_snoc, positions_snoc.
    destruct (decide (x = c)) as [->|Hne].
    + rewrite lookup_insert_eq, IH.
      destruct (positions s c); reflexivity.
    + rewrite lookup_insert_ne by done. rewrite IH, app_nil_r. reflexivity.
Qed.

Lemma new_a (a b : list N) : difflib.a (difflib.new a b) = a.
Proof. unfold difflib.new. destruct (difflib.chain_b true b) as [[? ?] ?]. done. Qed.

Lemma new_b (a b : list N) : difflib.b (difflib.new a b) = b.
Proof. unfold difflib.new. destruct (difflib.chain_b true b) as [[? ?] ?]. done. Qed.

Lemma new_bjunk (a b : list N) : difflib.bjunk (difflib.new a b) = ∅.
Proof.
  unfold difflib.new, difflib.chain_b.
  destruct (true && (200 <=? len b)); reflexivity.
Qed.

Lemma new_b2j (a b : list N) (c : N) :
  default [] (difflib.b2j (difflib.new a b) !! c) =
  if popular b c then [] else positions b c.
Proof.
  unfold difflib.new, difflib.chain_b, popular. simpl.
  destruct (200 <=? len b) eqn:Hn; simpl.
  - rewrite map_lookup_filter. rewrite chain_b_index_lookup.
    destruct (positions b c) as [|j js] eqn:Hpos.
    + simpl. destruct (_ <? _); reflexivity.
    + simpl.
      destruct (len b / 100 + 1 <? len (j :: js)) eqn:Hpop.
      * rewrite option_guard_False; [reflexivity|].
        intros Hnot. apply Hnot. apply elem_of_dom.
        exists (j :: js). apply map_lookup_filter_Some. split.
        -- rewrite chain_b_index_lookup, Hpos. done.
        -- simpl. unfold difflib.is_popular. done.
      * rewrite option_guard_True; [reflexivity|].
        intros Hin. apply elem_of_dom in Hin as [l Hl].
        apply map_lookup_filter_Some in Hl as [Hl Hp].
        rewrite chain_b_index_lookup, Hpos in Hl. injection Hl as <-.
        simpl in Hp. unfold difflib.is_popular in Hp. congruence.
  - rewrite chain_b_index_lookup. destruct (positions b c); reflexivity.
Qed.

(** ** The first loop of [find_longest_match] *)

Section FirstLoop.
Variables (a b : list N) (alo blo bhi : Z).

Local Abbreviation Cell := (cell a b alo blo bhi).
Local Abbreviation Diag := (diag a b alo blo bhi).
Local Abbreviation Exact := (exact a b alo blo bhi).

Lemma diag_succ (i j k : Z) :
  0 <= k -> Diag i j (k + 1) <-> Cell i j /\ Diag (i - 1) (j - 1) k.
Proof.
  intros Hk. unfold diag. split.
  - intros Hd. split.
    + specialize (Hd 0). rewrite !Z.sub_0_r in Hd. apply Hd. lia.
    + intros d Hdk. specialize (Hd (d + 1)).
      replace (i - 1 - d) with (i - (d + 1)) by lia.
      replace (j - 1 - d) with (j - (d + 1)) by lia. apply Hd. lia.
  - intros [Hc Hd] d Hdk. destruct (decide (d = 0)) as [->|Hne].
    + rewrite !Z.sub_0_r. done.
    + specialize (Hd (d - 1)).
      replace (i - d) with (i - 1 - (d - 1)) by lia.
      replace (j - d) with (j - 1 - (d - 1)) by lia. apply Hd. lia.
Qed.

Lemma exact_le (i j k k' : Z) : Diag i j k -> Exact i j k' -> k <= k'.
Proof.
  intros Hd (Hk' & _ & Hn). destruct (decide (k <= k')); [done|].
  exfalso. apply Hn. apply Hd. lia.
Qed.

Lemma exact_step (i j k : Z) :
  Exact (i - 1) (j - 1) k -> Cell i j -> Exact i j (k + 1).
Proof.
  intros (Hk & Hd & Hn) Hc. split; [lia|]. split.
  - apply diag_succ; done.
  - replace (i - (k + 1)) with (i - 1 - k) by lia.
    replace (j - (k + 1)) with (j - 1 - k) by lia. done.
Qed.

Lemma exact_zero (i j : Z) : ~ Cell i j -> Exact i j 0.
Proof.
  intros Hn. split; [lia|]. split.
  - intros d Hd. lia.
  - rewrite !Z.sub_0_r. done.
Qed.

Lemma not_cell_diag (i j k : Z) : ~ Cell i j -> Diag i j k -> k <= 0.
Proof. intros Hn Hd. apply (exact_le i j k 0 Hd). apply exact_zero. done. Qed.

Lemma row_inv_start (j2len : gmap Z Z) :
  j2len = ∅ -> row_inv a b alo blo bhi (alo - 1) j2len.
Proof.
  intros -> j. rewrite lookup_empty. simpl. apply exact_zero.
  intros (Hi & _). lia.
Qed.

(** One row, from the state reached after the positions [done]. *)
Lemma flm_row_spec (i : Z) (j2len : gmap Z Z) :
  row_inv a b alo blo bhi (i - 1) j2len ->
  forall (js done : list Z) (newj2len : gmap Z Z) (best : difflib.Match)
         (new' : gmap Z Z) (best' : difflib.Match),
    StronglySorted Z.lt (done ++ js) ->
    (forall j, Cell i j <-> j ∈ done ++ js /\ blo <= j < bhi) ->
    (forall j, newj2len !! j =
       if decide (j ∈ done /\ blo <= j < bhi)
       then Some (default 0 (j2len !! (j - 1)) + 1) else None) ->
    best_inv a b alo blo bhi i js best ->
    difflib.flm_row i blo bhi j2len js newj2len best = (new', best') ->
    row_inv a b alo blo bhi i new' /\ best_inv a b alo blo bhi i [] best'.
Proof.
  intros Hprev js. induction js as [|j js IH];
    intros done new best new' best' Hsorted Hcell Hnew Hbest Hrun.
  - simpl in Hrun. injection Hrun as <- <-. split; [|done].
    intros j. rewrite Hnew. rewrite app_nil_r in Hcell.
    destruct (decide (j ∈ done /\ blo <= j < bhi)) as [Hin|Hout]; simpl.
    + apply exact_step; [apply Hprev | apply Hcell; done].
    + apply exact_zero. rewrite Hcell. done.
  - assert (Hdone : forall x, x ∈ done -> x < j).
    { intros x Hx. eapply (StronglySorted_app_1_elem_of _ done (j :: js));
        [done | done | left]. }
    assert (Hjs : forall x, x ∈ js -> j < x).
    { intros x Hx. apply StronglySorted_app_1_r in Hsorted.
      apply StronglySorted_inv in Hsorted as [_ Hall].
      rewrite Forall_forall in Hall. apply Hall. done. }
    assert (Hsorted' : StronglySorted Z.lt ((done ++ [j]) ++ js))
      by (rewrite <- app_assoc; done).
    assert (Hcell' : forall x, Cell i x <-> x ∈ (done ++ [j]) ++ js /\ blo <= x < bhi)
      by (intros x; rewrite <- app_assoc; apply Hcell).
    assert (Hgap : forall x k, j < x -> Forall (fun y => x < y) js ->
                     Diag i x k -> k <= 0).
    { intros x k Hx Hall. apply not_cell_diag. rewrite Hcell.
      intros [Hin _]. rewrite elem_of_app, elem_of_cons in Hin.
      rewrite Forall_forall in Hall.
      destruct Hin as [Hin | [-> | Hin]].
      - apply Hdone in Hin. lia.
      - lia.
      - apply Hall in Hin. lia. }
    assert (Hold : forall x, x < j -> visited i (j :: js) i x).
    { intros x Hx. right. split; [done|]. constructor; [done|].
      rewrite Forall_forall. intros y Hy. apply Hjs in Hy. lia. }
    simpl in Hrun. destruct (j <? blo) eqn:Hlo.
    + (* continue *)
      apply Z.ltb_lt in Hlo.
      eapply (IH (done ++ [j])); [done | done | | | exact Hrun].
      * intros x. rewrite Hnew.
        destruct (decide (x ∈ done /\ blo <= x < bhi)) as [Hin|Hout].
        -- rewrite decide_True; [done|]. rewrite elem_of_app. tauto.
        -- rewrite decide_False; [done|].
           rewrite elem_of_app, list_elem_of_singleton.
           intros [[Hin | ->] Hw]; [tauto | lia].
      * destruct best as [[bi bj] bs].
        destruct Hbest as (H0 & Hz & Hp & Hmax).
        split; [done|]. split; [done|]. split; [done|].
        intros i' j' k [Hlt | [-> Hall]] Hd.
        -- apply (Hmax i' j' k); [left; done | done].
        -- destruct (Z.lt_trichotomy j' j) as [Hc | [-> | Hc]].
           ++ apply (Hmax i j' k); [apply Hold; done | done].
           ++ assert (k <= 0); [|lia]. apply (not_cell_diag i j); [|done].
              intros (_ & Hw & _). lia.
           ++ assert (k <= 0); [|lia]. apply (Hgap j'); done.
    + apply Z.ltb_ge in Hlo. destruct (bhi <=? j) eqn:Hhi.
      * (* break *)
        apply Z.leb_le in Hhi. injection Hrun as <- <-. split.
        -- intros x. rewrite Hnew.
           destruct (decide (x ∈ done /\ blo <= x < bhi)) as [Hin|Hout]; simpl.
           ++ apply exact_step; [apply Hprev|]. apply Hcell.
              rewrite elem_of_app. tauto.
           ++ apply exact_zero. rewrite Hcell.
              rewrite elem_of_app, elem_of_cons.
              intros [[Hin | [-> | Hin]] Hw]; [tauto | lia |].
              apply Hjs in Hin. lia.
        -- destruct best as [[bi bj] bs].
           destruct Hbest as (H0 & Hz & Hp & Hmax).
           split; [done|]. split; [done|]. split; [done|].
           intros i' j' k [Hlt | [-> _]] Hd.
           ++ apply (Hmax i' j' k); [left; done | done].
           ++ destruct (decide (j' < j)) as [Hc|Hc].
              ** apply (Hmax i j' k); [apply Hold; done | done].
              ** assert (k <= 0); [|lia]. apply (not_cell_diag i j'); [|done].
                 intros (_ & Hw & _). lia.
      * apply Z.leb_gt in Hhi.
        set (k := default 0 (j2len !! (j - 1)) + 1) in *.
        assert (Hcj : Cell i j).
        { apply Hcell. split; [|lia]. rewrite elem_of_app. right. left. }
        assert (Hex : Exact i j k).
        { apply exact_step; [apply Hprev | done]. }
        eapply (IH (done ++ [j])); [done | done | | | exact Hrun].
        -- intros x. destruct (decide (x = j)) as [->|Hne].
           ++ rewrite lookup_insert_eq. rewrite decide_True; [done|].
              split; [|lia]. rewrite elem_of_app, list_elem_of_singleton. tauto.
           ++ rewrite lookup_insert_ne by done. rewrite Hnew.
              destruct (decide (x ∈ done /\ blo <= x < bhi)) as [Hin|Hout].
              ** rewrite decide_True; [done|]. rewrite elem_of_app. tauto.
              ** rewrite decide_False; [done|].
                 rewrite elem_of_app, list_elem_of_singleton. tauto.
        -- destruct best as [[bi bj] bs].
           destruct Hbest as (H0 & Hz & Hp & Hmax).
           assert (Hk : 1 <= k).
           { destruct (Hprev (j - 1)) as (Hp0 & _). subst k. lia. }
           assert (Hrow : forall j' k', Forall (fun y => j' < y) js ->
                    Diag i j' k' -> k' <= Z.max bs k).
           { intros j' k' Hall Hd.
             destruct (Z.lt_trichotomy j' j) as [Hc | [-> | Hc]].
             - pose proof (Hmax i j' k' (Hold j' Hc) Hd). lia.
             - pose proof (exact_le i j k' k Hd Hex). lia.
             - pose proof (Hgap j' k' Hc Hall Hd). lia. }
           unfold difflib.size. simpl. destruct (bs <? k) eqn:Hcmp.
           ++ apply Z.ltb_lt in Hcmp. simpl.
              replace (i - k + 1 + k - 1) with i by lia.
              replace (j - k + 1 + k - 1) with j by lia.
              split; [lia|]. split; [lia|]. split.
              ** intros _. split; [destruct Hex as (_ & ? & _); done|].
                 split; [lia|]. intros i' j' k' Hbefore Hd.
                 assert (k' <= bs); [|lia].
                 apply (Hmax i' j' k'); [|done].
                 destruct Hbefore as [Hlt | [-> Hlt]];
                   [left; done | apply Hold; done].
              ** intros i' j' k' [Hlt | [-> Hall]] Hd.
                 --- pose proof (Hmax i' j' k' (or_introl Hlt) Hd). lia.
                 --- pose proof (Hrow j' k' Hall Hd). lia.
           ++ apply Z.ltb_ge in Hcmp.
              split; [done|]. split; [done|]. split; [done|].
              intros i' j' k' [Hlt | [-> Hall]] Hd.
              ** apply (Hmax i' j' k'); [left; done | done].
              ** pose proof (Hrow j' k' Hall Hd). lia.
Qed.

End FirstLoop.

(** ** [find_longest_match] on a window *)

Section FindLongestMatch.
Variables (a b : list N) (alo ahi blo bhi : Z).
Hypothesis Hwin : window_ok a b alo blo bhi ahi.

Local Abbreviation sm := (difflib.new a b).
Local Abbreviation Cell := (cell a b alo blo bhi).
Local Abbreviation Diag := (diag a b alo blo bhi).
Local Abbreviation BestInv := (best_inv a b alo blo bhi).
Local Abbreviation Block := (block a b alo blo bhi ahi).

Lemma cell_b2j (i : Z) (ai : N) :
  alo <= i -> a !! Z.to_nat i = Some ai ->
  forall j, Cell i j <->
            j ∈ default [] (difflib.b2j sm !! ai) /\ blo <= j < bhi.
Proof.
  intros Hi Hai j. rewrite new_b2j. unfold cell. split.
  - intros (_ & Hw & c & Hc & Hb & Hp). split; [|done].
    assert (c = ai) as -> by congruence. rewrite Hp.
    apply elem_of_positions. split; [|done].
    split; [destruct Hwin; lia|]. apply (lookup_Some_len b j ai); [|done].
    destruct Hwin; lia.
  - intros [Hin Hw]. split; [done|]. split; [done|].
    destruct (popular b ai) eqn:Hp; [inversion Hin|].
    apply elem_of_positions in Hin as [_ Hb]. exists ai. done.
Qed.

Lemma b2j_sorted (c : N) :
  StronglySorted Z.lt (default [] (difflib.b2j sm !! c)).
Proof.
  rewrite new_b2j. destruct (popular b c); [constructor|].
  apply positions_sorted.
Qed.

Lemma best_inv_start : BestInv (alo - 1) [] (alo, blo, 0).
Proof.
  split; [lia|]. split; [done|]. split; [lia|].
  intros i' j' k Hv Hd. destruct (decide (k <= 0)); [done|]. exfalso.
  assert (Hc : Cell (i' - 0) (j' - 0)) by (apply Hd; lia).
  destruct Hc as (Hi & _). destruct Hv as [Hv | [Hv _]]; lia.
Qed.

Lemma best_inv_next_row (i : Z) (js : list Z) (best : difflib.Match) :
  (forall j, Cell i j -> j ∈ js) ->
  BestInv (i - 1) [] best -> BestInv i js best.
Proof.
  intros Hcell. destruct best as [[bi bj] bs].
  intros (H0 & Hz & Hp & Hmax). split; [done|]. split; [done|]. split.
  - intros Hbs. destruct (Hp Hbs) as (Hd & Hle & Hfirst).
    split; [done|]. split; [lia | done].
  - intros i' j' k [Hlt | [-> Hall]] Hd.
    + apply (Hmax i' j' k); [|done].
      destruct (decide (i' < i - 1)); [left; done | right].
      split; [lia | constructor].
    + assert (k <= 0); [|lia]. apply (not_cell_diag a b alo blo bhi i j'); [|done].
      intros Hc. apply Hcell in Hc. rewrite Forall_forall in Hall.
      apply Hall in Hc. lia.
Qed.

Lemma flm_rows_spec (n : nat) :
  forall (i : Z) (j2len : gmap Z Z) (best : difflib.Match),
    i + Z.of_nat n = ahi -> alo <= i ->
    row_inv a b alo blo bhi (i - 1) j2len ->
    BestInv (i - 1) [] best ->
    exists best',
      difflib.flm_rows sm blo bhi (seqZ i (Z.of_nat n)) j2len best = Ok best' /\
      BestInv (ahi - 1) [] best'.
Proof.
  induction n as [|n IH]; intros i j2len best Hn Hi Hrow Hbest.
  - simpl. exists best. split; [done|].
    replace (ahi - 1) with (i - 1) by lia. done.
  - rewrite seqZ_cons by lia.
    replace (Z.pred (Z.of_nat (S n))) with (Z.of_nat n) by lia.
    simpl. rewrite new_a.
    destruct (py_index_in_range a i) as (ai & -> & Hai);
      [destruct Hwin; lia|].
    simpl.
    destruct (difflib.flm_row i blo bhi j2len
                (default [] (difflib.b2j sm !! ai)) ∅ best)
      as [new' best'] eqn:Hrun.
    pose proof (cell_b2j i ai Hi Hai) as Hcell.
    destruct (flm_row_spec a b alo blo bhi i j2len Hrow
                (default [] (difflib.b2j sm !! ai)) [] ∅ best new' best')
      as [Hrow' Hbest']; [apply b2j_sorted | done | | | done | ].
    + intros j. rewrite lookup_empty. rewrite decide_False; [done|].
      intros [Hin _]. inversion Hin.
    + apply best_inv_next_row; [|done]. intros j Hc. apply Hcell in Hc. tauto.
    + apply (IH (Z.succ i)); [lia | lia | |].
      * replace (Z.succ i - 1) with i by lia. done.
      * replace (Z.succ i - 1) with i by lia. done.
Qed.

Lemma first_loop_spec :
  exists best,
    difflib.flm_rows sm blo bhi (range alo ahi) ∅ (alo, blo, 0) = Ok best /\
    BestInv (ahi - 1) [] best.
Proof.
  unfold range. destruct Hwin as ([? ?] & ? & [? ?] & ?).
  replace (ahi - alo) with (Z.of_nat (Z.to_nat (ahi - alo))) by lia.
  apply flm_rows_spec; [lia | lia | | apply best_inv_start].
  apply row_inv_start. done.
Qed.

Lemma best_inv_block (best : difflib.Match) :
  BestInv (ahi - 1) [] best -> Block best.
Proof.
  destruct best as [[bi bj] bs]. intros (H0 & Hz & Hp & _).
  destruct Hwin as ([? ?] & ? & [? ?] & ?).
  destruct (decide (bs = 0)) as [->|Hne].
  - destruct (Hz eq_refl) as [-> ->].
    split; [lia|]. split; [lia|]. split; [lia|]. split; [lia|].
    split; [lia|]. intros d Hd. lia.
  - destruct Hp as (Hd & Hle & _); [lia|].
    assert (Hlast : Cell (bi + bs - 1 - 0) (bj + bs - 1 - 0)) by (apply Hd; lia).
    assert (Hfirst : Cell (bi + bs - 1 - (bs - 1)) (bj + bs - 1 - (bs - 1)))
      by (apply Hd; lia).
    destruct Hlast as (_ & Hl & _). destruct Hfirst as (Hf1 & Hf2 & _).
    split; [lia|]. split; [lia|]. split; [lia|]. split; [lia|].
    split; [lia|]. intros d Hdk.
    destruct (Hd (bs - 1 - d)) as (_ & _ & c & Hca & Hcb & _); [lia|].
    exists c.
    replace (bi + d) with (bi + bs - 1 - (bs - 1 - d)) by lia.
    replace (bj + d) with (bj + bs - 1 - (bs - 1 - d)) by lia. done.
Qed.


(** The extension loops. *)

Lemma ext_left_spec (junk : bool) (m : difflib.Match) :
  Block m ->
  exists m',
    while (difflib.ext_fuel alo ahi) (difflib.ext_left_cond sm alo blo junk)
          difflib.ext_left_body m = Ok m' /\
    (Block m' /\ difflib.size m <= difflib.size m' /\ offset m' = offset m) /\
    difflib.ext_left_cond sm alo blo junk m' = Ok false.
Proof.
  intros Hm. destruct Hwin as ([? ?] & ? & [? ?] & ?).
  apply (while_inv
    (fun m' => Block m' /\ difflib.size m <= difflib.size m' /\
               offset m' = offset m)
    (fun m' => Z.to_nat (m'.1.1 - alo))).
  - intros [[bi bj] bs] (Hb & Hs & Ho).
    destruct Hb as (Hk & Hi1 & Hi2 & Hj1 & Hj2 & Heq).
    unfold difflib.ext_left_cond.
    destruct ((alo <? bi) && (blo <? bj)) eqn:Hc; simpl; [|by exists false].
    apply andb_true_iff in Hc as [Hc1 Hc2].
    apply Z.ltb_lt in Hc1. apply Z.ltb_lt in Hc2.
    rewrite new_a, new_b, new_bjunk.
    destruct (py_index_in_range b (bj - 1)) as (x & -> & Hx); [lia|].
    simpl. rewrite bool_decide_eq_false_2 by set_solver.
    destruct junk; simpl; [by exists false|].
    destruct (py_index_in_range a (bi - 1)) as (y & -> & Hy); [lia|].
    simpl. eexists. split; [reflexivity|]. intros Hyx.
    apply N.eqb_eq in Hyx. subst y.
    eexists. split; [reflexivity|]. split.
    + split.
      * split; [lia|]. split; [lia|]. split; [lia|]. split; [lia|].
        split; [lia|]. intros d Hd. destruct (decide (d = 0)) as [->|Hne].
        -- exists x. rewrite !Z.add_0_r. done.
        -- destruct (Heq (d - 1)) as (c & Hca & Hcb); [lia|]. exists c.
           replace (bi - 1 + d) with (bi + (d - 1)) by lia.
           replace (bj - 1 + d) with (bj + (d - 1)) by lia. done.
      * unfold difflib.size, offset in *. simpl in *. lia.
    + simpl. lia.
  - unfold offset. done.
  - destruct m as [[bi bj] bs]. destruct Hm as (? & ? & ? & _).
    unfold difflib.ext_fuel. simpl. lia.
Qed.

Lemma ext_right_spec (junk : bool) (m : difflib.Match) :
  Block m ->
  exists m',
    while (difflib.ext_fuel alo ahi) (difflib.ext_right_cond sm ahi bhi junk)
          difflib.ext_right_body m = Ok m' /\
    (Block m' /\ difflib.size m <= difflib.size m' /\
     m'.1 = m.1) /\
    difflib.ext_right_cond sm ahi bhi junk m' = Ok false.
Proof.
  intros Hm. destruct Hwin as ([? ?] & ? & [? ?] & ?).
  apply (while_inv
    (fun m' => Block m' /\ difflib.size m <= difflib.size m' /\ m'.1 = m.1)
    (fun m' => Z.to_nat (ahi - (m'.1.1 + m'.2)))).
  - intros [[bi bj] bs] (Hb & Hs & Ho).
    destruct Hb as (Hk & Hi1 & Hi2 & Hj1 & Hj2 & Heq).
    unfold difflib.ext_right_cond.
    destruct ((bi + bs <? ahi) && (bj + bs <? bhi)) eqn:Hc; simpl; [|by exists false].
    apply andb_true_iff in Hc as [Hc1 Hc2].
    apply Z.ltb_lt in Hc1. apply Z.ltb_lt in Hc2.
    rewrite new_a, new_b, new_bjunk.
    destruct (py_index_in_range b (bj + bs)) as (x & -> & Hx); [lia|].
    simpl. rewrite bool_decide_eq_false_2 by set_solver.
    destruct junk; simpl; [by exists false|].
    destruct (py_index_in_range a (bi + bs)) as (y & -> & Hy); [lia|].
    simpl. eexists. split; [reflexivity|]. intros Hyx.
    apply N.eqb_eq in Hyx. subst y.
    eexists. split; [reflexivity|]. split.
    + split.
      * split; [lia|]. split; [lia|]. split; [lia|]. split; [lia|].
        split; [lia|]. intros d Hd. destruct (decide (d = bs)) as [->|Hne].
        -- exists x. done.
        -- apply Heq. lia.
      * unfold difflib.size in *. simpl in *. split; [lia | done].
    + simpl. lia.
  - done.
  - destruct m as [[bi bj] bs]. destruct Hm as (? & ? & ? & _).
    unfold difflib.ext_fuel. simpl. lia.
Qed.

(** No element is junk, so the two loops over junk do nothing. *)
Lemma ext_left_junk (m : difflib.Match) :
  Block m ->
  while (difflib.ext_fuel alo ahi) (difflib.ext_left_cond sm alo blo true)
        difflib.ext_left_body m = Ok m.
Proof.
  intros Hm. apply while_false. destruct Hwin as ([? ?] & ? & [? ?] & ?).
  destruct m as [[bi bj] bs]. destruct Hm as (Hk & Hi1 & Hi2 & Hj1 & Hj2 & _).
  unfold difflib.ext_left_cond.
  destruct ((alo <? bi) && (blo <? bj)) eqn:Hc; simpl; [|done].
  apply andb_true_iff in Hc as [Hc1 Hc2].
  apply Z.ltb_lt in Hc1. apply Z.ltb_lt in Hc2.
  rewrite new_b, new_bjunk.
  destruct (py_index_in_range b (bj - 1)) as (x & -> & Hx); [lia|].
  simpl. rewrite bool_decide_eq_false_2 by set_solver. done.
Qed.

Lemma ext_right_junk (m : difflib.Match) :
  Block m ->
  while (difflib.ext_fuel alo ahi) (difflib.ext_right_cond sm ahi bhi true)
        difflib.ext_right_body m = Ok m.
Proof.
  intros Hm. apply while_false. destruct Hwin as ([? ?] & ? & [? ?] & ?).
  destruct m as [[bi bj] bs]. destruct Hm as (Hk & Hi1 & Hi2 & Hj1 & Hj2 & _).
  unfold difflib.ext_right_cond.
  destruct ((bi + bs <? ahi) && (bj + bs <? bhi)) eqn:Hc; simpl; [|done].
  apply andb_true_iff in Hc as [Hc1 Hc2].
  apply Z.ltb_lt in Hc1. apply Z.ltb_lt in Hc2.
  rewrite new_b, new_bjunk.
  destruct (py_index_in_range b (bj + bs)) as (x & -> & Hx); [lia|].
  simpl. rewrite bool_decide_eq_false_2 by set_solver. done.
Qed.

(** What [find_longest_match] returns on a window inside the sequences. *)
Lemma find_longest_match_spec :
  exists best m,
    difflib.find_longest_match sm alo ahi blo bhi = Ok m /\
    BestInv (ahi - 1) [] best /\
    Block m /\ difflib.size best <= difflib.size m /\
    offset m = offset best /\
    difflib.ext_left_cond sm alo blo false m = Ok false /\
    difflib.ext_right_cond sm ahi bhi false m = Ok false.
Proof.
  destruct first_loop_spec as (best & Hrows & Hbest).
  pose proof (best_inv_block best Hbest) as Hblk.
  destruct (ext_left_spec false best Hblk) as (m1 & Hw1 & (Hb1 & Hs1 & Ho1) & Hc1).
  destruct (ext_right_spec false m1 Hb1) as (m2 & Hw2 & (Hb2 & Hs2 & He2) & Hc2).
  exists best, m2. unfold difflib.find_longest_match.
  rewrite Hrows. cbn [rbind]. cbv zeta. rewrite Hw1. cbn [rbind].
  rewrite Hw2. cbn [rbind]. rewrite ext_left_junk by done. cbn [rbind].
  split; [apply ext_right_junk; done|]. split; [done|]. split; [done|].
  split; [lia|]. split.
  - unfold offset in *. rewrite He2. done.
  - split; [|done].
    destruct m2 as [[i2 j2] k2], m1 as [[i1 j1] k1]. simpl in He2.
    injection He2 as -> ->. exact Hc1.
Qed.

End FindLongestMatch.

(** ** Totality of the matcher *)

Lemma find_longest_match_ok (a b : list N) (alo ahi blo bhi : Z) :
  window_ok a b alo blo bhi ahi ->
  exists i j k,
    difflib.find_longest_match (difflib.new a b) alo ahi blo bhi
      = Ok (i, j, k) /\
    0 <= k /\ alo <= i /\ i + k <= ahi /\ blo <= j /\ j + k <= bhi.
Proof.
  intros Hwin.
  destruct (find_longest_match_spec a b alo ahi blo bhi Hwin)
    as (best & [[i j] k] & Hf & _ & Hblk & _).
  exists i, j, k. split; [done|].
  destruct Hblk as (? & ? & ? & ? & ? & _). lia.
Qed.

Lemma queue_weight_pos (a b : list N) (q : list difflib.Region) :
  Forall (region_ok a b) q -> 0 <= queue_weight q.
Proof.
  induction 1 as [|[[[alo ahi] blo] bhi] q Hr _ IH]; simpl; [lia|].
  destruct Hr as ([? ?] & _). lia.
Qed.

Lemma gmb_loop_ok (a b : list N) :
  exists st,
    while (difflib.gmb_fuel (len a)) difflib.gmb_cond
          (difflib.gmb_body (difflib.new a b)) ([(0, len a, 0, len b)], [])
      = Ok st.
Proof.
  pose proof (len_nonneg a) as Ha. pose proof (len_nonneg b) as Hb.
  destruct (while_inv
    (fun st : list difflib.Region * list difflib.Match =>
       Forall (region_ok a b) st.1)
    (fun st => Z.to_nat (queue_weight st.1))
    difflib.gmb_cond (difflib.gmb_body (difflib.new a b)))
    with (fuel := difflib.gmb_fuel (len a))
         (s := ([(0, len a, 0, len b)], @nil difflib.Match))
    as (st & Hst & _).
  - intros [q mb] Hq. simpl in Hq. unfold difflib.gmb_cond. simpl.
    destruct q as [|[[[alo ahi] blo] bhi] q]; [by exists false|].
    exists true. split; [done|]. intros _.
    apply Forall_cons in Hq as [Hr Hq].
    pose proof (queue_weight_pos a b q Hq) as Hw.
    destruct (find_longest_match_ok a b alo ahi blo bhi Hr)
      as (i & j & k & Hf & Hk & Hi1 & Hi2 & Hj1 & Hj2).
    unfold difflib.gmb_body. rewrite Hf. cbn [rbind].
    destruct Hr as ([? ?] & ? & [? ?] & ?).
    destruct (k =? 0) eqn:Hk0.
    + eexists. split; [reflexivity|]. simpl. split; [done | lia].
    + apply Z.eqb_neq in Hk0. eexists. split; [reflexivity|].
      cbn [fst].
      destruct ((alo <? i) && (blo <? j)), ((i + k <? ahi) && (j + k <? bhi));
        (split; [repeat (apply Forall_cons; split); try done;
                 unfold region_ok, window_ok; lia
                | simpl; lia]).
  - simpl. repeat constructor; lia.
  - unfold difflib.gmb_fuel. simpl. lia.
  - exists st. done.
Qed.

Lemma get_matching_blocks_ok (a b : list N) :
  exists blocks, difflib.get_matching_blocks (difflib.new a b) = Ok blocks.
Proof.
  unfold difflib.get_matching_blocks. rewrite new_a, new_b.
  destruct (gmb_loop_ok a b) as (st & ->). cbn [rbind].
  destruct (fold_left difflib.collapse_step (difflib.sort st.2) (0, 0, 0, []))
    as [[[i1 j1] k1] non_adjacent].
  eexists. reflexivity.
Qed.

Lemma calculate_ratio_ok (matches length : Z) :
  exists q, difflib._calculate_ratio matches length = Ok q.
Proof.
  unfold difflib._calculate_ratio, py_truediv.
  destruct (length =? 0); eexists; reflexivity.
Qed.

Lemma ratio_ok (a b : list N) :
  exists q, difflib.ratio (difflib.new a b) = Ok q.
Proof.
  unfold difflib.ratio.
  destruct (get_matching_blocks_ok a b) as (blocks & ->). cbn [rbind].
  apply calculate_ratio_ok.
Qed.

(** ** A sequence against itself *)

Lemma best_inv_diagonal (a : list N) (n : Z) (best : difflib.Match) :
  best_inv a a 0 0 n (n - 1) [] best -> best.1.1 = best.1.2.
Proof.
  destruct best as [[bi bj] bs]. intros (H0 & Hz & Hp & _). simpl.
  destruct (decide (bs = 0)) as [Hbs|Hbs]; [destruct (Hz Hbs); lia|].
  destruct Hp as (Hd & Hle & Hfirst); [lia|].
  destruct (Z.lt_trichotomy (bi + bs - 1) (bj + bs - 1)) as [Hc | [Hc | Hc]];
    [|lia|]; exfalso.
  - (* the block ends right of the diagonal *)
    assert (bs < bs); [|lia].
    apply (Hfirst (bi + bs - 1) (bi + bs - 1) bs); [right; lia|].
    intros d Hdk. destruct (Hd d Hdk) as (Hi & Hj & c & Hca & Hcb & Hpop).
    split; [done|]. split; [lia|]. exists c. done.
  - (* the block ends below the diagonal *)
    assert (bs < bs); [|lia].
    apply (Hfirst (bj + bs - 1) (bj + bs - 1) bs); [left; lia|].
    intros d Hdk. destruct (Hd d Hdk) as (Hi & Hj & c & Hca & Hcb & Hpop).
    split; [lia|]. split; [done|]. exists c. done.
Qed.

Lemma find_longest_match_self (a : list N) :
  difflib.find_longest_match (difflib.new a a) 0 (len a) 0 (len a)
  = Ok (0, 0, len a).
Proof.
  pose proof (len_nonneg a) as Ha.
  assert (Hwin : window_ok a a 0 0 (len a) (len a))
    by (unfold window_ok; lia).
  destruct (find_longest_match_spec a a 0 (len a) 0 (len a) Hwin)
    as (best & [[i j] k] & Hf & Hbest & Hblk & _ & Hoff & Hl & Hr).
  rewrite Hf. apply best_inv_diagonal in Hbest.
  unfold offset in Hoff. simpl in Hoff.
  assert (i = j) as <- by lia.
  destruct Hblk as (Hk & Hi1 & Hi2 & _).
  assert (Hi0 : i = 0).
  { destruct (decide (i = 0)); [done|]. exfalso.
    unfold difflib.ext_left_cond in Hl.
    replace ((0 <? i) && (0 <? i)) with true in Hl
      by (symmetry; apply andb_true_iff; lia).
    simpl in Hl. rewrite new_a, new_b, new_bjunk in Hl.
    destruct (py_index_in_range a (i - 1)) as (x & Hx & _); [lia|].
    rewrite Hx in Hl. simpl in Hl.
    rewrite bool_decide_eq_false_2 in Hl by set_solver. simpl in Hl.
    rewrite N.eqb_refl in Hl. discriminate. }
  subst i.
  assert (Hkn : k = len a).
  { destruct (decide (k = len a)); [done|]. exfalso.
    unfold difflib.ext_right_cond in Hr.
    replace ((0 + k <? len a) && (0 + k <? len a)) with true in Hr
      by (symmetry; apply andb_true_iff; lia).
    simpl in Hr. rewrite new_a, new_b, new_bjunk in Hr.
    destruct (py_index_in_range a (0 + k)) as (x & Hx & _); [lia|].
    rewrite Hx in Hr. simpl in Hr.
    rewrite bool_decide_eq_false_2 in Hr by set_solver. simpl in Hr.
    rewrite N.eqb_refl in Hr. discriminate. }
  subst k. reflexivity.
Qed.

Lemma gmb_fuel_unfold (n : Z) :
  0 <= n -> difflib.gmb_fuel n = S (S (Z.to_nat (2 * n))).
Proof. intros Hn. unfold difflib.gmb_fuel. lia. Qed.

Lemma Qred_self (n : Z) : 0 < n -> Qred (Qmake (n * 1) (Z.to_pos n)) = 1%Q.
Proof.
  intros Hn. change 1%Q with (Qred 1). apply Qred_complete.
  unfold Qeq. simpl. rewrite Z2Pos.id by lia. lia.
Qed.

Lemma ratio_self (a : list N) : difflib.ratio (difflib.new a a) = Ok 1%Q.
Proof.
  pose proof (len_nonneg a) as Ha.
  unfold difflib.ratio, difflib.get_matching_blocks. rewrite new_a, new_b.
  rewrite gmb_fuel_unfold by done.
  cbn [while difflib.gmb_cond rbind fst]. unfold difflib.gmb_body.
  rewrite find_longest_match_self. cbn [rbind].
  destruct (len a =? 0) eqn:Hz.
  - apply Z.eqb_eq in Hz. cbn [while difflib.gmb_cond rbind fst snd].
    rewrite Hz. reflexivity.
  - pose proof Hz as Hne. apply Z.eqb_neq in Hne.
    rewrite Z.ltb_irrefl. rewrite Z.add_0_l, Z.ltb_irrefl.
    cbn [andb app]. destruct (Z.to_nat (2 * len a)) as [|f] eqn:Hf; [lia|].
    cbn [while difflib.gmb_cond rbind fst snd].
    unfold difflib.sort, difflib.collapse_step. simpl.
    rewrite Z.add_0_l, Hz. simpl. unfold difflib.sum_sizes, difflib.size.
    simpl. unfold difflib._calculate_ratio.
    replace (0 + len a + 0) with (len a) by lia.
    replace (len a + len a) with (2 * len a) by lia.
    assert (Hd : (2 * len a =? 0) = false) by (apply Z.eqb_neq; lia).
    unfold py_truediv. rewrite Hd.
    replace (Z.sgn (2 * len a)) with 1 by lia.
    replace (Z.abs (2 * len a)) with (2 * len a) by lia.
    f_equal. apply Qred_self. lia.
Qed.

(** ** The empty string *)

Lemma find_longest_match_empty (b : list N) :
  difflib.find_longest_match (difflib.new [] b) 0 0 0 (len b) = Ok (0, 0, 0).
Proof. reflexivity. Qed.

Lemma gmb_loop_empty (b : list N) :
  while (difflib.gmb_fuel 0) difflib.gmb_cond
        (difflib.gmb_body (difflib.new [] b)) ([(0, 0, 0, len b)], [])
  = Ok ([], []).
Proof. reflexivity. Qed.

Lemma ratio_empty_l (b : list N) :
  b <> [] -> difflib.ratio (difflib.new [] b) = Ok 0%Q.
Proof.
  intros Hb. unfold difflib.ratio, difflib.get_matching_blocks.
  rewrite new_a, new_b. change (len (@nil N)) with 0.
  rewrite gmb_loop_empty. cbn [rbind]. simpl.
  unfold difflib._calculate_ratio, py_truediv.
  assert (Hl : 0 < len b).
  { destruct b; [done|]. unfold len. simpl. lia. }
  rewrite Z.add_0_l.
  replace (len b =? 0) with false by (symmetry; apply Z.eqb_neq; lia).
  reflexivity.
Qed.

Lemma ratio_empty_empty : difflib.ratio (difflib.new [] []) = Ok 1%Q.
Proof. reflexivity. Qed.

(** ** Substrings *)

Lemma startswith_spec (x s : list N) :
  startswith s x = true <-> exists post, s = x ++ post.
Proof.
  revert s. induction x as [|c x IH]; intros s.
  - destruct s; simpl; split; eauto.
  - destruct s as [|d s]; simpl.
    + split; [discriminate|]. intros [post Hp]. discriminate.
    + rewrite andb_true_iff, N.eqb_eq, IH. split.
      * intros [-> [post ->]]. eauto.
      * intros [post Hp]. injection Hp as -> ->. eauto.
Qed.

Lemma contains_unfold (s x : list N) :
  contains s x =
  startswith s x || match s with [] => false | _ :: s' => contains s' x end.
Proof. destruct s; reflexivity. Qed.

Lemma contains_spec (s x : list N) :
  contains s x = true <-> is_substring x s.
Proof.
  unfold is_substring. split.
  - induction s as [|c s IH]; rewrite contains_unfold, orb_true_iff.
    + intros [Hs | ?]; [|discriminate].
      apply startswith_spec in Hs as [post ->]. exists [], post. done.
    + intros [Hs | Hc].
      * apply startswith_spec in Hs as [post ->]. exists [], post. done.
      * destruct (IH Hc) as (pre & post & ->). exists (c :: pre), post. done.
  - intros (pre & post & ->). induction pre as [|c pre IH].
    + rewrite contains_unfold, orb_true_iff. left.
      apply startswith_spec. eauto.
    + simpl app. rewrite contains_unfold, orb_true_iff. right. done.
Qed.



(** ** Without purged elements the match is the longest common substring *)




(** ** The model on the examples of the difflib documentation *)

Example split_ex :
  split 10%N (of_string "ab") = [of_string "ab"] /\
  split 10%N [97; 10; 98; 10]%N = [[97]; [98]; []]%N.
Proof. split; reflexivity. Qed.

Example py_index_ex :
  py_index [1; 2; 3] (-1) = Ok 3 /\ py_index [1; 2; 3] 3 = Raise IndexError.
Proof. split; reflexivity. Qed.

Example ratio_abcd_bcde :
  difflib.ratio (difflib.new (of_string "abcd") (of_string "bcde"))
  = Ok (3 # 4)%Q.
Proof. vm_compute. reflexivity. Qed.

Example ratio_private_thread :
  difflib.ratio
    (difflib.new (of_string "private Thread currentThread;")
                 (of_string "private volatile Thread currentThread;"))
  = Ok (58 # 67)%Q.
Proof. vm_compute. reflexivity. Qed.

Example flm_abxcd :
  difflib.find_longest_match
    (difflib.new (of_string " abcd") (of_string "abcd abcd")) 0 5 0 9
  = Ok (0, 4, 5).
Proof. vm_compute. reflexivity. Qed.

(** ** TextSimilarity *)

Lemma similarity_ok (a b : list N) : exists q, _similarity a b = Ok q.
Proof. apply ratio_ok. Qed.

Lemma ratio_empty_r (a : list N) :
  a <> [] -> difflib.ratio (difflib.new a []) = Ok 0%Q.
Proof.
  intros Hne. pose proof (len_nonneg a) as Ha.
  assert (Hwin : window_ok a [] 0 0 0 (len a))
    by (unfold window_ok; change (len (@nil N)) with 0; lia).
  destruct (find_longest_match_ok a [] 0 (len a) 0 0 Hwin)
    as (i & j & k & Hf & Hk & _ & _ & Hj1 & Hj2).
  assert (k = 0) as -> by lia.
  unfold difflib.ratio, difflib.get_matching_blocks. rewrite new_a, new_b.
  change (len (@nil N)) with 0 in *.
  rewrite gmb_fuel_unfold by done.
  cbn [while difflib.gmb_cond rbind fst]. unfold difflib.gmb_body.
  rewrite Hf. cbn [rbind Z.eqb while difflib.gmb_cond fst snd].
  simpl. unfold difflib._calculate_ratio, py_truediv.
  assert (Hl : 0 < len a).
  { destruct a; [done|]. unfold len. simpl. lia. }
  rewrite Z.add_0_r.
  replace (len a =? 0) with false by (symmetry; apply Z.eqb_neq; lia).
  reflexivity.
Qed.

(** C4 (as amended).  The similarity of every string with itself is 1.0,
    the empty string included, and the similarity of the empty string with
    a non-empty string is 0.0, whichever comes first. *)
Theorem similarity_self_and_empty (a b : list N) :
  _similarity a a = Ok 1%Q /\
  (b <> [] -> _similarity [] b = Ok 0%Q /\ _similarity b [] = Ok 0%Q).
Proof.
  unfold _similarity. split; [apply ratio_self|].
  intros Hb. split; [apply ratio_empty_l | apply ratio_empty_r]; done.
Qed.

Lemma similarity_self_and_empty_witness :
  _similarity (of_string "login") (of_string "login") = Ok 1%Q /\
  _similarity [] (of_string "login") = Ok 0%Q /\
  _similarity (of_string "login") [] = Ok 0%Q.
Proof.
  destruct (similarity_self_and_empty (of_string "login") (of_string "login"))
    as [Hself Hempty].
  split; [exact Hself|]. apply Hempty. discriminate.
Defined.

(** C4 (as stated) fails on two empty strings: their similarity is 1.0. *)
Lemma similarity_empty_empty :
  _similarity [] [] = Ok 1%Q /\ _similarity [] [] <> Ok 0%Q.
Proof. split; [reflexivity | discriminate]. Qed.

(** ** Totality of the comparison logic *)

Section Totality.
Context `{Unicode}.

Lemma line_is_covered_ok (line coverage_text : list N) (threshold : Q) :
  exists c, _line_is_covered line coverage_text threshold = Ok c.
Proof.
  unfold _line_is_covered.
  destruct (contains coverage_text (lower line)); [by exists true|].
  pose proof (len_nonneg (lower line)) as Hl.
  pose proof (len_nonneg coverage_text) as Hc.
  pose proof (len_nonneg line) as Hline.
  destruct (find_longest_match_ok (lower line) coverage_text
              0 (len (lower line)) 0 (len coverage_text))
    as (i & j & k & -> & _); [unfold window_ok; lia|].
  cbn [rbind]. destruct coverage_text as [|c cov]; simpl; [eauto|].
  unfold py_truediv.
  replace (len line + len (c :: cov) =? 0) with false; [simpl; eauto|].
  symmetry. apply Z.eqb_neq. unfold len in *. simpl in *. lia.
Qed.

Lemma uncovered_lines_ok (ac_lines : list (list N)) (coverage : list N) :
  forall uncovered,
    exists r, uncovered_lines ac_lines coverage uncovered = Ok r.
Proof.
  induction ac_lines as [|line ac_lines IH]; intros uncovered; simpl;
    [eauto|].
  destruct (line_is_covered_ok line coverage coverage_threshold) as [c ->].
  cbn [rbind]. destruct c; simpl; apply IH.
Qed.

Lemma compute_delta_ok (self : DeltaAnalyzer) :
  exists delta, compute_delta self = Ok delta.
Proof.
  unfold compute_delta.
  destruct (negb (nonempty (_extract_criteria_lines _))); [eauto|].
  destruct (negb (nonempty (_existing self))); [eauto|].
  destruct (uncovered_lines_ok
              (_extract_criteria_lines (us_acceptance_criteria (_story self)))
              (_existing_coverage_text (_existing self)) []) as [r ->].
  cbn [rbind]. destruct (negb (nonempty r)); eauto.
Qed.

Lemma check_loop_ok (new_sig : list N) (sigs : list (Z * list N)) :
  forall best_score best_id,
    exists r, check_loop new_sig sigs best_score best_id = Ok r.
Proof.
  induction sigs as [|[existing_id existing_sig] sigs IH];
    intros best_score best_id; simpl; [eauto|].
  destruct (similarity_ok new_sig existing_sig) as [q ->]. cbn [rbind].
  destruct (Qgtb q best_score); apply IH.
Qed.

Lemma check_ok (self : DedupEngine) (tc : GeneratedTestCase) :
  exists r, check self tc = Ok r.
Proof.
  unfold check.
  destruct (check_loop_ok
              (_tc_signature (gtc_title tc) (gtc_given tc) (gtc_when tc)
                             (gtc_then tc))
              (_existing_sigs self) 0%Q 0) as [[best_score best_id] ->].
  cbn [rbind]. destruct (Qgeb best_score (_threshold self)); eauto.
Qed.

Lemma check_batch_ok (self : DedupEngine) (cases : list GeneratedTestCase) :
  exists rs, check_batch self cases = Ok rs /\ rs.*1 = cases.
Proof.
  induction cases as [|tc cases (rs & IH & Hfst)]; simpl; [by exists []|].
  destruct (check_ok self tc) as [r ->]. rewrite IH. cbn [rbind].
  eexists. split; [reflexivity|]. rewrite fmap_cons. simpl. by rewrite Hfst.
Qed.

Lemma similarity_empty (a : list N) :
  a <> [] -> _similarity a [] = Ok 0%Q /\ _similarity [] a = Ok 0%Q.
Proof.
  intros Ha. unfold _similarity.
  split; [apply ratio_empty_r | apply ratio_empty_l]; done.
Qed.

Lemma line_not_covered_by_empty (line : list N) (threshold : Q) :
  lower line <> [] -> (0 < threshold)%Q ->
  _line_is_covered line [] threshold = Ok false.
Proof.
  intros Hne Hthr. unfold _line_is_covered.
  assert (Hc : contains [] (lower line) = false).
  { destruct (lower line); [done | reflexivity]. }
  rewrite Hc. pose proof (len_nonneg (lower line)) as Hl.
  destruct (find_longest_match_ok (lower line) [] 0 (len (lower line)) 0
              (len (@nil N)))
    as (i & j & k & -> & _);
    [unfold window_ok; change (len (@nil N)) with 0; lia|].
  cbn [rbind nonempty]. f_equal. unfold Qgeb.
  destruct (Qle_bool threshold 0) eqn:Hle; [|reflexivity].
  apply Qle_bool_iff in Hle. exfalso. exact (Qlt_not_le _ _ Hthr Hle).
Qed.

Lemma compute_delta_no_text (self : DeltaAnalyzer) :
  us_acceptance_criteria (_story self) = [] -> compute_delta self = Ok [].
Proof. intros Hac. unfold compute_delta. rewrite Hac. reflexivity. Qed.

Lemma check_nothing_to_match (self : DedupEngine) (tc : GeneratedTestCase) :
  _existing_sigs self = [] ->
  exists r, check self tc = Ok r /\ score r = 0%Q /\ matched_id r = 0.
Proof.
  intros Hnil. unfold check. rewrite Hnil. simpl.
  destruct (Qgeb 0 (_threshold self)); eexists; split; reflexivity || done.
Qed.

(** C9 (as amended).  The similarity, the coverage delta and the
    duplicate check return a result on every input: no index leaves its
    sequence, no division is by zero, and every loop ends within its
    bound.  On empty inputs the results are the neutral ones, two empty
    strings apart: an empty string has the similarity 0.0 with a
    non-empty one, an empty corpus covers no non-empty line, an empty
    criteria text gives the empty delta, and without existing artifacts
    the duplicate check reports the score 0.0 and the identifier 0. *)
Theorem comparison_logic_total :
  (forall a b : list N, exists q, _similarity a b = Ok q) /\
  (forall (line corpus : list N) (threshold : Q),
     exists c, _line_is_covered line corpus threshold = Ok c) /\
  (forall self : DeltaAnalyzer, exists delta, compute_delta self = Ok delta) /\
  (forall (self : DedupEngine) (tc : GeneratedTestCase),
     exists r, check self tc = Ok r) /\
  (forall (self : DedupEngine) (cases : list GeneratedTestCase),
     exists rs, check_batch self cases = Ok rs /\ rs.*1 = cases) /\
  (forall a : list N,
     a <> [] -> _similarity a [] = Ok 0%Q /\ _similarity [] a = Ok 0%Q) /\
  (forall (line : list N) (threshold : Q),
     lower line <> [] -> (0 < threshold)%Q ->
     _line_is_covered line [] threshold = Ok false) /\
  (forall self : DeltaAnalyzer,
     us_acceptance_criteria (_story self) = [] ->
     compute_delta self = Ok []) /\
  (forall (self : DedupEngine) (tc : GeneratedTestCase),
     _existing_sigs self = [] ->
     exists r, check self tc = Ok r /\ score r = 0%Q /\ matched_id r = 0).
Proof.
  split; [apply similarity_ok|]. split; [apply line_is_covered_ok|].
  split; [apply compute_delta_ok|]. split; [apply check_ok|].
  split; [apply check_batch_ok|]. split; [apply similarity_empty|].
  split; [apply line_not_covered_by_empty|].
  split; [apply compute_delta_no_text | apply check_nothing_to_match].
Qed.

End Totality.

(** C9 (as stated) fails on two empty strings: their similarity is 1.0,
    not 0.0, so that a candidate without text is a duplicate, with the
    score 1.0, of an artifact without text; and the empty line is
    covered by the empty corpus. *)
Lemma neutral_results_counterexample :
  _similarity [] [] = Ok 1%Q /\
  check (H := ascii_tables)
    (DedupEngine_init (H := ascii_tables) default_settings [blank_existing]
       None) blank_case
  = Ok {| is_duplicate := true; matched_id := 7; score := 1%Q |} /\
  _line_is_covered (H := ascii_tables) [] [] coverage_threshold = Ok true.
Proof. repeat split; vm_compute; reflexivity. Qed.


(** ** CoverageDelta *)

Lemma py_truediv_pos (x y : Z) :
  0 < y ->
  exists q, py_truediv x y = Ok q /\ (q == inject_Z x / inject_Z y)%Q.
Proof.
  intros Hy. unfold py_truediv.
  replace (y =? 0) with false by (symmetry; apply Z.eqb_neq; lia).
  eexists. split; [reflexivity|]. rewrite Qred_correct.
  replace (Z.sgn y) with 1 by lia. replace (Z.abs y) with y by lia.
  rewrite Z.mul_1_r. destruct y as [|p|p]; try lia. simpl.
  apply Qmake_Qdiv.
Qed.




Lemma nonempty_true {A : Type} (l : list A) : l <> [] -> nonempty l = true.
Proof. destruct l; done. Qed.

Section CoverageDelta.
Context `{Unicode}.




End CoverageDelta.



(** At 200 characters and beyond the claim holds as long as nothing is
    purged: the line is covered by a corpus of 200 different characters
    with which it shares 150 of its 151 characters. *)
Example distinct_corpus_covered :
  contains distinct_corpus (lower (Unicode := ascii_tables) distinct_line)
  = false /\
  _line_is_covered (H := ascii_tables) distinct_line distinct_corpus
    coverage_threshold = Ok true.
Proof. split; vm_compute; reflexivity. Qed.

(** ** DuplicateMatcher *)

Lemma Qgtb_true (x y : Q) : Qgtb x y = true <-> (y < x)%Q.
Proof.
  unfold Qgtb. rewrite negb_true_iff. split.
  - intros Hle. apply Qnot_le_lt. intros Hxy.
    apply Qle_bool_iff in Hxy. congruence.
  - intros Hlt. destruct (Qle_bool x y) eqn:Hle; [|done].
    apply Qle_bool_iff in Hle. exfalso. apply (Qlt_not_le _ _ Hlt Hle).
Qed.

Lemma Qgtb_false (x y : Q) : Qgtb x y = false <-> (x <= y)%Q.
Proof.
  unfold Qgtb. rewrite negb_false_iff. apply Qle_bool_iff.
Qed.

Section DuplicateMatcher.
Context `{Unicode}.

Lemma check_loop_spec (new_sig : list N) (sigs : list (Z * list N)) :
  forall (best_score : Q) (best_id : Z),
    exists scored bs bi,
      scores_of new_sig sigs scored /\
      check_loop new_sig sigs best_score best_id = Ok (bs, bi) /\
      ((bs = best_score /\ bi = best_id /\
        forall p, p ∈ scored -> (p.2 <= best_score)%Q) \/
       (exists pre id post,
          scored = pre ++ (id, bs) :: post /\ bi = id /\
          (best_score < bs)%Q /\
          (forall p, p ∈ pre -> (p.2 < bs)%Q) /\
          (forall p, p ∈ post -> (p.2 <= bs)%Q))).
Proof.
  induction sigs as [|[eid esig] sigs IH]; intros best_score best_id.
  - exists [], best_score, best_id. split; [constructor|].
    split; [reflexivity|]. left. split; [done|]. split; [done|].
    intros p Hp. inversion Hp.
  - simpl. destruct (similarity_ok new_sig esig) as [q Hq]. rewrite Hq.
    cbn [rbind]. destruct (Qgtb q best_score) eqn:Hcmp.
    + apply Qgtb_true in Hcmp.
      destruct (IH q eid) as (scored & bs & bi & Hsc & -> & Hres).
      exists ((eid, q) :: scored), bs, bi.
      split; [constructor; done|]. split; [reflexivity|]. right.
      destruct Hres as [(-> & -> & Hall) |
                        (pre & id & post & -> & -> & Hlt & Hpre & Hpost)].
      * exists [], eid, scored. split; [done|]. split; [done|].
        split; [done|]. split; [|done]. intros p Hp. inversion Hp.
      * exists ((eid, q) :: pre), id, post. split; [done|]. split; [done|].
        split; [eapply Qlt_trans; done|]. split; [|done].
        intros p [-> | Hp]%elem_of_cons; [done | by apply Hpre].
    + apply Qgtb_false in Hcmp.
      destruct (IH best_score best_id) as (scored & bs & bi & Hsc & -> & Hres).
      exists ((eid, q) :: scored), bs, bi.
      split; [constructor; done|]. split; [reflexivity|].
      destruct Hres as [(-> & -> & Hall) |
                        (pre & id & post & -> & -> & Hlt & Hpre & Hpost)].
      * left. split; [done|]. split; [done|].
        intros p [-> | Hp]%elem_of_cons; [done | by apply Hall].
      * right. exists ((eid, q) :: pre), id, post.
        split; [done|]. split; [done|]. split; [done|]. split; [|done].
        intros p [-> | Hp]%elem_of_cons; [|by apply Hpre].
        eapply Qle_lt_trans; done.
Qed.

(** C1 (as amended).  With a positive threshold, [check] scores the
    candidate's signature against every existing signature and keeps the
    maximum, taken from the first artifact that reaches it; when the
    maximum reaches the threshold it answers duplicate with that
    artifact's identifier and the score, otherwise not duplicate with
    identifier 0 and the maximum as score; with no existing artifact it
    answers not duplicate with score 0.0. *)
Theorem check_spec (self : DedupEngine) (tc : GeneratedTestCase) :
  (0 < _threshold self)%Q ->
  let new_sig :=
    _tc_signature (gtc_title tc) (gtc_given tc) (gtc_when tc) (gtc_then tc) in
  exists scored best_id r,
    scores_of new_sig (_existing_sigs self) scored /\
    first_max scored (score r) best_id /\
    check self tc = Ok r /\
    (if is_duplicate r
     then (_threshold self <= score r)%Q /\ matched_id r = best_id /\
          exists pre post,
            scored = pre ++ (best_id, score r) :: post /\
            forall p, p ∈ pre -> (p.2 < score r)%Q
     else (score r < _threshold self)%Q /\ matched_id r = 0) /\
    (_existing_sigs self = [] -> is_duplicate r = false /\ score r = 0%Q).
Proof.
  intros Hthr new_sig.
  destruct (check_loop_spec new_sig (_existing_sigs self) 0%Q 0)
    as (scored & bs & bi & Hsc & Hloop & Hres).
  assert (Hfm : first_max scored bs bi).
  { destruct Hres as [(-> & -> & Hall) |
                      (pre & id & post & -> & -> & Hlt & Hpre & Hpost)].
    - left. done.
    - right. exists pre, id, post. done. }
  unfold check. fold new_sig. rewrite Hloop. cbn [rbind].
  unfold Qgeb. destruct (Qle_bool (_threshold self) bs) eqn:Hcmp.
  - apply Qle_bool_iff in Hcmp.
    exists scored, bi,
      {| is_duplicate := true; matched_id := bi; score := bs |}.
    split; [done|]. split; [exact Hfm|]. split; [reflexivity|]. simpl.
    assert (Hpos : (0 < bs)%Q) by (eapply Qlt_le_trans; done).
    destruct Hres as [(-> & -> & Hall) |
                      (pre & id & post & -> & -> & Hlt & Hpre & Hpost)].
    + exfalso. apply (Qlt_irrefl 0). done.
    + split.
      * split; [done|]. split; [done|]. exists pre, post. done.
      * intros Hnil. rewrite Hnil in Hsc. inversion Hsc as [Heq|].
        destruct pre; discriminate.
  - assert (Hlt : (bs < _threshold self)%Q).
    { apply Qnot_le_lt. intros Hle. apply Qle_bool_iff in Hle. congruence. }
    exists scored, bi,
      {| is_duplicate := false; matched_id := 0; score := bs |}.
    split; [done|]. split; [exact Hfm|]. split; [reflexivity|]. simpl.
    split; [done|]. intros Hnil. split; [done|].
    rewrite Hnil in Hloop. simpl in Hloop. congruence.
Qed.

End DuplicateMatcher.

Lemma check_spec_witness :
  exists scored best_id r,
    first_max scored (score r) best_id /\
    check (H := ascii_tables)
      (DedupEngine_init (H := ascii_tables) default_settings
         example_existing None) example_case = Ok r.
Proof.
  destruct (check_spec (H := ascii_tables)
              (DedupEngine_init (H := ascii_tables) default_settings
                 example_existing None) example_case)
    as (scored & best_id & r & _ & Hfm & Hr & _);
    [vm_compute; reflexivity|].
  exists scored, best_id, r. split; [exact Hfm | exact Hr].
Defined.

Example check_example :
  check (H := ascii_tables)
    (DedupEngine_init (H := ascii_tables) default_settings
       example_existing None) example_case
  = Ok {| is_duplicate := false; matched_id := 0; score := (92 # 121)%Q |}.
Proof. vm_compute. reflexivity. Qed.

(** C1 (as stated) fails when the threshold is 0.0, which the settings
    allow ([DEDUP_THRESHOLD=0]): against an empty list of existing
    artifacts the maximum 0.0 reaches the threshold and [check] answers
    duplicate, with identifier 0. *)
Lemma check_zero_threshold :
  check (H := ascii_tables)
    (DedupEngine_init (H := ascii_tables) (load_settings (Some 0%Q)) [] None)
    example_case
  = Ok {| is_duplicate := true; matched_id := 0; score := 0%Q |}.
Proof. vm_compute. reflexivity. Qed.

(** ** The empty delta *)

Section EmptyDelta.
Context `{Unicode}.

Lemma extract_no_lines (ac_text : list N) :
  no_criteria_lines ac_text -> _extract_criteria_lines ac_text = [].
Proof.
  unfold no_criteria_lines, _extract_criteria_lines.
  generalize (split 10%N (replace_crlf ac_text)). intros raws Hall.
  induction Hall as [|raw raws Hraw _ IH]; [reflexivity|].
  simpl. rewrite Hraw. exact IH.
Qed.

(** C7.  The delta is the empty string when no criteria line is left
    after stripping, and for any criteria text when there is no existing
    artifact. *)
Theorem compute_delta_empty_cases (self : DeltaAnalyzer) :
  no_criteria_lines (us_acceptance_criteria (_story self)) \/
  _existing self = [] ->
  compute_delta self = Ok [].
Proof.
  intros [Hnone | Hex]; unfold compute_delta.
  - rewrite (extract_no_lines _ Hnone). reflexivity.
  - rewrite Hex.
    destruct (negb (nonempty (_extract_criteria_lines _))); reflexivity.
Qed.

End EmptyDelta.

Lemma compute_delta_empty_cases_witness :
  compute_delta (H := ascii_tables)
    {| _story := mk_story 1 (of_string " - " ++ LF ++ of_string "2.");
       _existing := example_existing |} = Ok [] /\
  compute_delta (H := ascii_tables)
    {| _story := example_story; _existing := [] |} = Ok [].
Proof.
  split.
  - apply (compute_delta_empty_cases (H := ascii_tables)). left.
    vm_compute. repeat constructor.
  - apply (compute_delta_empty_cases (H := ascii_tables)). right.
    reflexivity.
Defined.

(** ** The worked example of the specification *)

(** C3 (as amended).  On the worked example neither criteria line is
    covered: the login line does not occur in the corpus and its longest
    common block with it, ["user "], gives the ratio 10/61; the delta lists
    both lines. *)
Theorem worked_example_delta :
  _existing_coverage_text (H := ascii_tables) example_existing
    = example_corpus /\
  _extract_criteria_lines (H := ascii_tables)
    (us_acceptance_criteria example_story) = [login_line; reset_line] /\
  difflib.find_longest_match
    (difflib.new (lower (Unicode := ascii_tables) login_line) example_corpus)
    0 15 0 46 = Ok (0, 7, 5) /\
  _line_is_covered (H := ascii_tables) login_line example_corpus
    coverage_threshold = Ok false /\
  _line_is_covered (H := ascii_tables) reset_line example_corpus
    coverage_threshold = Ok false /\
  compute_delta (H := ascii_tables)
    {| _story := example_story; _existing := example_existing |}
    = Ok (bullet_list [login_line; reset_line]).
Proof. vm_compute. repeat split; reflexivity. Qed.

(** C3 (as stated) fails: the login line is not judged covered, and the
    delta is not the reset-password line alone. *)
Lemma login_line_not_covered :
  _line_is_covered (H := ascii_tables) login_line example_corpus
    coverage_threshold <> Ok true /\
  compute_delta (H := ascii_tables)
    {| _story := example_story; _existing := example_existing |}
    <> Ok (bullet_list [reset_line]).
Proof. vm_compute. split; discriminate. Qed.

(** ** The threshold of the engine *)

(** C10 (as amended).  A threshold argument of 0.0, like no argument,
    makes the engine the one built with the settings default
    [Settings.DEDUP_THRESHOLD], which is 0.90 unless the environment sets
    another value; the threshold of an engine is 0.0 only when the
    settings default is 0.0. *)
Theorem falsy_threshold_falls_back `{Unicode}
    (cfg : Settings) (existing : list ExistingTestCase)
    (threshold : option Q) :
  DedupEngine_init cfg existing (Some 0%Q)
    = DedupEngine_init cfg existing None /\
  _threshold (DedupEngine_init cfg existing None) = DEDUP_THRESHOLD cfg /\
  DEDUP_THRESHOLD default_settings = (9 # 10)%Q /\
  ((_threshold (DedupEngine_init cfg existing threshold) == 0)%Q ->
   (DEDUP_THRESHOLD cfg == 0)%Q).
Proof.
  split; [reflexivity|]. split; [reflexivity|]. split; [reflexivity|].
  unfold DedupEngine_init, threshold_or. simpl.
  destruct threshold as [t|]; [|done].
  destruct (Qeq_bool t 0) eqn:Ht; [done|].
  intros Hz. apply Qeq_bool_iff in Hz. congruence.
Qed.

Lemma falsy_threshold_falls_back_witness :
  (DEDUP_THRESHOLD (load_settings (Some 0%Q)) == 0)%Q.
Proof.
  apply (falsy_threshold_falls_back (H := ascii_tables)
           (load_settings (Some 0%Q)) [] (Some 0%Q)).
  reflexivity.
Defined.

(** C10 (as stated) fails when the environment sets the default: with
    [DEDUP_THRESHOLD=0.5] a threshold argument of 0.0 gives the threshold
    0.5, not 0.90, and with [DEDUP_THRESHOLD=0] it gives an engine whose
    threshold is exactly 0.0. *)
Lemma env_default_counterexample :
  _threshold (DedupEngine_init (H := ascii_tables)
                (load_settings (Some (1 # 2)%Q)) [] (Some 0%Q))
    = (1 # 2)%Q /\
  _threshold (DedupEngine_init (H := ascii_tables)
                (load_settings (Some 0%Q)) [] (Some 0%Q))
    = 0%Q.
Proof. split; reflexivity. Qed.

(** ** SyncPipeline *)

Lemma mbind_call {W A B : Type} (ev : Call) (op : W -> res A * W)
    (f : A -> M W B) (w : W) (tr : list Call) :
  mbind (call ev op) f (w, tr) =
  match op w with
  | (Ok x, w') => f x (w', tr ++ [ev])
  | (Raise e, w') => (Raise e, (w', tr ++ [ev]))
  | (Diverge, w') => (Diverge, (w', tr ++ [ev]))
  end.
Proof. unfold mbind, call. simpl. destruct (op w) as [[x|e|] w']; reflexivity. Qed.

Lemma mbind_lift {W A B : Type} (r : res A) (f : A -> M W B)
    (st : W * list Call) :
  mbind (lift r) f st =
  match r with
  | Ok x => f x st
  | Raise e => (Raise e, st)
  | Diverge => (Diverge, st)
  end.
Proof. unfold mbind, lift. destruct r; reflexivity. Qed.

Section Pipeline.
Context {W : Type} `{Collaborators W} `{Unicode} (cfg : Settings).

(** C5.  When the fetch returns at least one existing artifact and the
    delta is the empty string, the run returns at once: the skipped count
    is the number of existing artifacts, nothing is created or updated,
    and the only collaborators invoked are those of the fetch. *)
Theorem run_early_exit (story_id : Z) (dry_run : bool) (w w1 w2 w3 : W)
    (tr : list Call) (story : UserStory) (existing : list ExistingTestCase) :
  ado_init w = (Ok tt, w1) ->
  get_user_story story_id w1 = (Ok story, w2) ->
  get_linked_test_cases story_id w2 = (Ok existing, w3) ->
  existing <> [] ->
  compute_delta {| _story := story; _existing := existing |} = Ok [] ->
  run cfg story_id dry_run (w, tr) =
  (Ok {| story_id := story_id; created_ids := []; updated_ids := [];
         skipped_count := len existing; folder_map := ∅ |},
   (w3, tr ++ [NewADOClient; GetUserStory story_id;
               GetLinkedTestCases story_id])).
Proof.
  intros Hinit Hstory Hlinked Hex Hdelta. unfold run.
  rewrite mbind_call, Hinit. rewrite mbind_call, Hstory.
  rewrite mbind_call, Hlinked. rewrite mbind_lift, Hdelta.
  unfold has_existing_tests. cbn [_existing].
  rewrite (nonempty_true existing Hex). cbn [nonempty negb andb].
  unfold ret, new_result. cbn [created_ids updated_ids folder_map].
  rewrite <- !app_assoc. reflexivity.
Qed.

Lemma dry_run_calls_read_only (story_id : Z) (story : UserStory)
    (delta : list N) (new : list Call) :
  new `prefix_of` dry_run_calls story_id story delta ->
  Forall (fun ev => is_write_call ev = false /\ ev <> EnsureFolders) new.
Proof.
  intros [rest Hrest].
  assert (Hall : Forall (fun ev => is_write_call ev = false /\
                                   ev <> EnsureFolders)
                        (dry_run_calls story_id story delta))
    by (repeat constructor; discriminate).
  rewrite Hrest in Hall. apply Forall_app in Hall. tauto.
Qed.

(** C6.  Whatever the collaborators answer, a dry run invokes none of
    create, update and add-to-suite (nor the folder provisioning): its
    calls are an initial part of fetch, fetch, generator, generate; it
    returns after the generation, with nothing created or updated. *)
Theorem dry_run_never_writes (story_id : Z) (w : W) (tr : list Call) :
  exists (story : UserStory) (delta : list N) (new : list Call),
    (run cfg story_id true (w, tr)).2.2 = tr ++ new /\
    new `prefix_of` dry_run_calls story_id story delta /\
    Forall (fun ev => is_write_call ev = false /\ ev <> EnsureFolders) new /\
    forall r, (run cfg story_id true (w, tr)).1 = Ok r ->
              created_ids r = [] /\ updated_ids r = [] /\ folder_map r = ∅.
Proof.
  assert (Hfinish : forall story delta new
                           (out : res SyncResult * (W * list Call)),
            out.2.2 = tr ++ new ->
            new `prefix_of` dry_run_calls story_id story delta ->
            (forall r, out.1 = Ok r ->
               created_ids r = [] /\ updated_ids r = [] /\ folder_map r = ∅) ->
            exists story delta new,
              out.2.2 = tr ++ new /\
              new `prefix_of` dry_run_calls story_id story delta /\
              Forall (fun ev => is_write_call ev = false /\
                                ev <> EnsureFolders) new /\
              forall r, out.1 = Ok r ->
                created_ids r = [] /\ updated_ids r = [] /\ folder_map r = ∅).
  { intros story delta new out Htr Hpre Hres. exists story, delta, new.
    split; [done|]. split; [done|]. split; [|done].
    eapply dry_run_calls_read_only. done. }
  pose (dummy := mk_story story_id []).
  unfold run. rewrite mbind_call.
  destruct (ado_init w) as [[[]|e|] w1];
    [| apply (Hfinish dummy [] [NewADOClient]);
       [reflexivity | eexists; reflexivity | discriminate] ..].
  rewrite mbind_call.
  destruct (get_user_story story_id w1) as [[story|e|] w2];
    [| apply (Hfinish dummy [] [NewADOClient; GetUserStory story_id]);
       [cbn; rewrite <- !app_assoc; reflexivity
       | eexists; reflexivity | discriminate] ..].
  rewrite mbind_call.
  destruct (get_linked_test_cases story_id w2) as [[existing|e|] w3];
    [| apply (Hfinish story []
                [NewADOClient; GetUserStory story_id;
                 GetLinkedTestCases story_id]);
       [cbn; rewrite <- !app_assoc; reflexivity
       | eexists; reflexivity | discriminate] ..].
  rewrite mbind_lift.
  destruct (compute_delta {| _story := story; _existing := existing |})
    as [delta|e|];
    [| apply (Hfinish story []
                [NewADOClient; GetUserStory story_id;
                 GetLinkedTestCases story_id]);
       [cbn; rewrite <- !app_assoc; reflexivity
       | eexists; reflexivity | discriminate] ..].
  destruct (has_existing_tests _ && negb (nonempty delta)).
  { apply (Hfinish story delta
             [NewADOClient; GetUserStory story_id;
              GetLinkedTestCases story_id]);
      [cbn; rewrite <- !app_assoc; reflexivity | eexists; reflexivity |].
    cbn. intros r [= <-]. done. }
  rewrite mbind_call.
  destruct (generator_init w3) as [[[]|e|] w4];
    [| apply (Hfinish story delta
                [NewADOClient; GetUserStory story_id;
                 GetLinkedTestCases story_id; NewTestGenerator]);
       [cbn; rewrite <- !app_assoc; reflexivity
       | eexists; reflexivity | discriminate] ..].
  rewrite mbind_call.
  destruct (generate story delta w4) as [[cases|e|] w5];
    apply (Hfinish story delta (dry_run_calls story_id story delta));
    try (cbn; rewrite <- !app_assoc; reflexivity);
    try done; try discriminate.
  cbn. intros r [= <-]. done.
Qed.

End Pipeline.

Lemma run_early_exit_witness :
  run (H := canned_collaborators) (H0 := ascii_tables) default_settings
      1 false (canned_world, [])
  = (Ok {| story_id := 1; created_ids := []; updated_ids := [];
           skipped_count := 1; folder_map := ∅ |},
     (canned_world,
      [NewADOClient; GetUserStory 1; GetLinkedTestCases 1])).
Proof.
  apply (run_early_exit (H := canned_collaborators) (H0 := ascii_tables)
           default_settings 1 false canned_world canned_world canned_world
           canned_world [] (c_story canned_world) example_existing);
    [reflexivity | reflexivity | reflexivity | discriminate
    | vm_compute; reflexivity].
Defined.

Example dry_run_example :
  run (H := canned_collaborators) (H0 := ascii_tables) default_settings
      1 true
      ({| c_story := example_story; c_existing := example_existing;
          c_cases := [example_case]; c_folders := ∅; c_next_id := 100 |}, [])
  = (Ok (new_result 1),
     ({| c_story := example_story; c_existing := example_existing;
         c_cases := [example_case]; c_folders := ∅; c_next_id := 100 |},
      dry_run_calls 1 example_story (bullet_list [login_line; reset_line]))).
Proof. vm_compute. reflexivity. Qed.

(** ** CategoryRouter *)

Lemma mbind_ret {W A B : Type} (x : A) (f : A -> M W B) (st : W * list Call) :
  mbind (ret x) f st = f x st.
Proof. reflexivity. Qed.

Lemma mbind_assoc {W A B C : Type} (m : M W A) (f : A -> M W B)
    (g : B -> M W C) (st : W * list Call) :
  mbind (mbind m f) g st = mbind m (fun x => mbind (f x) g) st.
Proof. unfold mbind. destruct (m st) as [[x|e|] st']; reflexivity. Qed.

Section CategoryRouter.
Context {W : Type} `{Collaborators W}.
Hypothesis add_ok :
  forall (suite_id test_case_id : Z) (w : W),
    (add_test_to_suite suite_id test_case_id w).1 = Ok tt.

Lemma file_into_spec (suite : option Z) (test_case_id : Z) (w : W)
    (tr : list Call) :
  exists w',
    file_into suite test_case_id (w, tr)
    = (Ok tt, (w', tr ++ filing suite test_case_id)).
Proof.
  unfold file_into, filing, truthy_id. destruct suite as [suite_id|].
  - destruct (suite_id =? 0); simpl.
    + exists w. unfold ret. rewrite app_nil_r. reflexivity.
    + unfold call. simpl. pose proof (add_ok suite_id test_case_id w) as Hok.
      destruct (add_test_to_suite suite_id test_case_id w) as [r w'].
      simpl in Hok. subst r. exists w'. reflexivity.
  - exists w. unfold ret. rewrite app_nil_r. reflexivity.
Qed.

Lemma filings_spec (m : gmap (list N) Z) (test_case_id : Z)
    (tc : GeneratedTestCase) (w : W) (tr : list Call) :
  exists w',
    mbind (file_into (m !! COMPLETE) test_case_id)
      (fun _ =>
         mbind (file_into (m !! normalize_category (gtc_category tc))
                          test_case_id)
               (fun _ => ret {| _folder_map := m |})) (w, tr)
    = (Ok {| _folder_map := m |},
       (w', tr ++ filing (m !! COMPLETE) test_case_id ++
                  filing (m !! normalize_category (gtc_category tc))
                         test_case_id)).
Proof.
  destruct (file_into_spec (m !! COMPLETE) test_case_id w tr) as (w1 & H1).
  destruct (file_into_spec (m !! normalize_category (gtc_category tc))
              test_case_id w1 (tr ++ filing (m !! COMPLETE) test_case_id))
    as (w2 & H2).
  exists w2. unfold mbind at 1. rewrite H1. unfold mbind. rewrite H2.
  unfold ret. rewrite <- app_assoc. reflexivity.
Qed.

(** An empty map is provisioned first, and the filing uses the new map. *)
Lemma assign_test_provisions (self : FolderManager) (test_case_id : Z)
    (tc : GeneratedTestCase) (w w1 : W) (tr : list Call)
    (m : gmap (list N) Z) :
  _folder_map self = ∅ ->
  ensure_folders w = (Ok m, w1) ->
  exists w',
    assign_test self test_case_id tc (w, tr)
    = (Ok {| _folder_map := m |},
       (w', tr ++ [EnsureFolders] ++ filing (m !! COMPLETE) test_case_id ++
                  filing (m !! normalize_category (gtc_category tc))
                         test_case_id)).
Proof.
  intros Hmap Hens. unfold assign_test, ensure_folder_map, setup_folders.
  rewrite bool_decide_eq_true_2 by done.
  rewrite !mbind_assoc, mbind_call, Hens. rewrite !mbind_ret. cbn [fst].
  destruct (filings_spec m test_case_id tc w1 (tr ++ [EnsureFolders]))
    as (w' & Hf).
  exists w'. rewrite app_assoc. exact Hf.
Qed.

End CategoryRouter.

Section CategoryRouterSpec.
Context {W : Type} `{Collaborators W}.






End CategoryRouterSpec.



Example assign_test_example :
  assign_test (H := canned_collaborators)
    {| _folder_map := c_folders canned_world |} 42 example_case
    (canned_world, [])
  = (Ok {| _folder_map := c_folders canned_world |},
     (canned_world, [AddTestToSuite 3 42; AddTestToSuite 5 42])).
Proof. vm_compute. reflexivity. Qed.

(** The test [if complete_id:] also skips a folder that the map gives
    the identifier 0. *)
Example assign_test_zero_identifier :
  (assign_test (H := canned_collaborators)
     {| _folder_map := <[COMPLETE := 0]> (<[REGRESSION := 5]> ∅) |}
     42 example_case (canned_world, [])).2.2
  = [AddTestToSuite 5 42].
Proof. vm_compute. reflexivity. Qed.


(** * Further properties of the code *)

(** ** The similarity score lies between 0 and 1 *)

Lemma sum_sizes_acc (l : list difflib.Match) (z : Z) :
  fold_left (fun acc blk => acc + difflib.size blk) l z
  = z + difflib.sum_sizes l.
Proof.
  unfold difflib.sum_sizes. revert z.
  induction l as [|x l IH]; intros z; simpl; [lia|].
  rewrite (IH (z + difflib.size x)), (IH (0 + difflib.size x)). lia.
Qed.

Lemma sum_sizes_cons (x : difflib.Match) (l : list difflib.Match) :
  difflib.sum_sizes (x :: l) = difflib.size x + difflib.sum_sizes l.
Proof.
  unfold difflib.sum_sizes at 1. simpl. rewrite sum_sizes_acc. lia.
Qed.

Lemma sum_sizes_app (l1 l2 : list difflib.Match) :
  difflib.sum_sizes (l1 ++ l2) = difflib.sum_sizes l1 + difflib.sum_sizes l2.
Proof.
  induction l1 as [|x l1 IH]; simpl; [reflexivity|].
  rewrite !sum_sizes_cons, IH. lia.
Qed.

Lemma sum_sizes_insert_sorted (x : difflib.Match) (l : list difflib.Match) :
  difflib.sum_sizes (difflib.insert_sorted x l)
  = difflib.size x + difflib.sum_sizes l.
Proof.
  induction l as [|y l IH]; simpl; [apply sum_sizes_cons|].
  destruct (difflib.match_leb x y); rewrite !sum_sizes_cons; [reflexivity|].
  rewrite IH. lia.
Qed.

Lemma sum_sizes_sort (l : list difflib.Match) :
  difflib.sum_sizes (difflib.sort l) = difflib.sum_sizes l.
Proof.
  induction l as [|x l IH]; simpl; [reflexivity|].
  rewrite sum_sizes_insert_sorted, sum_sizes_cons, IH. reflexivity.
Qed.

Lemma sum_sizes_collapse (blocks : list difflib.Match) :
  forall (cur : difflib.Match) (acc : list difflib.Match),
    difflib.size (fold_left difflib.collapse_step blocks (cur, acc)).1
    + difflib.sum_sizes (fold_left difflib.collapse_step blocks (cur, acc)).2
    = difflib.size cur + difflib.sum_sizes acc + difflib.sum_sizes blocks.
Proof.
  induction blocks as [|blk blocks IH]; intros cur acc.
  - simpl. unfold difflib.sum_sizes at 3. simpl. lia.
  - cbn [fold_left].
    destruct (difflib.collapse_step (cur, acc) blk) as [cur' acc'] eqn:Hstep.
    rewrite IH, sum_sizes_cons.
    destruct cur as [[i1 j1] k1], blk as [[i2 j2] k2].
    unfold difflib.collapse_step in Hstep.
    destruct ((i1 + k1 =? i2) && (j1 + k1 =? j2)).
    + injection Hstep as <- <-. unfold difflib.size. simpl. lia.
    + destruct (k1 =? 0) eqn:Hk; injection Hstep as <- <-.
      * apply Z.eqb_eq in Hk. unfold difflib.size. simpl. lia.
      * rewrite sum_sizes_app, sum_sizes_cons.
        unfold difflib.sum_sizes at 2. unfold difflib.size. simpl. lia.
Qed.

Lemma gmb_loop_inv (a b : list N) :
  exists st,
    while (difflib.gmb_fuel (len a)) difflib.gmb_cond
          (difflib.gmb_body (difflib.new a b)) ([(0, len a, 0, len b)], [])
      = Ok st /\
    gmb_inv a b st /\ st.1 = [].
Proof.
  pose proof (len_nonneg a) as Ha. pose proof (len_nonneg b) as Hb.
  destruct (while_inv (gmb_inv a b)
    (fun st => Z.to_nat (queue_weight st.1))
    difflib.gmb_cond (difflib.gmb_body (difflib.new a b)))
    with (fuel := difflib.gmb_fuel (len a))
         (s := ([(0, len a, 0, len b)], @nil difflib.Match))
    as (st & Hst & Hinv & Hcond).
  - intros [q mb] (Hq & Hs0 & Hsa & Hsb). simpl in Hq, Hs0, Hsa, Hsb.
    unfold difflib.gmb_cond. simpl.
    destruct q as [|[[[alo ahi] blo] bhi] q]; [by exists false|].
    exists true. split; [done|]. intros _.
    apply Forall_cons in Hq as [Hr Hq].
    pose proof (queue_weight_pos a b q Hq) as Hw.
    destruct (find_longest_match_ok a b alo ahi blo bhi Hr)
      as (i & j & k & Hf & Hk & Hi1 & Hi2 & Hj1 & Hj2).
    unfold difflib.gmb_body. rewrite Hf. cbn [rbind].
    destruct Hr as ([? ?] & ? & [? ?] & ?).
    simpl in Hsa, Hsb.
    destruct (k =? 0) eqn:Hk0.
    + eexists. split; [reflexivity|]. split; [|simpl; lia].
      split; [done|]. simpl. lia.
    + apply Z.eqb_neq in Hk0. eexists. split; [reflexivity|].
      unfold gmb_inv. cbn [fst snd]. rewrite sum_sizes_app, sum_sizes_cons.
      unfold difflib.sum_sizes at 2 4 6. unfold difflib.size at 1 2 3.
      cbn [fold_left snd].
      destruct ((alo <? i) && (blo <? j)), ((i + k <? ahi) && (j + k <? bhi));
        (split; [split; [repeat (apply Forall_cons; split); try done;
                         unfold region_ok, window_ok; lia
                        | simpl; lia]
                | simpl; lia]).
  - split; [repeat constructor; lia|]. simpl.
    unfold difflib.sum_sizes. simpl. lia.
  - unfold difflib.gmb_fuel. simpl. lia.
  - exists st. split; [done|]. split; [done|].
    unfold difflib.gmb_cond in Hcond. destruct st.1; [done | discriminate].
Qed.

Lemma matching_blocks_bound (a b : list N) :
  exists blocks,
    difflib.get_matching_blocks (difflib.new a b) = Ok blocks /\
    0 <= difflib.sum_sizes blocks /\
    difflib.sum_sizes blocks <= len a /\
    difflib.sum_sizes blocks <= len b.
Proof.
  unfold difflib.get_matching_blocks. rewrite new_a, new_b.
  destruct (gmb_loop_inv a b) as ([q mb] & -> & (Hq & Hs0 & Hsa & Hsb) & Hnil).
  simpl in Hnil. subst q. simpl in Hs0, Hsa, Hsb. cbn [rbind snd].
  match goal with
  | |- context [fold_left ?f ?l ?s] =>
      assert (Hc : difflib.size (fold_left f l s).1
                   + difflib.sum_sizes (fold_left f l s).2
                   = difflib.sum_sizes mb);
      [ etrans; [apply (sum_sizes_collapse (difflib.sort mb) (0, 0, 0) [])|];
        rewrite sum_sizes_sort; unfold difflib.sum_sizes at 1; simpl; lia
      | destruct (fold_left f l s) as [[[i1 j1] k1] non_adjacent] ]
  end.
  unfold difflib.size in Hc. simpl in Hc.
  eexists. split; [reflexivity|]. rewrite sum_sizes_app.
  unfold difflib.sum_sizes at 2 4 6. unfold difflib.size at 1 2 3. simpl.
  destruct (k1 =? 0) eqn:Hk.
  - apply Z.eqb_eq in Hk. lia.
  - rewrite sum_sizes_app, sum_sizes_cons.
    unfold difflib.sum_sizes at 2 4 6. unfold difflib.size. simpl. lia.
Qed.

Lemma ratio_bounds (a b : list N) :
  exists q, _similarity a b = Ok q /\ (0 <= q)%Q /\ (q <= 1)%Q.
Proof.
  unfold _similarity, difflib.ratio.
  destruct (matching_blocks_bound a b) as (blocks & -> & H0 & Ha & Hb).
  cbn [rbind]. rewrite new_a, new_b. unfold difflib._calculate_ratio.
  pose proof (len_nonneg a). pose proof (len_nonneg b).
  destruct (len a + len b =? 0) eqn:Hz.
  - exists 1%Q. split; [done|]. split; discriminate.
  - apply Z.eqb_neq in Hz.
    destruct (py_truediv_pos (2 * difflib.sum_sizes blocks) (len a + len b))
      as (q & -> & Hq); [lia|].
    exists q. split; [done|]. rewrite Hq.
    assert (Hpos : (0 < inject_Z (len a + len b))%Q).
    { change 0%Q with (inject_Z 0). rewrite <- Zlt_Qlt. lia. }
    split.
    + apply Qle_shift_div_l; [done|]. rewrite Qmult_0_l.
      change 0%Q with (inject_Z 0). rewrite <- Zle_Qle. lia.
    + apply Qle_shift_div_r; [done|]. rewrite Qmult_1_l.
      rewrite <- Zle_Qle. lia.
Qed.

(** X1.  The similarity of any two strings is a score between 0.0 and
    1.0. *)
Theorem similarity_bounded (a b : list N) :
  exists q, _similarity a b = Ok q /\ (0 <= q)%Q /\ (q <= 1)%Q.
Proof. apply ratio_bounds. Qed.

(** X2.  Two strings without a common character, not both empty, have the
    similarity 0.0. *)
Theorem similarity_disjoint (a b : list N) :
  (forall c, c ∈ a -> c ∉ b) -> a <> [] \/ b <> [] ->
  _similarity a b = Ok 0%Q.
Proof.
  intros Hdis Hne. pose proof (len_nonneg a) as Ha.
  pose proof (len_nonneg b) as Hb.
  assert (Hwin : window_ok a b 0 0 (len b) (len a))
    by (unfold window_ok; lia).
  destruct (find_longest_match_spec a b 0 (len a) 0 (len b) Hwin)
    as (best & [[i j] k] & Hf & _ & Hblk & _).
  assert (k = 0) as ->.
  { destruct Hblk as (Hk & _ & _ & _ & _ & Heq).
    destruct (decide (k = 0)); [done|]. exfalso.
    destruct (Heq 0) as (c & Hca & Hcb); [lia|].
    apply (Hdis c); apply list_elem_of_lookup; eauto. }
  unfold _similarity, difflib.ratio, difflib.get_matching_blocks.
  rewrite new_a, new_b. rewrite gmb_fuel_unfold by done.
  cbn [while difflib.gmb_cond rbind fst]. unfold difflib.gmb_body.
  rewrite Hf. cbn [rbind Z.eqb while difflib.gmb_cond fst snd].
  simpl. unfold difflib._calculate_ratio, py_truediv.
  assert (Hl : 0 < len a + len b).
  { destruct Hne as [Hn | Hn]; [destruct a | destruct b]; try done;
      unfold len in *; simpl in *; lia. }
  replace (len a + len b =? 0) with false by (symmetry; apply Z.eqb_neq; lia).
  reflexivity.
Qed.

Lemma similarity_disjoint_witness :
  _similarity (of_string "abc") (of_string "xyz") = Ok 0%Q.
Proof.
  apply similarity_disjoint.
  - intros c Hc Hb. vm_compute in Hc, Hb.
    repeat (apply elem_of_cons in Hc as [-> | Hc];
            [repeat (apply elem_of_cons in Hb as [Hb | Hb];
                     [discriminate|]); inversion Hb|]).
    inversion Hc.
  - left. discriminate.
Defined.

(** ** More on DuplicateMatcher *)

Lemma similarity_canonical (a b : list N) (q : Q) :
  _similarity a b = Ok q -> Qred q = q.
Proof.
  unfold _similarity, difflib.ratio.
  destruct (difflib.get_matching_blocks (difflib.new a b)) as [blocks|e|];
    [|discriminate..].
  cbn [rbind]. unfold difflib._calculate_ratio, py_truediv.
  destruct (_ =? 0); [intros [= <-]; reflexivity|].
  intros [= <-]. apply Qred_complete, Qred_correct.
Qed.

Section MoreDuplicateMatcher.
Context `{Unicode}.

Lemma scores_of_sig (new_sig : list N) (sigs : list (Z * list N))
    (scored : list (Z * Q)) (id : Z) (sig : list N) :
  scores_of new_sig sigs scored -> (id, sig) ∈ sigs ->
  exists q, (id, q) ∈ scored /\ _similarity new_sig sig = Ok q.
Proof.
  induction 1 as [|[i s] [i' q] sigs scored [Hid Hq] _ IH];
    intros Hin; [inversion Hin|].
  simpl in Hid, Hq. subst i'.
  apply elem_of_cons in Hin as [[= -> ->] | Hin].
  - exists q. split; [left | done].
  - destruct (IH Hin) as (q' & Hq' & Hs). exists q'. split; [right|]; done.
Qed.

Lemma scores_of_scored (new_sig : list N) (sigs : list (Z * list N))
    (scored : list (Z * Q)) (id : Z) (q : Q) :
  scores_of new_sig sigs scored -> (id, q) ∈ scored ->
  exists sig, (id, sig) ∈ sigs /\ _similarity new_sig sig = Ok q.
Proof.
  induction 1 as [|[i s] [i' q'] sigs scored [Hid Hq] _ IH];
    intros Hin; [inversion Hin|].
  simpl in Hid, Hq. subst i'.
  apply elem_of_cons in Hin as [[= -> ->] | Hin].
  - exists s. split; [left | done].
  - destruct (IH Hin) as (s' & Hs' & Hs). exists s'. split; [right|]; done.
Qed.

(** X3.  When the signature of the candidate is character for character
    the signature of an existing artifact and the threshold is at most
    1.0, [check] answers duplicate with the score 1.0 and the identifier
    of an existing artifact whose similarity is 1.0. *)
Theorem identical_signature_is_duplicate (self : DedupEngine)
    (tc : GeneratedTestCase) (id : Z) :
  (_threshold self <= 1)%Q ->
  (id, _tc_signature (gtc_title tc) (gtc_given tc) (gtc_when tc)
                     (gtc_then tc)) ∈ _existing_sigs self ->
  exists r sig,
    check self tc = Ok r /\ is_duplicate r = true /\ score r = 1%Q /\
    (matched_id r, sig) ∈ _existing_sigs self /\
    _similarity (_tc_signature (gtc_title tc) (gtc_given tc) (gtc_when tc)
                               (gtc_then tc)) sig = Ok 1%Q.
Proof.
  intros Hthr Hin.
  set (new_sig := _tc_signature _ _ _ _) in *.
  destruct (check_loop_spec new_sig (_existing_sigs self) 0%Q 0)
    as (scored & bs & bi & Hsc & Hloop & Hres).
  destruct (scores_of_sig _ _ _ _ _ Hsc Hin) as (q1 & Hq1 & Hs1).
  assert (q1 = 1%Q) as ->.
  { unfold _similarity in Hs1. rewrite ratio_self in Hs1. congruence. }
  destruct Hres as [(-> & -> & Hall) |
                    (pre & wid & post & -> & -> & Hlt & Hpre & Hpost)].
  { exfalso. apply Hall in Hq1. simpl in Hq1.
    apply Qle_not_lt in Hq1. apply Hq1. reflexivity. }
  assert (Hw : (wid, bs) ∈ pre ++ (wid, bs) :: post)
    by (apply elem_of_app; right; left).
  destruct (scores_of_scored _ _ _ _ _ Hsc Hw) as (sig & Hsig & Hsim).
  assert (Hbs : bs = 1%Q).
  { destruct (ratio_bounds new_sig sig) as (q & Hq & _ & Hle).
    rewrite Hsim in Hq. injection Hq as <-.
    assert (Hge : (1 <= bs)%Q).
    { apply elem_of_app in Hq1 as [Hq1 | Hq1].
      - apply Hpre in Hq1. simpl in Hq1. apply Qlt_le_weak. done.
      - apply elem_of_cons in Hq1 as [[= <- <-] | Hq1].
        + apply Qle_refl.
        + apply Hpost in Hq1. done. }
    rewrite <- (similarity_canonical _ _ _ Hsim).
    change 1%Q with (Qred 1). apply Qred_complete.
    apply Qle_antisym; done. }
  subst bs. unfold check. fold new_sig. rewrite Hloop. cbn [rbind].
  unfold Qgeb. replace (Qle_bool (_threshold self) 1) with true
    by (symmetry; apply Qle_bool_iff; done).
  eexists _, sig. split; [reflexivity|]. simpl. done.
Qed.

(** X4.  [check_batch] pairs every candidate with the outcome of its own
    [check], in the order of the input; it fails on no input. *)
Theorem check_batch_pairs (self : DedupEngine)
    (cases : list GeneratedTestCase) :
  exists rs,
    check_batch self cases = Ok rs /\
    Forall2 (fun tc (p : GeneratedTestCase * DedupResult) =>
               p.1 = tc /\ check self tc = Ok p.2) cases rs.
Proof.
  induction cases as [|tc cases (rs & IH & Hall)]; simpl.
  - exists []. split; [done | constructor].
  - destruct (check_ok self tc) as [r Hr]. rewrite Hr, IH. cbn [rbind].
    eexists. split; [reflexivity|]. constructor; done.
Qed.

(** X5.  Lowering the threshold never loses a duplicate: what is a
    duplicate under a threshold is the same duplicate, with the same
    identifier and score, under every lower threshold. *)
Theorem lower_threshold_keeps_duplicate (sigs : list (Z * list N))
    (t t' : Q) (tc : GeneratedTestCase) (r : DedupResult) :
  (t' <= t)%Q ->
  check {| _threshold := t; _existing_sigs := sigs |} tc = Ok r ->
  is_duplicate r = true ->
  check {| _threshold := t'; _existing_sigs := sigs |} tc = Ok r.
Proof.
  intros Hle. unfold check. cbn [_threshold _existing_sigs].
  destruct (check_loop _ sigs 0%Q 0) as [[bs bi]|e|]; [|discriminate..].
  cbn [rbind]. unfold Qgeb. destruct (Qle_bool t bs) eqn:Hcmp.
  - intros [= <-] _. apply Qle_bool_iff in Hcmp.
    replace (Qle_bool t' bs) with true; [done|].
    symmetry. apply Qle_bool_iff. eapply Qle_trans; done.
  - intros [= <-]. discriminate.
Qed.

(** X6.  The score that [check] reports always lies between 0.0 and 1.0,
    and a reported duplicate carries the identifier 0 or the identifier of
    an existing artifact. *)
Theorem check_score_bounded (self : DedupEngine) (tc : GeneratedTestCase) :
  exists r,
    check self tc = Ok r /\ (0 <= score r)%Q /\ (score r <= 1)%Q /\
    (matched_id r = 0 \/ matched_id r ∈ (_existing_sigs self).*1).
Proof.
  set (new_sig := _tc_signature (gtc_title tc) (gtc_given tc) (gtc_when tc)
                                (gtc_then tc)).
  destruct (check_loop_spec new_sig (_existing_sigs self) 0%Q 0)
    as (scored & bs & bi & Hsc & Hloop & Hres).
  assert (Hb : (0 <= bs)%Q /\ (bs <= 1)%Q /\
               (bi = 0 \/ bi ∈ (_existing_sigs self).*1)).
  { destruct Hres as [(-> & -> & Hall) |
                      (pre & wid & post & -> & -> & Hlt & Hpre & Hpost)].
    - split; [apply Qle_refl|]. split; [discriminate | by left].
    - assert (Hw : (wid, bs) ∈ pre ++ (wid, bs) :: post)
        by (apply elem_of_app; right; left).
      destruct (scores_of_scored _ _ _ _ _ Hsc Hw) as (sig & Hsig & Hsim).
      destruct (ratio_bounds new_sig sig) as (q & Hq & H0 & H1).
      rewrite Hsim in Hq. injection Hq as <-.
      split; [done|]. split; [done|]. right.
      apply list_elem_of_fmap. exists (wid, sig). done. }
  destruct Hb as (H0 & H1 & Hid).
  unfold check. fold new_sig. rewrite Hloop. cbn [rbind].
  destruct (Qgeb bs (_threshold self)); eexists; (split; [reflexivity|]);
    simpl; split; try done; split; try done. by left.
Qed.

End MoreDuplicateMatcher.

Lemma identical_signature_is_duplicate_witness :
  exists r sig,
    check (H := ascii_tables) identical_engine identical_case = Ok r /\
    is_duplicate r = true /\ score r = 1%Q /\
    (matched_id r, sig) ∈ _existing_sigs identical_engine.
Proof.
  destruct (identical_signature_is_duplicate (H := ascii_tables)
              identical_engine identical_case 7)
    as (r & sig & Hr & Hd & Hs & Hin & _).
  - vm_compute. discriminate.
  - vm_compute. left.
  - exists r, sig. split; [exact Hr|]. split; [exact Hd|].
    split; [exact Hs | exact Hin].
Defined.

Lemma lower_threshold_keeps_duplicate_witness :
  check (H := ascii_tables)
    {| _threshold := (1 # 2)%Q; _existing_sigs := [(7, of_string "login")] |}
    (mk_case (of_string "Login") [] [] [] REGRESSION)
  = Ok {| is_duplicate := true; matched_id := 7; score := 1%Q |}.
Proof.
  apply (lower_threshold_keeps_duplicate (H := ascii_tables)
           [(7, of_string "login")] (9 # 10)%Q (1 # 2)%Q).
  - vm_compute. discriminate.
  - vm_compute. reflexivity.
  - reflexivity.
Defined.

(** ** More on CoverageDelta *)

Lemma lstrip_by_suffix (p : N -> bool) (s : list N) :
  exists pre, s = pre ++ lstrip_by p s.
Proof.
  induction s as [|c s (pre & IH)]; [by exists []|].
  simpl. destruct (p c); [|by exists []].
  exists (c :: pre). simpl. by rewrite <- IH.
Qed.

Lemma lstrip_by_head (p : N -> bool) (s : list N) (c : N) (rest : list N) :
  lstrip_by p s = c :: rest -> p c = false.
Proof.
  induction s as [|d s IH]; simpl; [discriminate|].
  destruct (p d) eqn:Hd; [done|]. intros [= -> _]. done.
Qed.

Lemma rstrip_by_prefix (p : N -> bool) (s : list N) :
  exists post, s = rstrip_by p s ++ post.
Proof.
  unfold rstrip_by. destruct (lstrip_by_suffix p (rev s)) as (pre & Hpre).
  exists (rev pre). rewrite <- rev_app_distr, <- Hpre, rev_involutive. done.
Qed.

Lemma filtered_sublist {A : Type} (P : A -> Prop) (l l' : list A) :
  filtered P l l' -> sublist l' l.
Proof. induction 1; by constructor. Qed.

Lemma filtered_elem {A : Type} (P : A -> Prop) (l l' : list A) (x : A) :
  filtered P l l' -> x ∈ l' -> P x.
Proof.
  induction 1 as [|y l l' Hy _ IH|y l l' _ _ IH]; intros Hin.
  - inversion Hin.
  - apply elem_of_cons in Hin as [-> | Hin]; [done | by apply IH].
  - by apply IH.
Qed.

Lemma filtered_nil_iff {A : Type} (P : A -> Prop) (l l' : list A) :
  filtered P l l' -> l' = [] <-> Forall (fun x => ~ P x) l.
Proof.
  induction 1 as [|y l l' Hy _ IH|y l l' Hy _ IH].
  - split; [constructor | done].
  - split; [discriminate|]. intros Hall. apply Forall_cons in Hall as [Hn _].
    done.
  - rewrite IH. split.
    + intros Hall. constructor; done.
    + intros Hall. apply Forall_cons in Hall as [_ Hall]. done.
Qed.

Lemma bullet_list_nil (lines : list (list N)) :
  bullet_list lines = [] <-> lines = [].
Proof.
  split; [|intros ->; reflexivity].
  destruct lines as [|l [|l' lines]]; [done | discriminate | discriminate].
Qed.

Section MoreCoverageDelta.
Context `{Unicode}.

(** X7.  Every criteria line that [_extract_criteria_lines] returns is
    non-empty, does not begin with a bullet or numbering character, and is
    a contiguous part of one of the lines of the text. *)
Theorem extracted_lines_clean (ac_text : list N) :
  Forall (fun line =>
            (exists c rest, line = c :: rest /\ bullet_char c = false) /\
            exists raw, raw ∈ split 10%N (replace_crlf ac_text) /\
                        is_substring line raw)
         (_extract_criteria_lines ac_text).
Proof.
  unfold _extract_criteria_lines.
  generalize (split 10%N (replace_crlf ac_text)). intros raws.
  assert (Hgen : forall (seen : list (list N)) (acc : list (list N)),
    Forall (fun line =>
              (exists c rest, line = c :: rest /\ bullet_char c = false) /\
              exists raw, raw ∈ seen ++ raws /\ is_substring line raw) acc ->
    Forall (fun line =>
              (exists c rest, line = c :: rest /\ bullet_char c = false) /\
              exists raw, raw ∈ seen ++ raws /\ is_substring line raw)
      (fold_left
         (fun lines raw =>
            let clean := lstrip_by bullet_char (strip raw) in
            if nonempty clean then lines ++ [clean] else lines) raws acc)).
  { induction raws as [|raw raws IH]; intros seen acc Hacc; [done|].
    simpl. replace (seen ++ raw :: raws) with ((seen ++ [raw]) ++ raws)
      by (rewrite <- app_assoc; done).
    apply IH. rewrite <- app_assoc. simpl.
    destruct (lstrip_by bullet_char (strip raw)) as [|c rest] eqn:Hclean;
      [done|].
    simpl. apply Forall_app. split; [done|]. constructor; [|constructor].
    split.
    - exists c, rest. split; [done|]. eapply lstrip_by_head. done.
    - exists raw. split; [apply elem_of_app; right; left|].
      destruct (lstrip_by_suffix bullet_char (strip raw)) as (pre & Hpre).
      rewrite Hclean in Hpre. unfold strip in Hpre.
      destruct (rstrip_by_prefix isspace (lstrip_by isspace raw))
        as (post & Hpost).
      destruct (lstrip_by_suffix isspace raw) as (pre' & Hpre').
      exists (pre' ++ pre), post. rewrite Hpre' at 1. rewrite Hpost at 1.
      rewrite Hpre. rewrite <- !app_assoc. done. }
  apply (Hgen [] []). constructor.
Qed.

Lemma uncovered_lines_filtered (coverage : list N) :
  forall (ac_lines uncovered : list (list N)),
    exists rest,
      uncovered_lines ac_lines coverage uncovered = Ok (uncovered ++ rest) /\
      filtered (fun line =>
                  _line_is_covered line coverage coverage_threshold
                  = Ok false) ac_lines rest.
Proof.
  induction ac_lines as [|line ac_lines IH]; intros uncovered.
  - exists []. rewrite app_nil_r. split; [reflexivity | constructor].
  - simpl.
    destruct (line_is_covered_ok line coverage coverage_threshold)
      as (c & Hc).
    rewrite Hc. cbn [rbind]. destruct c; simpl.
    + destruct (IH uncovered) as (rest & -> & Hf). exists rest.
      split; [done|]. apply filtered_drop; [|done]. rewrite Hc. discriminate.
    + destruct (IH (uncovered ++ [line])) as (rest & -> & Hf).
      exists (line :: rest). rewrite <- app_assoc. split; [done|].
      apply filtered_keep; done.
Qed.

Lemma compute_delta_filtered (self : DeltaAnalyzer) :
  _extract_criteria_lines (us_acceptance_criteria (_story self)) <> [] ->
  _existing self <> [] ->
  exists uncovered,
    filtered (fun line =>
                _line_is_covered line
                  (_existing_coverage_text (_existing self))
                  coverage_threshold = Ok false)
      (_extract_criteria_lines (us_acceptance_criteria (_story self)))
      uncovered /\
    compute_delta self = Ok (bullet_list uncovered).
Proof.
  intros Hlines Hex. unfold compute_delta.
  rewrite (nonempty_true _ Hlines), (nonempty_true _ Hex). cbn [negb].
  destruct (uncovered_lines_filtered
              (_existing_coverage_text (_existing self))
              (_extract_criteria_lines (us_acceptance_criteria (_story self)))
              []) as (uncovered & -> & Hf).
  cbn [rbind app]. exists uncovered. split; [done|].
  destruct uncovered; reflexivity.
Qed.

(** X8.  Whatever the corpus, the delta is the bullet list of some of the
    criteria lines, in their order, and no line whose lowercase form
    occurs in the corpus is among them. *)
Theorem delta_lists_criteria_lines (self : DeltaAnalyzer) :
  exists uncovered,
    compute_delta self = Ok (bullet_list uncovered) /\
    sublist uncovered
      (_extract_criteria_lines (us_acceptance_criteria (_story self))) /\
    forall line, line ∈ uncovered ->
      ~ is_substring (lower line) (_existing_coverage_text (_existing self)).
Proof.
  destruct (decide (_extract_criteria_lines
                      (us_acceptance_criteria (_story self)) = []))
    as [Hnil|Hlines].
  { exists []. unfold compute_delta. rewrite Hnil. simpl.
    split; [done|]. split; [constructor|]. intros line Hin. inversion Hin. }
  destruct (decide (_existing self = [])) as [Hnone|Hex].
  { exists []. unfold compute_delta. rewrite Hnone.
    rewrite (nonempty_true _ Hlines). simpl.
    split; [done|]. split; [apply sublist_nil_l|].
    intros line Hin. inversion Hin. }
  destruct (compute_delta_filtered self Hlines Hex) as (unc & Hf & Hd).
  exists unc. split; [done|]. split; [eapply filtered_sublist; done|].
  intros line Hin Hsub. pose proof (filtered_elem _ _ _ _ Hf Hin) as Hc.
  simpl in Hc. unfold _line_is_covered in Hc.
  apply contains_spec in Hsub. rewrite Hsub in Hc. discriminate.
Qed.

(** X9.  With criteria lines and existing artifacts at hand, the delta is
    the empty string exactly when every criteria line is judged covered;
    this is the condition of the early exit of the pipeline. *)
Theorem delta_empty_iff_all_covered (self : DeltaAnalyzer) :
  _extract_criteria_lines (us_acceptance_criteria (_story self)) <> [] ->
  _existing self <> [] ->
  compute_delta self = Ok [] <->
  Forall (fun line =>
            _line_is_covered line (_existing_coverage_text (_existing self))
              coverage_threshold = Ok true)
         (_extract_criteria_lines (us_acceptance_criteria (_story self))).
Proof.
  intros Hlines Hex.
  destruct (compute_delta_filtered self Hlines Hex) as (unc & Hf & ->).
  pose proof (filtered_nil_iff _ _ _ Hf) as Hnil.
  assert (Hcov : forall l : list (list N),
            Forall (fun line =>
                      _line_is_covered line
                        (_existing_coverage_text (_existing self))
                        coverage_threshold <> Ok false) l <->
            Forall (fun line =>
                      _line_is_covered line
                        (_existing_coverage_text (_existing self))
                        coverage_threshold = Ok true) l).
  { intros l. apply Forall_iff. intros line.
    destruct (line_is_covered_ok line
                (_existing_coverage_text (_existing self))
                coverage_threshold) as ([] & ->); split; congruence. }
  rewrite <- Hcov, <- Hnil. split.
  - intros [= Hb]. apply bullet_list_nil. done.
  - intros ->. reflexivity.
Qed.

(** X10.  Against an empty corpus a line is covered only when its lowercase
    form is empty: the literal check fails and the ratio is 0. *)
Theorem empty_corpus_covers_nothing (line : list N) :
  lower line <> [] ->
  _line_is_covered line [] coverage_threshold = Ok false.
Proof.
  intros Hne. unfold _line_is_covered.
  assert (Hc : contains [] (lower line) = false).
  { destruct (lower line); [done | reflexivity]. }
  rewrite Hc. pose proof (len_nonneg (lower line)) as Hl.
  destruct (find_longest_match_ok (lower line) [] 0 (len (lower line)) 0
              (len (@nil N)))
    as (i & j & k & -> & _);
    [unfold window_ok; change (len (@nil N)) with 0; lia|].
  reflexivity.
Qed.

(** X11.  The ratio can reach 0.70 only when line and corpus have
    comparable lengths: if 20 times the shorter of the lowercase line and
    the corpus is below 7 times the sum of the lengths of line and corpus,
    a line is covered exactly when its lowercase form occurs in the
    corpus. *)
Theorem long_corpus_needs_literal_match (line corpus : list N) :
  20 * Z.min (len (lower line)) (len corpus) < 7 * (len line + len corpus) ->
  _line_is_covered line corpus coverage_threshold
  = Ok (contains corpus (lower line)).
Proof.
  intros Hlen. unfold _line_is_covered.
  destruct (contains corpus (lower line)); [reflexivity|].
  pose proof (len_nonneg (lower line)) as Hl.
  pose proof (len_nonneg corpus) as Hc. pose proof (len_nonneg line) as Hline.
  destruct (find_longest_match_ok (lower line) corpus
              0 (len (lower line)) 0 (len corpus))
    as (i & j & k & -> & Hk & Hi1 & Hi2 & Hj1 & Hj2);
    [unfold window_ok; lia|].
  cbn [rbind]. destruct corpus as [|c0 corpus0] eqn:Hcorpus; [reflexivity|].
  rewrite <- Hcorpus in *.
  rewrite (nonempty_true corpus) by (rewrite Hcorpus; discriminate).
  assert (Hpos : 0 < len line + len corpus).
  { rewrite Hcorpus. unfold len in *. simpl. lia. }
  destruct (py_truediv_pos (difflib.size (i, j, k) * 2) _ Hpos)
    as (q & -> & Hq).
  cbn [rbind]. f_equal. unfold Qgeb, coverage_threshold.
  destruct (Qle_bool (7 # 10) q) eqn:Hcmp; [|reflexivity]. exfalso.
  apply Qle_bool_iff in Hcmp. rewrite Hq in Hcmp.
  unfold difflib.size in Hcmp. cbn [snd] in Hcmp.
  destruct (len line + len corpus) as [|p|p] eqn:HD; try lia.
  rewrite <- Qmake_Qdiv in Hcmp. unfold Qle in Hcmp. simpl in Hcmp. lia.
Qed.

End MoreCoverageDelta.

Lemma delta_empty_iff_all_covered_witness :
  compute_delta (H := ascii_tables)
    {| _story := c_story canned_world; _existing := example_existing |}
  = Ok [] <->
  Forall (fun line =>
            _line_is_covered (H := ascii_tables) line
              (_existing_coverage_text (H := ascii_tables) example_existing)
              coverage_threshold = Ok true)
         (_extract_criteria_lines (H := ascii_tables)
            (us_acceptance_criteria (c_story canned_world))).
Proof.
  apply (delta_empty_iff_all_covered (H := ascii_tables)
           {| _story := c_story canned_world;
              _existing := example_existing |}).
  - vm_compute. discriminate.
  - discriminate.
Defined.

Lemma empty_corpus_covers_nothing_witness :
  _line_is_covered (H := ascii_tables) login_line [] coverage_threshold
  = Ok false.
Proof.
  apply (empty_corpus_covers_nothing (H := ascii_tables)).
  vm_compute. discriminate.
Defined.

Lemma long_corpus_needs_literal_match_witness :
  _line_is_covered (H := ascii_tables) login_line example_corpus
    coverage_threshold
  = Ok (contains example_corpus (lower (Unicode := ascii_tables) login_line)).
Proof.
  apply (long_corpus_needs_literal_match (H := ascii_tables)).
  vm_compute. reflexivity.
Defined.

(** ** More on CategoryRouter *)

Section MoreCategoryRouter.
Context {W : Type} `{Collaborators W}.

Lemma assign_test_nonempty
    (add_ok : forall (suite_id test_case_id : Z) (w : W),
        (add_test_to_suite suite_id test_case_id w).1 = Ok tt)
    (self : FolderManager) (p : Z * GeneratedTestCase) (w : W)
    (tr : list Call) :
  _folder_map self <> ∅ ->
  exists w',
    assign_test self p.1 p.2 (w, tr)
    = (Ok self, (w', tr ++ filings_of (_folder_map self) p)).
Proof.
  intros Hmap. unfold assign_test, ensure_folder_map.
  rewrite bool_decide_eq_false_2 by done. rewrite mbind_ret.
  destruct (filings_spec add_ok (_folder_map self) p.1 p.2 w tr) as (w' & Hf).
  exists w'. destruct self as [m]. exact Hf.
Qed.

(** X12.  With a non-empty folder map and a suite service that accepts
    every filing, [assign_many] files the test cases one after the other,
    in the order of the batch, never provisions the folders again, and
    leaves the folder map as it was. *)
Theorem assign_many_files_in_order
    (add_ok : forall (suite_id test_case_id : Z) (w : W),
        (add_test_to_suite suite_id test_case_id w).1 = Ok tt)
    (self : FolderManager) (id_tc_pairs : list (Z * GeneratedTestCase))
    (w : W) (tr : list Call) :
  _folder_map self <> ∅ ->
  exists w',
    assign_many self id_tc_pairs (w, tr)
    = (Ok self,
       (w', tr ++ flat_map (filings_of (_folder_map self)) id_tc_pairs)).
Proof.
  intros Hmap. unfold assign_many, ensure_folder_map.
  rewrite bool_decide_eq_false_2 by done. rewrite mbind_ret.
  revert w tr. induction id_tc_pairs as [|p pairs IH]; intros w tr.
  - exists w. simpl. unfold ret. rewrite app_nil_r. reflexivity.
  - cbn [for_each flat_map].
    destruct (assign_test_nonempty add_ok self p w tr Hmap) as (w1 & H1).
    unfold mbind. rewrite H1.
    destruct (IH w1 (tr ++ filings_of (_folder_map self) p)) as (w2 & H2).
    exists w2. rewrite H2. rewrite <- app_assoc. reflexivity.
Qed.

(** X13.  When the filing into the catch-all folder fails, [assign_test]
    fails with the same error and does not attempt the filing into the
    category folder. *)
Theorem assign_test_stops_at_first_error (self : FolderManager)
    (test_case_id complete_id : Z) (tc : GeneratedTestCase) (w w' : W)
    (tr : list Call) (e : exn) :
  _folder_map self !! COMPLETE = Some complete_id ->
  complete_id <> 0 ->
  add_test_to_suite complete_id test_case_id w = (Raise e, w') ->
  assign_test self test_case_id tc (w, tr)
  = (Raise e, (w', tr ++ [AddTestToSuite complete_id test_case_id])).
Proof.
  intros Hc Hnz Hadd. unfold assign_test, ensure_folder_map.
  rewrite bool_decide_eq_false_2
    by (intros Hempty; rewrite Hempty, lookup_empty in Hc; discriminate).
  rewrite mbind_ret, Hc. unfold file_into, truthy_id.
  replace (complete_id =? 0) with false by (symmetry; apply Z.eqb_neq; done).
  cbn [negb]. rewrite mbind_call, Hadd. reflexivity.
Qed.

Lemma ensure_folder_map_no_folders (fm : FolderManager) (w : W)
    (tr : list Call) :
  (forall w0 : W, ensure_folders w0 = (Ok ∅, w0)) ->
  _folder_map fm = ∅ ->
  ensure_folder_map fm (w, tr)
  = (Ok {| _folder_map := ∅ |}, (w, tr ++ [EnsureFolders])).
Proof.
  intros Hens Hfm. unfold ensure_folder_map, setup_folders.
  rewrite bool_decide_eq_true_2 by done.
  rewrite !mbind_assoc, mbind_call, Hens. reflexivity.
Qed.

Lemma assign_test_no_folders (fm : FolderManager)
    (p : Z * GeneratedTestCase) (w : W) (tr : list Call) :
  (forall w0 : W, ensure_folders w0 = (Ok ∅, w0)) ->
  _folder_map fm = ∅ ->
  assign_test fm p.1 p.2 (w, tr)
  = (Ok {| _folder_map := ∅ |}, (w, tr ++ [EnsureFolders])).
Proof.
  intros Hens Hfm. unfold assign_test. unfold mbind at 1.
  rewrite (ensure_folder_map_no_folders fm w tr Hens Hfm).
  cbn [_folder_map]. rewrite !lookup_empty. reflexivity.
Qed.

Lemma for_each_no_folders (pairs : list (Z * GeneratedTestCase)) (w : W) :
  (forall w0 : W, ensure_folders w0 = (Ok ∅, w0)) ->
  forall tr : list Call,
    for_each pairs (fun self p => assign_test self p.1 p.2)
      {| _folder_map := ∅ |} (w, tr)
    = (Ok {| _folder_map := ∅ |},
       (w, tr ++ repeat EnsureFolders (length pairs))).
Proof.
  intros Hens. induction pairs as [|p pairs IH]; intros tr.
  - simpl. unfold ret. rewrite app_nil_r. reflexivity.
  - cbn [for_each]. unfold mbind at 1.
    rewrite assign_test_no_folders by done.
    rewrite IH. rewrite <- app_assoc. reflexivity.
Qed.

(** X14.  When the provisioning returns a map without folders, the map of
    the manager stays empty: [assign_many] asks for the folders once for
    the batch and once more for every test case, and files nothing. *)
Theorem assign_many_without_folders (self : FolderManager)
    (id_tc_pairs : list (Z * GeneratedTestCase)) (w : W) (tr : list Call) :
  _folder_map self = ∅ ->
  (forall w0 : W, ensure_folders w0 = (Ok ∅, w0)) ->
  assign_many self id_tc_pairs (w, tr)
  = (Ok {| _folder_map := ∅ |},
     (w, tr ++ repeat EnsureFolders (S (length id_tc_pairs)))).
Proof.
  intros Hmap Hens. unfold assign_many. unfold mbind at 1.
  rewrite (ensure_folder_map_no_folders self w tr Hens Hmap).
  rewrite for_each_no_folders by done. rewrite <- app_assoc. reflexivity.
Qed.

End MoreCategoryRouter.

Lemma assign_many_files_in_order_witness :
  exists w',
    assign_many (H := canned_collaborators)
      {| _folder_map := c_folders canned_world |}
      [(42, example_case); (43, identical_case)] (canned_world, [])
    = (Ok {| _folder_map := c_folders canned_world |},
       (w', [] ++ flat_map (filings_of (c_folders canned_world))
                    [(42, example_case); (43, identical_case)])).
Proof.
  apply (assign_many_files_in_order (H := canned_collaborators)
           (fun _ _ _ => eq_refl)
           {| _folder_map := c_folders canned_world |}).
  apply insert_non_empty.
Defined.

Lemma assign_test_stops_at_first_error_witness :
  assign_test (H := broken_suite_collaborators)
    {| _folder_map := c_folders canned_world |} 42 example_case
    (canned_world, [])
  = (Raise RemoteError, (canned_world, [] ++ [AddTestToSuite 3 42])).
Proof.
  apply (assign_test_stops_at_first_error (H := broken_suite_collaborators)).
  - vm_compute. reflexivity.
  - discriminate.
  - reflexivity.
Defined.

Lemma assign_many_without_folders_witness :
  assign_many (H := no_folder_collaborators) {| _folder_map := ∅ |}
    [(42, example_case); (43, identical_case)] (canned_world, [])
  = (Ok {| _folder_map := ∅ |},
     (canned_world, [] ++ repeat EnsureFolders 3)).
Proof.
  apply (assign_many_without_folders (H := no_folder_collaborators)).
  - reflexivity.
  - intros w0. reflexivity.
Defined.

(** ** More on SyncPipeline *)

Lemma mbind_Ok_inv {W A B : Type} (m : M W A) (f : A -> M W B)
    (st st' : W * list Call) (y : B) :
  mbind m f st = (Ok y, st') ->
  exists x st1, m st = (Ok x, st1) /\ f x st1 = (Ok y, st').
Proof.
  unfold mbind. destruct (m st) as [[x|e|] st1]; [eauto | discriminate..].
Qed.

Lemma for_each_Ok_inv {W A S : Type} (P : list A -> S -> Prop)
    (body : S -> A -> M W S) :
  (forall seen x s st s' st',
     P seen s -> body s x st = (Ok s', st') -> P (seen ++ [x]) s') ->
  forall l seen s st s' st',
    P seen s -> for_each l body s st = (Ok s', st') -> P (seen ++ l) s'.
Proof.
  intros Hstep. induction l as [|x l IH]; intros seen s st s' st' Hs Hrun.
  - simpl in Hrun. injection Hrun as <- <-. rewrite app_nil_r. done.
  - cbn [for_each] in Hrun.
    apply mbind_Ok_inv in Hrun as (s1 & st1 & Hbody & Hrest).
    replace (seen ++ x :: l) with ((seen ++ [x]) ++ l)
      by (rewrite <- app_assoc; done).
    eapply IH; [|exact Hrest]. eapply Hstep; done.
Qed.

Lemma partition_spec (paired : list (GeneratedTestCase * DedupResult)) :
  forall c0 u0,
    fold_left partition_step paired (c0, u0)
    = (c0 ++ cases_to_create paired, u0 ++ cases_to_update paired).
Proof.
  unfold cases_to_create, cases_to_update.
  induction paired as [|p paired IH]; intros c0 u0.
  - simpl. rewrite !app_nil_r. reflexivity.
  - cbn [fold_left List.filter]. unfold partition_step at 2.
    destruct (is_duplicate p.2); cbn [negb List.map]; rewrite IH;
      rewrite <- app_assoc; reflexivity.
Qed.

Lemma partition_length (paired : list (GeneratedTestCase * DedupResult)) :
  (length (cases_to_create paired) + length (cases_to_update paired)
   = length paired)%nat.
Proof.
  unfold cases_to_create, cases_to_update.
  induction paired as [|p paired IH]; [reflexivity|].
  cbn [List.filter]. destruct (is_duplicate p.2); simpl in *; lia.
Qed.

Section MorePipeline.
Context {W : Type} `{Collaborators W} `{Unicode} (cfg : Settings).

(** X15.  When the generator fails, the run fails with the same error and
    stops there: nothing is de-duplicated, no folder is provisioned and no
    test case is written, in a dry run or not. *)
Theorem generation_failure_aborts (story_id : Z) (dry_run : bool)
    (w w1 w2 w3 w4 w5 : W) (tr : list Call) (story : UserStory)
    (existing : list ExistingTestCase) (delta : list N) (e : exn) :
  ado_init w = (Ok tt, w1) ->
  get_user_story story_id w1 = (Ok story, w2) ->
  get_linked_test_cases story_id w2 = (Ok existing, w3) ->
  compute_delta {| _story := story; _existing := existing |} = Ok delta ->
  existing = [] \/ delta <> [] ->
  generator_init w3 = (Ok tt, w4) ->
  generate story delta w4 = (Raise e, w5) ->
  run cfg story_id dry_run (w, tr)
  = (Raise e, (w5, tr ++ dry_run_calls story_id story delta)).
Proof.
  intros Hinit Hstory Hlinked Hdelta Hgo Hgen Hraise. unfold run.
  rewrite mbind_call, Hinit. rewrite mbind_call, Hstory.
  rewrite mbind_call, Hlinked. rewrite mbind_lift, Hdelta.
  unfold has_existing_tests. cbn [_existing].
  replace (nonempty existing && negb (nonempty delta)) with false.
  - rewrite mbind_call, Hgen. rewrite mbind_call, Hraise.
    unfold dry_run_calls. rewrite <- !app_assoc. reflexivity.
  - destruct Hgo as [-> | Hd]; [reflexivity|].
    rewrite (nonempty_true delta Hd). destruct (nonempty existing); done.
Qed.

Lemma run_full_inv (story_id : Z)
    (w w1 w2 w3 w4 w5 : W) (tr : list Call) (story : UserStory)
    (existing : list ExistingTestCase) (delta : list N)
    (cases : list GeneratedTestCase) (r : SyncResult)
    (st' : W * list Call) :
  ado_init w = (Ok tt, w1) ->
  get_user_story story_id w1 = (Ok story, w2) ->
  get_linked_test_cases story_id w2 = (Ok existing, w3) ->
  compute_delta {| _story := story; _existing := existing |} = Ok delta ->
  existing = [] \/ delta <> [] ->
  generator_init w3 = (Ok tt, w4) ->
  generate story delta w4 = (Ok cases, w5) ->
  run cfg story_id false (w, tr) = (Ok r, st') ->
  exists paired,
    check_batch (DedupEngine_init cfg existing None) cases = Ok paired /\
    updated_ids r = (cases_to_update paired).*1 /\
    length (created_ids r) = length (cases_to_create paired) /\
    (length (created_ids r) + length (updated_ids r) = length cases)%nat /\
    skipped_count r = 0.
Proof.
  intros Hinit Hstory Hlinked Hdelta Hgo Hgen Hcases. unfold run.
  rewrite mbind_call, Hinit. rewrite mbind_call, Hstory.
  rewrite mbind_call, Hlinked. rewrite mbind_lift, Hdelta.
  unfold has_existing_tests. cbn [_existing].
  replace (nonempty existing && negb (nonempty delta)) with false
    by (destruct Hgo as [-> | Hd]; [reflexivity|];
        rewrite (nonempty_true delta Hd); destruct (nonempty existing); done).
  rewrite mbind_call, Hgen. rewrite mbind_call, Hcases.
  destruct (check_batch_ok (DedupEngine_init cfg existing None) cases)
    as (paired & Hpaired & Hfst).
  rewrite mbind_lift, Hpaired. rewrite partition_spec. cbn [app].
  intros Hrun.
  apply mbind_Ok_inv in Hrun as ([fm fmap] & st1 & _ & Hrun).
  apply mbind_Ok_inv in Hrun as (created & st2 & Hcreate & Hrun).
  apply mbind_Ok_inv in Hrun as (updated & st3 & Hupdate & Hrun).
  apply mbind_Ok_inv in Hrun as (fm' & st4 & _ & Hrun).
  unfold ret in Hrun. injection Hrun as <- _.
  cbn [created_ids updated_ids skipped_count new_result].
  assert (Hc : length created.1 = length (cases_to_create paired)).
  { apply (for_each_Ok_inv
             (fun (seen : list GeneratedTestCase)
                  (acc : list Z * list (Z * GeneratedTestCase)) =>
                length acc.1 = length seen)
             _ ) with (seen := []) (s := ([], [])) (st := st1) (st' := st2)
             (l := cases_to_create paired) in Hcreate; [done| |done].
    intros seen x s st s0 st0 Hs Hbody.
    apply mbind_Ok_inv in Hbody as (new_id & st5 & _ & Hret).
    unfold ret in Hret. injection Hret as <- _. simpl.
    rewrite !length_app, Hs. reflexivity. }
  assert (Hu : updated.1 = (cases_to_update paired).*1).
  { apply (for_each_Ok_inv
             (fun (seen : list (Z * GeneratedTestCase))
                  (acc : list Z * list (Z * GeneratedTestCase)) =>
                acc.1 = seen.*1)
             _ ) with (seen := []) (s := ([], created.2)) (st := st2)
             (st' := st3) (l := cases_to_update paired) in Hupdate;
      [done| |done].
    intros seen x s st s0 st0 Hs Hbody.
    apply mbind_Ok_inv in Hbody as (u & st5 & _ & Hret).
    unfold ret in Hret. injection Hret as <- _. simpl.
    rewrite fmap_app, Hs. reflexivity. }
  exists paired. split; [done|]. split; [done|]. split; [done|].
  split; [|done].
  rewrite Hc, Hu, length_fmap, partition_length.
  rewrite <- Hfst, length_fmap. reflexivity.
Qed.


(** X16.  A run that is not dry and returns after the generation accounts
    for every generated case exactly once: the updated identifiers are the
    identifiers the duplicates matched, in the order of the cases, there
    is one created identifier for every other case, and nothing is counted
    as skipped. *)
Theorem run_accounts_for_every_case (story_id : Z)
    (w w1 w2 w3 w4 w5 : W) (tr : list Call) (story : UserStory)
    (existing : list ExistingTestCase) (delta : list N)
    (cases : list GeneratedTestCase) (r : SyncResult)
    (st' : W * list Call) :
  ado_init w = (Ok tt, w1) ->
  get_user_story story_id w1 = (Ok story, w2) ->
  get_linked_test_cases story_id w2 = (Ok existing, w3) ->
  compute_delta {| _story := story; _existing := existing |} = Ok delta ->
  existing = [] \/ delta <> [] ->
  generator_init w3 = (Ok tt, w4) ->
  generate story delta w4 = (Ok cases, w5) ->
  run cfg story_id false (w, tr) = (Ok r, st') ->
  exists paired,
    check_batch (DedupEngine_init cfg existing None) cases = Ok paired /\
    updated_ids r = (cases_to_update paired).*1 /\
    length (created_ids r) = length (cases_to_create paired) /\
    (length (created_ids r) + length (updated_ids r) = length cases)%nat /\
    skipped_count r = 0.
Proof. apply run_full_inv. Qed.

Lemma check_no_existing (self : DedupEngine) (tc : GeneratedTestCase) :
  _existing_sigs self = [] ->
  check self tc
  = Ok {| is_duplicate := Qgeb 0 (_threshold self);
          matched_id := 0; score := 0%Q |}.
Proof.
  intros Hnil. unfold check. rewrite Hnil. simpl.
  destruct (Qgeb 0 (_threshold self)); reflexivity.
Qed.

Lemma check_batch_no_existing (self : DedupEngine)
    (cases : list GeneratedTestCase) :
  _existing_sigs self = [] ->
  check_batch self cases
  = Ok (List.map (fun tc => (tc, {| is_duplicate := Qgeb 0 (_threshold self);
                                    matched_id := 0; score := 0%Q |})) cases).
Proof.
  intros Hnil. induction cases as [|tc cases IH]; [reflexivity|].
  simpl. rewrite (check_no_existing self tc Hnil), IH. reflexivity.
Qed.

Lemma run_no_existing_inv (story_id : Z)
    (w w1 w2 w3 w4 w5 : W) (tr : list Call) (story : UserStory)
    (delta : list N) (cases : list GeneratedTestCase) (r : SyncResult)
    (st' : W * list Call) (d : bool) :
  Qgeb 0 (DEDUP_THRESHOLD cfg) = d ->
  ado_init w = (Ok tt, w1) ->
  get_user_story story_id w1 = (Ok story, w2) ->
  get_linked_test_cases story_id w2 = (Ok [], w3) ->
  compute_delta {| _story := story; _existing := [] |} = Ok delta ->
  generator_init w3 = (Ok tt, w4) ->
  generate story delta w4 = (Ok cases, w5) ->
  run cfg story_id false (w, tr) = (Ok r, st') ->
  let paired :=
    List.map (fun tc => (tc, {| is_duplicate := d; matched_id := 0;
                                score := 0%Q |})) cases in
  updated_ids r = (cases_to_update paired).*1 /\
  length (created_ids r) = length (cases_to_create paired) /\
  (length (created_ids r) + length (updated_ids r) = length cases)%nat.
Proof.
  intros Hd Hinit Hstory Hlinked Hdelta Hgen Hcases Hrun.
  destruct (run_full_inv story_id w w1 w2 w3 w4 w5 tr story [] delta cases
              r st' Hinit Hstory Hlinked Hdelta (or_introl eq_refl)
              Hgen Hcases Hrun)
    as (paired & Hpaired & Hu & Hc & Hsum & _).
  rewrite check_batch_no_existing in Hpaired by reflexivity.
  change (_threshold (DedupEngine_init cfg [] None))
    with (DEDUP_THRESHOLD cfg) in Hpaired.
  rewrite Hd in Hpaired. injection Hpaired as <-.
  cbv zeta. auto.
Qed.

Lemma cases_to_update_none (l : list GeneratedTestCase) :
  cases_to_update
    (List.map (fun tc => (tc, {| is_duplicate := false; matched_id := 0;
                                 score := 0%Q |})) l) = [].
Proof. induction l as [|tc l IH]; [reflexivity | exact IH]. Qed.

Lemma cases_to_update_all (l : list GeneratedTestCase) :
  (cases_to_update
     (List.map (fun tc => (tc, {| is_duplicate := true; matched_id := 0;
                                  score := 0%Q |})) l)).*1
  = repeat 0 (length l) /\
  cases_to_create
    (List.map (fun tc => (tc, {| is_duplicate := true; matched_id := 0;
                                 score := 0%Q |})) l) = [].
Proof.
  induction l as [|tc l [IH1 IH2]]; [split; reflexivity|].
  split; [|exact IH2].
  change (0 :: (cases_to_update
     (List.map (fun tc => (tc, {| is_duplicate := true; matched_id := 0;
                                  score := 0%Q |})) l)).*1
          = 0 :: repeat 0 (length l)).
  by rewrite IH1.
Qed.

(** X18.  On a story without linked test cases and with a positive
    threshold, a run that returns has updated nothing: every generated
    case was created. *)
Theorem first_run_creates_everything (story_id : Z)
    (w w1 w2 w3 w4 w5 : W) (tr : list Call) (story : UserStory)
    (delta : list N) (cases : list GeneratedTestCase) (r : SyncResult)
    (st' : W * list Call) :
  (0 < DEDUP_THRESHOLD cfg)%Q ->
  ado_init w = (Ok tt, w1) ->
  get_user_story story_id w1 = (Ok story, w2) ->
  get_linked_test_cases story_id w2 = (Ok [], w3) ->
  compute_delta {| _story := story; _existing := [] |} = Ok delta ->
  generator_init w3 = (Ok tt, w4) ->
  generate story delta w4 = (Ok cases, w5) ->
  run cfg story_id false (w, tr) = (Ok r, st') ->
  updated_ids r = [] /\ length (created_ids r) = length cases.
Proof.
  intros Hthr Hinit Hstory Hlinked Hdelta Hgen Hcases Hrun.
  assert (Hnd : Qgeb 0 (DEDUP_THRESHOLD cfg) = false).
  { unfold Qgeb. destruct (Qle_bool (DEDUP_THRESHOLD cfg) 0) eqn:Hle;
      [|done].
    apply Qle_bool_iff in Hle. exfalso. apply (Qlt_not_le _ _ Hthr Hle). }
  destruct (run_no_existing_inv story_id w w1 w2 w3 w4 w5 tr story delta
              cases r st' false Hnd Hinit Hstory Hlinked Hdelta Hgen Hcases
              Hrun) as (Hu & _ & Hsum).
  rewrite cases_to_update_none in Hu. split; [exact Hu|].
  rewrite Hu in Hsum. simpl in Hsum. lia.
Qed.

(** X19.  With a threshold of 0.0 or below and a story without linked
    test cases, a run that returns has created nothing: the best score
    0.0 reaches the threshold, so every generated case is reported as a
    duplicate of the test case 0 and sent to its update. *)
Theorem zero_threshold_updates_test_case_zero (story_id : Z)
    (w w1 w2 w3 w4 w5 : W) (tr : list Call) (story : UserStory)
    (delta : list N) (cases : list GeneratedTestCase) (r : SyncResult)
    (st' : W * list Call) :
  (DEDUP_THRESHOLD cfg <= 0)%Q ->
  ado_init w = (Ok tt, w1) ->
  get_user_story story_id w1 = (Ok story, w2) ->
  get_linked_test_cases story_id w2 = (Ok [], w3) ->
  compute_delta {| _story := story; _existing := [] |} = Ok delta ->
  generator_init w3 = (Ok tt, w4) ->
  generate story delta w4 = (Ok cases, w5) ->
  run cfg story_id false (w, tr) = (Ok r, st') ->
  created_ids r = [] /\ updated_ids r = repeat 0 (length cases).
Proof.
  intros Hthr Hinit Hstory Hlinked Hdelta Hgen Hcases Hrun.
  assert (Hd : Qgeb 0 (DEDUP_THRESHOLD cfg) = true).
  { unfold Qgeb. by apply Qle_bool_iff. }
  destruct (run_no_existing_inv story_id w w1 w2 w3 w4 w5 tr story delta
              cases r st' true Hd Hinit Hstory Hlinked Hdelta Hgen Hcases
              Hrun) as (Hu & Hc & _).
  destruct (cases_to_update_all cases) as [Hall Hnone].
  rewrite Hall in Hu. rewrite Hnone in Hc. split; [|exact Hu].
  by destruct (created_ids r).
Qed.

End MorePipeline.

Lemma generation_failure_aborts_witness :
  run (H := broken_generator_collaborators) (H0 := ascii_tables)
      default_settings 1 false (open_world, [])
  = (Raise GenerationError,
     (open_world,
      [] ++ dry_run_calls 1 example_story
              (bullet_list [login_line; reset_line]))).
Proof.
  apply (generation_failure_aborts (H := broken_generator_collaborators)
           (H0 := ascii_tables) default_settings 1 false
           open_world open_world open_world open_world open_world open_world
           [] example_story (c_existing open_world)).
  - reflexivity.
  - reflexivity.
  - reflexivity.
  - vm_compute. reflexivity.
  - right. vm_compute. discriminate.
  - reflexivity.
  - reflexivity.
Defined.

Example full_run_example :
  run (H := canned_collaborators) (H0 := ascii_tables) default_settings
      1 false (open_world, [])
  = (Ok {| story_id := 1; created_ids := [100]; updated_ids := [8];
           skipped_count := 0; folder_map := c_folders open_world |},
     (open_world_after,
      dry_run_calls 1 example_story (bullet_list [login_line; reset_line]) ++
      [EnsureFolders; CreateTestCase example_case 1;
       UpdateTestCase 8 identical_case;
       AddTestToSuite 3 100; AddTestToSuite 5 100;
       AddTestToSuite 3 8; AddTestToSuite 5 8])).
Proof. vm_compute. reflexivity. Qed.

Lemma run_accounts_for_every_case_witness :
  exists paired,
    check_batch (H := ascii_tables)
      (DedupEngine_init (H := ascii_tables) default_settings
         (c_existing open_world) None) (c_cases open_world) = Ok paired /\
    [8] = (cases_to_update paired).*1 /\
    length [100] = length (cases_to_create paired) /\
    (length [100] + length [8] = length (c_cases open_world))%nat /\
    0 = 0.
Proof.
  apply (run_accounts_for_every_case (H := canned_collaborators)
           (H0 := ascii_tables) default_settings 1
           open_world open_world open_world open_world open_world open_world
           [] example_story (c_existing open_world)
           (bullet_list [login_line; reset_line]) (c_cases open_world)
           {| story_id := 1; created_ids := [100]; updated_ids := [8];
              skipped_count := 0; folder_map := c_folders open_world |}
           (open_world_after,
            dry_run_calls 1 example_story
              (bullet_list [login_line; reset_line]) ++
            [EnsureFolders; CreateTestCase example_case 1;
             UpdateTestCase 8 identical_case;
             AddTestToSuite 3 100; AddTestToSuite 5 100;
             AddTestToSuite 3 8; AddTestToSuite 5 8])).
  - reflexivity.
  - reflexivity.
  - reflexivity.
  - vm_compute. reflexivity.
  - right. vm_compute. discriminate.
  - reflexivity.
  - reflexivity.
  - vm_compute. reflexivity.
Defined.

Lemma first_run_creates_everything_witness :
  @nil Z = [] /\ length [100; 101] = length (c_cases fresh_world).
Proof.
  apply (first_run_creates_everything (H := canned_collaborators)
           (H0 := ascii_tables) default_settings 1
           fresh_world fresh_world fresh_world fresh_world fresh_world
           fresh_world [] example_story [] (c_cases fresh_world)
           {| story_id := 1; created_ids := [100; 101]; updated_ids := [];
              skipped_count := 0; folder_map := c_folders fresh_world |}
           (fresh_world_after,
            dry_run_calls 1 example_story [] ++
            [EnsureFolders; CreateTestCase example_case 1;
             CreateTestCase identical_case 1;
             AddTestToSuite 3 100; AddTestToSuite 5 100;
             AddTestToSuite 3 101; AddTestToSuite 5 101])).
  - reflexivity.
  - reflexivity.
  - reflexivity.
  - reflexivity.
  - vm_compute. reflexivity.
  - reflexivity.
  - reflexivity.
  - vm_compute. reflexivity.
Defined.

Lemma zero_threshold_updates_test_case_zero_witness :
  @nil Z = [] /\ [0; 0] = repeat 0 (length (c_cases fresh_world)).
Proof.
  apply (zero_threshold_updates_test_case_zero (H := canned_collaborators)
           (H0 := ascii_tables) (load_settings (Some 0%Q)) 1
           fresh_world fresh_world fresh_world fresh_world fresh_world
           fresh_world [] example_story [] (c_cases fresh_world)
           {| story_id := 1; created_ids := []; updated_ids := [0; 0];
              skipped_count := 0; folder_map := c_folders fresh_world |}
           (fresh_world,
            dry_run_calls 1 example_story [] ++
            [EnsureFolders; UpdateTestCase 0 example_case;
             UpdateTestCase 0 identical_case;
             AddTestToSuite 3 0; AddTestToSuite 5 0;
             AddTestToSuite 3 0; AddTestToSuite 5 0])).
  - vm_compute. discriminate.
  - reflexivity.
  - reflexivity.
  - reflexivity.
  - vm_compute. reflexivity.
  - reflexivity.
  - reflexivity.
  - vm_compute. reflexivity.
Defined.

(** ** The order of the calls of a run *)

Section CallOrder.
Context {W : Type} `{Collaborators W}.

Lemma only_calls_ret {A : Type} (Q : Call -> bool) (x : A) :
  only_calls (W := W) Q (ret x).
Proof. intros st. exists []. rewrite app_nil_r. split; [done | constructor]. Qed.

Lemma only_calls_call {A : Type} (Q : Call -> bool) (ev : Call)
    (op : W -> res A * W) :
  Q ev = true -> only_calls Q (call ev op).
Proof.
  intros HQ [w tr]. exists [ev]. unfold call. simpl.
  destruct (op w) as [r w']. split; [done | by constructor].
Qed.

Lemma only_calls_bind {A B : Type} (Q : Call -> bool) (m : M W A)
    (f : A -> M W B) :
  only_calls Q m -> (forall x, only_calls Q (f x)) ->
  only_calls Q (mbind m f).
Proof.
  intros Hm Hf st. destruct (Hm st) as (evs & Hevs & Hall).
  unfold mbind. destruct (m st) as [[x|e|] st1]; simpl in Hevs;
    [|exists evs; done..].
  destruct (Hf x st1) as (evs' & Hevs' & Hall').
  exists (evs ++ evs'). rewrite Hevs', Hevs, app_assoc.
  split; [done|]. apply Forall_app. done.
Qed.

Lemma only_calls_for_each {A S : Type} (Q : Call -> bool) (l : list A)
    (body : S -> A -> M W S) :
  (forall s x, only_calls Q (body s x)) ->
  forall s, only_calls Q (for_each l body s).
Proof.
  intros Hbody. induction l as [|x l IH]; intros s; simpl.
  - apply only_calls_ret.
  - apply only_calls_bind; [apply Hbody | intros s'; apply IH].
Qed.

Lemma only_calls_file_into (suite : option Z) (test_case_id : Z) :
  only_calls is_filing_call (file_into suite test_case_id).
Proof.
  unfold file_into. destruct suite as [suite_id|]; [|apply only_calls_ret].
  destruct (truthy_id (Some suite_id)); [|apply only_calls_ret].
  apply only_calls_call. reflexivity.
Qed.

Lemma only_calls_ensure_folder_map (self : FolderManager) :
  only_calls is_filing_call (ensure_folder_map self).
Proof.
  unfold ensure_folder_map, setup_folders.
  destruct (bool_decide (_folder_map self = ∅)); [|apply only_calls_ret].
  apply only_calls_bind; [|intros r; apply only_calls_ret].
  apply only_calls_bind; [|intros m; apply only_calls_ret].
  apply only_calls_call. reflexivity.
Qed.

Lemma only_calls_assign_test (self : FolderManager) (test_case_id : Z)
    (tc : GeneratedTestCase) :
  only_calls is_filing_call (assign_test self test_case_id tc).
Proof.
  unfold assign_test.
  apply only_calls_bind; [apply only_calls_ensure_folder_map|]. intros fm.
  apply only_calls_bind; [apply only_calls_file_into|]. intros _.
  apply only_calls_bind; [apply only_calls_file_into|]. intros _.
  apply only_calls_ret.
Qed.

Lemma only_calls_assign_many (self : FolderManager)
    (id_tc_pairs : list (Z * GeneratedTestCase)) :
  only_calls is_filing_call (assign_many self id_tc_pairs).
Proof.
  unfold assign_many.
  apply only_calls_bind; [apply only_calls_ensure_folder_map|]. intros fm.
  apply only_calls_for_each. intros s p. apply only_calls_assign_test.
Qed.

Lemma staged_nil (kinds : list (Call -> bool)) : staged kinds [].
Proof.
  induction kinds as [|Q kinds IH]; simpl; [done|].
  exists [], []. split; [done|]. split; [constructor | done].
Qed.

Lemma runs_in_ret {A : Type} (kinds : list (Call -> bool)) (x : A) :
  runs_in (W := W) kinds (ret x).
Proof.
  intros st. exists []. rewrite app_nil_r. split; [done | apply staged_nil].
Qed.

Lemma runs_in_skip {A : Type} (Q : Call -> bool)
    (kinds : list (Call -> bool)) (m : M W A) :
  runs_in kinds m -> runs_in (Q :: kinds) m.
Proof.
  intros Hm st. destruct (Hm st) as (evs & Hevs & Hst).
  exists evs. split; [done|]. exists [], evs.
  split; [done|]. split; [constructor | done].
Qed.

Lemma runs_in_bind {A B : Type} (Q : Call -> bool)
    (kinds : list (Call -> bool)) (m : M W A) (f : A -> M W B) :
  only_calls Q m -> (forall x, runs_in (Q :: kinds) (f x)) ->
  runs_in (Q :: kinds) (mbind m f).
Proof.
  intros Hm Hf st. destruct (Hm st) as (evs & Hevs & Hall).
  unfold mbind. destruct (m st) as [[x|e|] st1]; simpl in Hevs.
  - destruct (Hf x st1) as (evs' & Hevs' & (e1 & e2 & -> & H1 & H2)).
    exists ((evs ++ e1) ++ e2). rewrite Hevs', Hevs, <- !app_assoc.
    split; [done|]. exists (evs ++ e1), e2.
    split; [by rewrite app_assoc|].
    split; [apply Forall_app; done | done].
  - exists evs. split; [done|]. exists evs, [].
    rewrite app_nil_r. split; [done|]. split; [done | apply staged_nil].
  - exists evs. split; [done|]. exists evs, [].
    rewrite app_nil_r. split; [done|]. split; [done | apply staged_nil].
Qed.

Lemma only_calls_lift {A : Type} (Q : Call -> bool) (r : res A) :
  only_calls (W := W) Q (lift r).
Proof.
  intros st. exists []. rewrite app_nil_r. split; [done | constructor].
Qed.

Lemma staged_phased (evs : list Call) :
  staged [is_fetch_call; is_create_call; is_update_call; is_filing_call] evs ->
  phased evs.
Proof.
  intros (f & r1 & -> & Hf & c & r2 & -> & Hc & u & r3 & -> & Hu &
          g & r4 & -> & Hg & ->).
  exists f, c, u, g. rewrite app_nil_r. done.
Qed.

End CallOrder.

Section PhaseOrder.
Context {W : Type} `{Collaborators W} `{Unicode} (cfg : Settings).

(** X17.  Whatever the collaborators answer, and whether the run returns
    or fails, its calls come in phases: first the fetches, the generation
    and the provisioning of the folders, then the creations, then the
    updates, then the filings.  No test case is created after an update,
    and none is created or updated after a filing. *)
Theorem run_calls_in_phase_order (story_id : Z) (dry_run : bool) (w : W)
    (tr : list Call) :
  exists evs,
    (run cfg story_id dry_run (w, tr)).2.2 = tr ++ evs /\ phased evs.
Proof.
  assert (Hrun : runs_in
            [is_fetch_call; is_create_call; is_update_call; is_filing_call]
            (run cfg story_id dry_run)).
  { unfold run.
    apply runs_in_bind; [by apply only_calls_call|]. intros _.
    apply runs_in_bind; [by apply only_calls_call|]. intros story.
    apply runs_in_bind; [by apply only_calls_call|]. intros existing.
    apply runs_in_bind; [apply only_calls_lift|]. intros delta.
    destruct (has_existing_tests _ && negb (nonempty delta));
      [apply runs_in_ret|].
    apply runs_in_bind; [by apply only_calls_call|]. intros _.
    apply runs_in_bind; [by apply only_calls_call|]. intros cases.
    destruct dry_run; [apply runs_in_ret|].
    apply runs_in_bind; [apply only_calls_lift|]. intros paired.
    destruct (fold_left partition_step paired ([], []))
      as [to_create to_update].
    apply runs_in_bind.
    { unfold setup_folders.
      apply only_calls_bind; [by apply only_calls_call|].
      intros m. apply only_calls_ret. }
    intros [folder_mgr fmap]. apply runs_in_skip.
    apply runs_in_bind.
    { apply only_calls_for_each. intros acc tc.
      apply only_calls_bind; [by apply only_calls_call|].
      intros new_id. apply only_calls_ret. }
    intros created. apply runs_in_skip.
    apply runs_in_bind.
    { apply only_calls_for_each. intros acc p.
      apply only_calls_bind; [by apply only_calls_call|].
      intros u. apply only_calls_ret. }
    intros updated. apply runs_in_skip.
    apply runs_in_bind; [apply only_calls_assign_many|]. intros fm.
    apply runs_in_ret. }
  destruct (Hrun (w, tr)) as (evs & Hevs & Hst).
  exists evs. split; [done|]. apply staged_phased. done.
Qed.

End PhaseOrder.

(** ** The validation of the settings and the choice of the client *)

Lemma nonempty_iff {A : Type} (l : list A) : l <> [] <-> nonempty l = true.
Proof. by destruct l. Qed.

Lemma valid_provider_iff (p : str) :
  p ∈ config.VALID_PROVIDERS <->
  p ∈ [of_string "openai"; of_string "anthropic"; of_string "azure_openai";
       of_string "groq"; of_string "deepseek"; of_string "mistral";
       of_string "together"; of_string "google"; of_string "ollama";
       of_string "lmstudio"; of_string "custom"].
Proof. unfold config.VALID_PROVIDERS. by rewrite elem_of_list_to_set. Qed.

Lemma validate_spec (cls : config.Settings) :
  config.LLM_PROVIDER cls ∈ config.VALID_PROVIDERS ->
  config.validate cls
  = if nonempty (missing_values cls)
    then SystemExit (config.missing_message (missing_values cls))
    else Return tt.
Proof.
  intros Hp. unfold config.validate, missing_values, required_values.
  rewrite (bool_decide_eq_true_2 _ Hp). cbn [negb].
  generalize (nonempty (config.ADO_ORG_URL cls)) (nonempty (config.ADO_PROJECT cls))
    (nonempty (config.ADO_PAT cls)) (config.ADO_TEST_PLAN_ID cls =? 0)
    (nonempty (config.AZURE_OPENAI_ENDPOINT cls))
    (nonempty (config.AZURE_OPENAI_API_KEY cls))
    (nonempty (config.AZURE_OPENAI_DEPLOYMENT cls))
    (nonempty (config.LLM_API_KEY cls))
    (bool_decide (config.LLM_PROVIDER cls = of_string "azure_openai"))
    (bool_decide (config.LLM_PROVIDER cls
                           ∈ [of_string "ollama"; of_string "lmstudio"])).
  unfold config.missing_message.
  generalize (of_string "[ERROR] Missing required environment variables: ").
  generalize (LF ++ of_string "  " ++ config.ARROW ++
  of_string " Copy .env.example to .env and fill in all values.").
  generalize (of_string ", ").
  generalize (of_string "ADO_ORG_URL") (of_string "ADO_PROJECT") (of_string "ADO_PAT")
   (of_string "ADO_TEST_PLAN_ID") (of_string "AZURE_OPENAI_ENDPOINT")
   (of_string "AZURE_OPENAI_API_KEY") (of_string "AZURE_OPENAI_DEPLOYMENT")
   (of_string "LLM_API_KEY").
  intros n1 n2 n3 n4 n5 n6 n7 n8 sep suffix prefix.
  intros [] [] [] [] b5 b6 b7 b8 b9 b10; destruct b9;
    try (destruct b5, b6, b7; reflexivity);
    destruct b10; try reflexivity; destruct b8; reflexivity.
Qed.

Lemma missing_values_nil_iff (cls : config.Settings) :
  missing_values cls = [] <->
  config.ADO_ORG_URL cls <> [] /\ config.ADO_PROJECT cls <> [] /\
  config.ADO_PAT cls <> [] /\ config.ADO_TEST_PLAN_ID cls <> 0 /\
  (config.LLM_PROVIDER cls = of_string "azure_openai" ->
     config.AZURE_OPENAI_ENDPOINT cls <> [] /\
     config.AZURE_OPENAI_API_KEY cls <> [] /\
     config.AZURE_OPENAI_DEPLOYMENT cls <> []) /\
  (config.LLM_PROVIDER cls
     ∉ [of_string "azure_openai"; of_string "ollama"; of_string "lmstudio"] ->
   config.LLM_API_KEY cls <> []).
Proof.
  unfold missing_values, required_values.
  rewrite !nonempty_iff. rewrite <- Z.eqb_neq.
  rewrite !not_elem_of_cons.
  generalize (of_string "ADO_ORG_URL") (of_string "ADO_PROJECT")
    (of_string "ADO_PAT") (of_string "ADO_TEST_PLAN_ID")
    (of_string "AZURE_OPENAI_ENDPOINT") (of_string "AZURE_OPENAI_API_KEY")
    (of_string "AZURE_OPENAI_DEPLOYMENT") (of_string "LLM_API_KEY").
  intros n1 n2 n3 n4 n5 n6 n7 n8.
  case_bool_decide as Haz.
  - destruct (nonempty (config.ADO_ORG_URL cls)),
      (nonempty (config.ADO_PROJECT cls)), (nonempty (config.ADO_PAT cls)),
      (config.ADO_TEST_PLAN_ID cls =? 0),
      (nonempty (config.AZURE_OPENAI_ENDPOINT cls)),
      (nonempty (config.AZURE_OPENAI_API_KEY cls)),
      (nonempty (config.AZURE_OPENAI_DEPLOYMENT cls)); simpl; intuition (discriminate || congruence || auto).
  - case_bool_decide as Hloc.
    + destruct (nonempty (config.ADO_ORG_URL cls)),
        (nonempty (config.ADO_PROJECT cls)), (nonempty (config.ADO_PAT cls)),
        (config.ADO_TEST_PLAN_ID cls =? 0); simpl;
        rewrite ?elem_of_cons in Hloc; intuition (discriminate || congruence || auto).
    + destruct (nonempty (config.ADO_ORG_URL cls)),
        (nonempty (config.ADO_PROJECT cls)), (nonempty (config.ADO_PAT cls)),
        (config.ADO_TEST_PLAN_ID cls =? 0),
        (nonempty (config.LLM_API_KEY cls)); simpl;
        rewrite ?not_elem_of_cons in Hloc; intuition (discriminate || congruence || auto).
Qed.

Lemma missing_values_sublist (cls : config.Settings) :
  sublist (missing_values cls)
    [of_string "ADO_ORG_URL"; of_string "ADO_PROJECT"; of_string "ADO_PAT";
     of_string "ADO_TEST_PLAN_ID"; of_string "AZURE_OPENAI_ENDPOINT";
     of_string "AZURE_OPENAI_API_KEY"; of_string "AZURE_OPENAI_DEPLOYMENT";
     of_string "LLM_API_KEY"].
Proof.
  unfold missing_values, required_values.
  generalize (of_string "ADO_ORG_URL") (of_string "ADO_PROJECT")
    (of_string "ADO_PAT") (of_string "ADO_TEST_PLAN_ID")
    (of_string "AZURE_OPENAI_ENDPOINT") (of_string "AZURE_OPENAI_API_KEY")
    (of_string "AZURE_OPENAI_DEPLOYMENT") (of_string "LLM_API_KEY").
  intros n1 n2 n3 n4 n5 n6 n7 n8.
  destruct (nonempty (config.ADO_ORG_URL cls)),
    (nonempty (config.ADO_PROJECT cls)), (nonempty (config.ADO_PAT cls)),
    (config.ADO_TEST_PLAN_ID cls =? 0);
    (destruct (bool_decide (config.LLM_PROVIDER cls = of_string "azure_openai"));
     [destruct (nonempty (config.AZURE_OPENAI_ENDPOINT cls)),
        (nonempty (config.AZURE_OPENAI_API_KEY cls)),
        (nonempty (config.AZURE_OPENAI_DEPLOYMENT cls))
     |destruct (bool_decide (config.LLM_PROVIDER cls
                             ∈ [of_string "ollama"; of_string "lmstudio"]));
      [|destruct (nonempty (config.LLM_API_KEY cls))]]);
    simpl; repeat first [apply sublist_nil_l | apply sublist_skip
                        | apply sublist_cons].
Qed.

Lemma validate_ok_iff (cls : config.Settings) :
  config.validate cls = Return tt <->
  config.LLM_PROVIDER cls ∈ config.VALID_PROVIDERS /\
  config.ADO_ORG_URL cls <> [] /\ config.ADO_PROJECT cls <> [] /\
  config.ADO_PAT cls <> [] /\ config.ADO_TEST_PLAN_ID cls <> 0 /\
  (config.LLM_PROVIDER cls = of_string "azure_openai" ->
     config.AZURE_OPENAI_ENDPOINT cls <> [] /\
     config.AZURE_OPENAI_API_KEY cls <> [] /\
     config.AZURE_OPENAI_DEPLOYMENT cls <> []) /\
  (config.LLM_PROVIDER cls
     ∉ [of_string "azure_openai"; of_string "ollama"; of_string "lmstudio"] ->
   config.LLM_API_KEY cls <> []).
Proof.
  rewrite <- missing_values_nil_iff.
  destruct (decide (config.LLM_PROVIDER cls ∈ config.VALID_PROVIDERS))
    as [Hp | Hp].
  - rewrite (validate_spec cls Hp).
    destruct (missing_values cls); simpl; split; try done.
    intros [_ ?]; done.
  - unfold config.validate. rewrite (bool_decide_eq_false_2 _ Hp). cbn [negb].
    split; [discriminate | intros [? _]; done].
Qed.

(** X20.  [validate] returns exactly when the provider is a known one,
    the four Azure DevOps values are set, the three Azure OpenAI values
    are set if the provider is [azure_openai], and the API key is set
    unless the provider is [azure_openai], [ollama] or [lmstudio]. *)
Theorem validate_accepts_iff (cls : config.Settings) :
  config.validate cls = Return tt <->
  config.LLM_PROVIDER cls ∈ config.VALID_PROVIDERS /\
  config.ADO_ORG_URL cls <> [] /\ config.ADO_PROJECT cls <> [] /\
  config.ADO_PAT cls <> [] /\ config.ADO_TEST_PLAN_ID cls <> 0 /\
  (config.LLM_PROVIDER cls = of_string "azure_openai" ->
     config.AZURE_OPENAI_ENDPOINT cls <> [] /\
     config.AZURE_OPENAI_API_KEY cls <> [] /\
     config.AZURE_OPENAI_DEPLOYMENT cls <> []) /\
  (config.LLM_PROVIDER cls
     ∉ [of_string "azure_openai"; of_string "ollama"; of_string "lmstudio"] ->
   config.LLM_API_KEY cls <> []).
Proof. apply validate_ok_iff. Qed.

Lemma validate_unknown_provider (cls : config.Settings) :
  config.LLM_PROVIDER cls ∉ config.VALID_PROVIDERS ->
  config.validate cls
  = SystemExit (config.unknown_provider_message (config.LLM_PROVIDER cls)).
Proof.
  intros Hp. unfold config.validate.
  by rewrite (bool_decide_eq_false_2 _ Hp).
Qed.

(** X21.  With an unknown provider [validate] exits with the message
    about the provider, whatever the other values are: the missing Azure
    DevOps values it has collected by then are not reported. *)
Theorem unknown_provider_hides_missing_values (cls cls' : config.Settings) :
  config.LLM_PROVIDER cls ∉ config.VALID_PROVIDERS ->
  config.LLM_PROVIDER cls' = config.LLM_PROVIDER cls ->
  config.validate cls' = config.validate cls /\
  config.validate cls
  = SystemExit (config.unknown_provider_message (config.LLM_PROVIDER cls)).
Proof.
  intros Hp Heq. rewrite (validate_unknown_provider cls Hp).
  split; [|reflexivity].
  rewrite <- Heq in Hp |- *. exact (validate_unknown_provider cls' Hp).
Qed.

(** X22.  With a known provider, an exit of [validate] names exactly the
    required values that are not set, each once and in the order in
    which [validate] looks at them. *)
Theorem validate_reports_missing_values (cls : config.Settings)
    (message : str) :
  config.LLM_PROVIDER cls ∈ config.VALID_PROVIDERS ->
  config.validate cls = SystemExit message ->
  message = config.missing_message (missing_values cls) /\
  missing_values cls <> [] /\
  sublist (missing_values cls)
    [of_string "ADO_ORG_URL"; of_string "ADO_PROJECT"; of_string "ADO_PAT";
     of_string "ADO_TEST_PLAN_ID"; of_string "AZURE_OPENAI_ENDPOINT";
     of_string "AZURE_OPENAI_API_KEY"; of_string "AZURE_OPENAI_DEPLOYMENT";
     of_string "LLM_API_KEY"].
Proof.
  intros Hp. rewrite (validate_spec cls Hp). intros Hexit.
  split; [|split; [|apply missing_values_sublist]].
  - destruct (missing_values cls); [discriminate|]. simpl in Hexit.
    by injection Hexit.
  - intros Hnil. rewrite Hnil in Hexit. discriminate.
Qed.

Lemma unknown_provider_hides_missing_values_witness :
  config.validate (with_provider (of_string "watsonx") example_settings)
  = config.validate (with_provider (of_string "watsonx") unconfigured) /\
  config.validate (with_provider (of_string "watsonx") unconfigured)
  = SystemExit
      (config.unknown_provider_message
         (config.LLM_PROVIDER
            (with_provider (of_string "watsonx") unconfigured))).
Proof.
  apply (unknown_provider_hides_missing_values
           (with_provider (of_string "watsonx") unconfigured)
           (with_provider (of_string "watsonx") example_settings)).
  - apply (proj1 (bool_decide_eq_false _)). vm_compute. reflexivity.
  - reflexivity.
Defined.

Lemma validate_reports_missing_values_witness :
  config.missing_message
    [of_string "ADO_ORG_URL"; of_string "ADO_PROJECT"; of_string "ADO_PAT";
     of_string "ADO_TEST_PLAN_ID"; of_string "LLM_API_KEY"]
  = config.missing_message (missing_values unconfigured) /\
  missing_values unconfigured <> [] /\
  sublist (missing_values unconfigured)
    [of_string "ADO_ORG_URL"; of_string "ADO_PROJECT"; of_string "ADO_PAT";
     of_string "ADO_TEST_PLAN_ID"; of_string "AZURE_OPENAI_ENDPOINT";
     of_string "AZURE_OPENAI_API_KEY"; of_string "AZURE_OPENAI_DEPLOYMENT";
     of_string "LLM_API_KEY"].
Proof.
  apply (validate_reports_missing_values unconfigured).
  - apply (proj1 (bool_decide_eq_true _)). vm_compute. reflexivity.
  - vm_compute. reflexivity.
Defined.

Lemma builtin_url_spec (p u : str) :
  config.PROVIDER_BASE_URLS !! p = Some u ->
  u <> [] /\ p ∈ config.VALID_PROVIDERS.
Proof.
  unfold config.PROVIDER_BASE_URLS. cbn [list_to_map foldr uncurry fst snd].
  repeat (rewrite lookup_insert_Some;
          intros [[<- <-] | [_ Hrest]];
          [split; [discriminate
                  | apply (proj1 (bool_decide_eq_true _)); vm_compute; reflexivity]
          | revert Hrest]).
  rewrite lookup_empty. discriminate.
Qed.

(** X23.  [resolved_base_url] is empty exactly when no base URL is
    configured and the provider has no built-in one; and every provider
    with a built-in URL is one that [validate] accepts. *)
Theorem resolved_base_url_empty_iff (cls : config.Settings) :
  (config.resolved_base_url cls = [] <->
   config.LLM_BASE_URL cls = [] /\
   config.PROVIDER_BASE_URLS !! config.LLM_PROVIDER cls = None) /\
  (is_Some (config.PROVIDER_BASE_URLS !! config.LLM_PROVIDER cls) ->
   config.LLM_PROVIDER cls ∈ config.VALID_PROVIDERS).
Proof.
  split.
  - unfold config.resolved_base_url.
    destruct (config.LLM_BASE_URL cls) as [|c url] eqn:Hurl; simpl.
    + destruct (config.PROVIDER_BASE_URLS !! config.LLM_PROVIDER cls)
        as [u|] eqn:Hu; simpl; [|done].
      destruct (builtin_url_spec _ _ Hu) as [Hne _].
      split; [done | intros [_ ?]; done].
    + split; [done | intros [? _]; done].
  - intros [u Hu]. by destruct (builtin_url_spec _ _ Hu).
Qed.

Lemma api_key_of_kwargs (key base_url : str) (b : bool) :
  (if b then <[of_string "base_url" := base_url]>
               ({[ of_string "api_key" := key ]} : gmap str str)
   else {[ of_string "api_key" := key ]}) !! of_string "api_key" = Some key.
Proof.
  destruct b.
  - rewrite lookup_insert_ne by discriminate. apply lookup_singleton_eq.
  - apply lookup_singleton_eq.
Qed.

Lemma base_url_of_kwargs (key base_url : str) :
  (if nonempty base_url
   then <[of_string "base_url" := base_url]>
          ({[ of_string "api_key" := key ]} : gmap str str)
   else {[ of_string "api_key" := key ]}) !! of_string "base_url"
  = if nonempty base_url then Some base_url else None.
Proof.
  destruct (nonempty base_url).
  - apply lookup_insert_eq.
  - apply lookup_singleton_ne. discriminate.
Qed.

(** X24.  After a [validate] that returned, the client that
    [TestGenerator.__init__] builds holds a non-empty credential, unless
    the provider is [ollama] or [lmstudio]; for [azure_openai] it also
    has a non-empty address and a non-empty deployment as its model. *)
Theorem validated_client_has_credential (cls : config.Settings)
    (anthropic_installed : bool) (g : test_generator.TestGenerator) :
  config.validate cls = Return tt ->
  test_generator.TestGenerator_init cls anthropic_installed = Some g ->
  config.LLM_PROVIDER cls ∉ [of_string "ollama"; of_string "lmstudio"] ->
  (exists key,
     credential (test_generator._client g) = Some key /\ key <> []) /\
  (config.LLM_PROVIDER cls = of_string "azure_openai" ->
   test_generator._model g <> [] /\
   exists address,
     endpoint (test_generator._client g) = Some address /\ address <> []).
Proof.
  intros Hval Hinit Hloc. apply validate_ok_iff in Hval.
  destruct Hval as (_ & _ & _ & _ & _ & Haz & Hkey).
  unfold test_generator.TestGenerator_init in Hinit.
  case_bool_decide as Hazure.
  - destruct (Haz Hazure) as (He & Hk & Hd).
    injection Hinit as <-. simpl. split; [by eexists|].
    intros _. split; [done | by eexists].
  - assert (Hk : config.LLM_API_KEY cls <> []).
    { apply Hkey. rewrite not_elem_of_cons. by split. }
    split; [|done].
    case_bool_decide as Hanth.
    + destruct anthropic_installed; [|discriminate].
      injection Hinit as <-. simpl. by eexists.
    + injection Hinit as <-. simpl. exists (config.LLM_API_KEY cls).
      split; [apply api_key_of_kwargs | exact Hk].
Qed.

(** X25.  For a provider other than [azure_openai] and [anthropic], the
    client gets as [base_url] the configured base URL or else the
    built-in one of the provider, and no [base_url] at all when there is
    neither: it is then left to the library's default address. *)
Theorem openai_client_base_url (cls : config.Settings)
    (anthropic_installed : bool) (g : test_generator.TestGenerator) :
  config.LLM_PROVIDER cls <> of_string "azure_openai" ->
  config.LLM_PROVIDER cls <> of_string "anthropic" ->
  test_generator.TestGenerator_init cls anthropic_installed = Some g ->
  endpoint (test_generator._client g)
  = if nonempty (config.LLM_BASE_URL cls) then Some (config.LLM_BASE_URL cls)
    else config.PROVIDER_BASE_URLS !! config.LLM_PROVIDER cls.
Proof.
  intros Haz Hanth Hinit. unfold test_generator.TestGenerator_init in Hinit.
  rewrite !bool_decide_eq_false_2 in Hinit by done.
  injection Hinit as <-. simpl. rewrite base_url_of_kwargs.
  unfold config.resolved_base_url.
  destruct (nonempty (config.LLM_BASE_URL cls)) eqn:Hurl.
  - by rewrite Hurl.
  - destruct (config.PROVIDER_BASE_URLS !! config.LLM_PROVIDER cls)
      as [u|] eqn:Hu; simpl; [|done].
    destruct (builtin_url_spec _ _ Hu) as [Hne _].
    by rewrite (nonempty_true u Hne).
Qed.

Lemma validated_client_has_credential_witness :
  (exists key,
     credential (test_generator._client example_generator) = Some key /\
     key <> []) /\
  (config.LLM_PROVIDER example_settings = of_string "azure_openai" ->
   test_generator._model example_generator <> [] /\
   exists address,
     endpoint (test_generator._client example_generator) = Some address /\
     address <> []).
Proof.
  apply (validated_client_has_credential example_settings true
           example_generator).
  - vm_compute. reflexivity.
  - vm_compute. reflexivity.
  - apply (proj1 (bool_decide_eq_false _)). vm_compute. reflexivity.
Defined.

Lemma openai_client_base_url_witness :
  endpoint (test_generator._client custom_generator)
  = if nonempty (config.LLM_BASE_URL
                   (with_provider (of_string "custom") example_settings))
    then Some (config.LLM_BASE_URL
                 (with_provider (of_string "custom") example_settings))
    else config.PROVIDER_BASE_URLS
           !! config.LLM_PROVIDER
                (with_provider (of_string "custom") example_settings).
Proof.
  apply (openai_client_base_url
           (with_provider (of_string "custom") example_settings) true
           custom_generator).
  - discriminate.
  - discriminate.
  - vm_compute. reflexivity.
Defined.

Example custom_provider_without_url :
  config.validate
    {| config.ADO_ORG_URL := of_string "https://dev.azure.com/acme";
       config.ADO_PROJECT := of_string "Shop";
       config.ADO_PAT := of_string "secret";
       config.ADO_TEST_PLAN_ID := 7;
       config.LLM_PROVIDER := of_string "custom";
       config.LLM_API_KEY := of_string "k";
       config.LLM_MODEL := of_string "m";
       config.LLM_BASE_URL := [];
       config.AZURE_OPENAI_ENDPOINT := [];
       config.AZURE_OPENAI_API_KEY := [];
       config.AZURE_OPENAI_DEPLOYMENT := [];
       config.AZURE_OPENAI_API_VERSION := [];
       config.DEDUP_THRESHOLD := (9 # 10)%Q |} = Return tt /\
  endpoint (test_generator._client custom_generator) = None.
Proof. split; vm_compute; reflexivity. Qed.

(** ** The folders of the test plan *)

Section Folders.
Context {W : Type} `{TestPlanService W}.

Lemma bind_request {A B : Type} (ev : Request) (op : W -> res A * W)
    (f : A -> ado_client.Http B) (w : W) (log : list Request) :
  ado_client.bind (ado_client.request ev op) f (w, log)
  = match op w with
    | (Ok x, w') => f x (w', log ++ [ev])
    | (Raise e, w') => (Raise e, (w', log ++ [ev]))
    | (Diverge, w') => (Diverge, (w', log ++ [ev]))
    end.
Proof.
  unfold ado_client.bind, ado_client.request. simpl.
  destruct (op w) as [[x|e|] w']; reflexivity.
Qed.

Lemma child_suites_snoc (all_suites : list SuiteEntry) (s : SuiteEntry)
    (parent_suite_id : Z) :
  ado_client.child_suites (all_suites ++ [s]) parent_suite_id
  = if bool_decide (parent_suite s = Some parent_suite_id)
    then <[suite_name s := suite_id s]>
           (ado_client.child_suites all_suites parent_suite_id)
    else ado_client.child_suites all_suites parent_suite_id.
Proof. unfold ado_client.child_suites. by rewrite fold_left_app. Qed.

Lemma listed_ids_snoc (all_suites : list SuiteEntry) (s : SuiteEntry)
    (parent_suite_id : Z) (name : str) :
  listed_ids (all_suites ++ [s]) parent_suite_id name
  = listed_ids all_suites parent_suite_id name ++
    (if bool_decide (parent_suite s = Some parent_suite_id)
        && bool_decide (suite_name s = name)
     then [suite_id s] else []).
Proof.
  unfold listed_ids. rewrite List.filter_app, List.map_app. simpl.
  by destruct (bool_decide (parent_suite s = Some parent_suite_id)
               && bool_decide (suite_name s = name)).
Qed.

Lemma child_suites_lookup (all_suites : list SuiteEntry)
    (parent_suite_id : Z) (name : str) :
  ado_client.child_suites all_suites parent_suite_id !! name
  = last (listed_ids all_suites parent_suite_id name).
Proof.
  induction all_suites as [|s all_suites IH] using rev_ind.
  - apply lookup_empty.
  - rewrite child_suites_snoc, listed_ids_snoc.
    case_bool_decide as Hparent; simpl.
    + case_bool_decide as Hname.
      * rewrite Hname, lookup_insert_eq. by rewrite last_snoc.
      * rewrite lookup_insert_ne by done. by rewrite app_nil_r.
    + by rewrite app_nil_r.
Qed.

Lemma ensure_each_ok (root_id : Z) (existing : gmap str Z)
    (folders : list str) (folder_map m : gmap str Z)
    (st st' : W * list Request) :
  ado_client.ensure_each folders root_id existing folder_map st = (Ok m, st') ->
  st'.2 = st.2 ++ List.map (PostSuite root_id)
                    (List.filter
                       (fun folder => bool_decide (existing !! folder = None))
                       folders) /\
  dom m = dom folder_map ∪ list_to_set folders /\
  (forall folder id,
      existing !! folder = Some id ->
      folder ∈ folders \/ folder_map !! folder = Some id ->
      m !! folder = Some id).
Proof.
  revert folder_map st.
  induction folders as [|folder folders IH]; intros folder_map st Hrun.
  - injection Hrun as <- <-. simpl. rewrite app_nil_r.
    split; [done|]. split; [by rewrite (right_id_L ∅ (∪))|].
    intros f id _ [Hin | Hf]; [by apply elem_of_nil in Hin | done].
  - cbn [ado_client.ensure_each] in Hrun.
    destruct (existing !! folder) as [id0|] eqn:Hex.
    + apply IH in Hrun as (Hlog & Hdom & Hreuse).
      cbn [List.filter]. rewrite Hex.
      rewrite bool_decide_eq_false_2 by done.
      split; [exact Hlog|]. split.
      * rewrite Hdom, dom_insert_L, list_to_set_cons.
        by rewrite (comm_L (∪) {[folder]} (dom folder_map)), (assoc_L (∪)).
      * intros f id Hf Hin. apply (Hreuse f id Hf).
        destruct (decide (f = folder)) as [-> | Hne].
        -- right. rewrite lookup_insert_eq. congruence.
        -- destruct Hin as [Hin | Hfm].
           ++ left. apply elem_of_cons in Hin as [? | ?]; done.
           ++ right. by rewrite lookup_insert_ne.
    + unfold ado_client._create_static_suite in Hrun.
      destruct st as [w log]. rewrite bind_request in Hrun.
      destruct (post_suite root_id folder w) as [[id0|e|] w'];
        [|discriminate..].
      apply IH in Hrun as (Hlog & Hdom & Hreuse).
      cbn [List.filter]. rewrite Hex.
      rewrite bool_decide_eq_true_2 by done.
      split; [|split].
      * rewrite Hlog. simpl. by rewrite <- app_assoc.
      * rewrite Hdom, dom_insert_L, list_to_set_cons.
        by rewrite (comm_L (∪) {[folder]} (dom folder_map)), (assoc_L (∪)).
      * intros f id Hf Hin. apply (Hreuse f id Hf).
        destruct (decide (f = folder)) as [-> | Hne]; [congruence|].
        destruct Hin as [Hin | Hfm].
        -- left. apply elem_of_cons in Hin as [? | ?]; done.
        -- right. by rewrite lookup_insert_ne.
Qed.

Lemma ensure_folders_unfold (w w1 w2 : W) (log : list Request) (root_id : Z)
    (all_suites : list SuiteEntry) :
  get_plan w = (Ok root_id, w1) ->
  get_suites w1 = (Ok all_suites, w2) ->
  ado_client.ensure_folders (w, log)
  = ado_client.ensure_each ado_client.REQUIRED_FOLDERS root_id
      (ado_client.child_suites all_suites root_id) ∅
      (w2, (log ++ [GetPlan]) ++ [GetSuites]).
Proof.
  intros Hplan Hsuites.
  unfold ado_client.ensure_folders, ado_client._get_root_suite_id,
    ado_client._list_child_suites.
  rewrite bind_request, Hplan.
  unfold ado_client.bind at 1. rewrite bind_request, Hsuites.
  reflexivity.
Qed.

Lemma ensure_folders_dom (st st' : W * list Request) (m : gmap str Z) :
  ado_client.ensure_folders st = (Ok m, st') ->
  dom m = list_to_set ado_client.REQUIRED_FOLDERS.
Proof.
  destruct st as [w log].
  destruct (get_plan w) as [[root_id|e|] w1] eqn:Hplan.
  - destruct (get_suites w1) as [[all_suites|e|] w2] eqn:Hsuites.
    + rewrite (ensure_folders_unfold w w1 w2 log root_id all_suites Hplan
                 Hsuites).
      intros Hrun. apply ensure_each_ok in Hrun as (_ & Hdom & _).
      by rewrite Hdom, dom_empty_L, (left_id_L ∅ (∪)).
    + unfold ado_client.ensure_folders, ado_client._get_root_suite_id,
        ado_client._list_child_suites.
      rewrite bind_request, Hplan. unfold ado_client.bind at 1.
      rewrite bind_request, Hsuites. discriminate.
    + unfold ado_client.ensure_folders, ado_client._get_root_suite_id,
        ado_client._list_child_suites.
      rewrite bind_request, Hplan. unfold ado_client.bind at 1.
      rewrite bind_request, Hsuites. discriminate.
  - unfold ado_client.ensure_folders, ado_client._get_root_suite_id.
    rewrite bind_request, Hplan. discriminate.
  - unfold ado_client.ensure_folders, ado_client._get_root_suite_id.
    rewrite bind_request, Hplan. discriminate.
Qed.


Lemma ensure_each_all_listed (root_id : Z) (existing : gmap str Z)
    (folders : list str) (folder_map : gmap str Z)
    (st : W * list Request) :
  List.filter (fun folder => bool_decide (existing !! folder = None)) folders
  = [] ->
  exists m,
    ado_client.ensure_each folders root_id existing folder_map st = (Ok m, st)
    /\ forall folder,
         m !! folder = if bool_decide (folder ∈ folders)
                       then existing !! folder else folder_map !! folder.
Proof.
  revert folder_map.
  induction folders as [|folder folders IH]; intros folder_map Hnone.
  - exists folder_map. split; [reflexivity|]. intros f.
    by rewrite bool_decide_eq_false_2 by apply not_elem_of_nil.
  - cbn [List.filter] in Hnone. cbn [ado_client.ensure_each].
    destruct (existing !! folder) as [id|] eqn:Hex.
    + rewrite bool_decide_eq_false_2 in Hnone by done.
      destruct (IH (<[folder := id]> folder_map) Hnone) as (m & Hrun & Hm).
      exists m. split; [exact Hrun|]. intros f. rewrite Hm.
      destruct (decide (f = folder)) as [-> | Hne].
      * rewrite (bool_decide_eq_true_2 (folder ∈ folder :: folders))
          by apply list_elem_of_here.
        case_bool_decide; [done|]. by rewrite lookup_insert_eq.
      * rewrite lookup_insert_ne by done.
        case_bool_decide as Hin.
        -- by rewrite bool_decide_eq_true_2 by by apply list_elem_of_further.
        -- rewrite bool_decide_eq_false_2; [done|].
           intros [? | ?]%elem_of_cons; done.
    + rewrite bool_decide_eq_true_2 in Hnone by done. discriminate.
Qed.

Lemma ensure_each_first_failure (root_id : Z) (existing : gmap str Z)
    (folders rest : list str) (folder : str) (folder_map : gmap str Z)
    (w w' : W) (log : list Request) (e : exn) :
  List.filter (fun folder => bool_decide (existing !! folder = None)) folders
  = folder :: rest ->
  post_suite root_id folder w = (Raise e, w') ->
  ado_client.ensure_each folders root_id existing folder_map (w, log)
  = (Raise e, (w', log ++ [PostSuite root_id folder])).
Proof.
  revert folder_map.
  induction folders as [|f folders IH]; intros folder_map Hfirst Hpost;
    [discriminate|].
  cbn [List.filter] in Hfirst. cbn [ado_client.ensure_each].
  destruct (existing !! f) as [id|] eqn:Hex.
  - rewrite bool_decide_eq_false_2 in Hfirst by done. by apply IH.
  - rewrite bool_decide_eq_true_2 in Hfirst by done.
    injection Hfirst as -> _.
    unfold ado_client._create_static_suite. by rewrite bind_request, Hpost.
Qed.

(** X26.  [_list_child_suites] keeps, for every name, the identifier
    of the last suite that the listing gives with this name under the
    parent; the suites of other parents do not count. *)
Theorem list_child_suites_last_wins (parent_suite_id : Z) (w w' : W)
    (log : list Request) (all_suites : list SuiteEntry) :
  get_suites w = (Ok all_suites, w') ->
  exists m,
    ado_client._list_child_suites parent_suite_id (w, log)
    = (Ok m, (w', log ++ [GetSuites])) /\
    forall name,
      m !! name = last (listed_ids all_suites parent_suite_id name).
Proof.
  intros Hsuites.
  exists (ado_client.child_suites all_suites parent_suite_id).
  split; [|intros name; apply child_suites_lookup].
  unfold ado_client._list_child_suites. by rewrite bind_request, Hsuites.
Qed.

(** X27.  When [ensure_folders] returns, its map has exactly the four
    required names; a required folder that the listing has keeps the
    listed identifier, and the suites created are the missing ones, each
    once, under the root suite and in the order of [REQUIRED_FOLDERS]. *)
Theorem ensure_folders_reuses_and_creates (w w1 w2 : W)
    (log : list Request) (root_id : Z) (all_suites : list SuiteEntry)
    (m : gmap str Z) (st' : W * list Request) :
  get_plan w = (Ok root_id, w1) ->
  get_suites w1 = (Ok all_suites, w2) ->
  ado_client.ensure_folders (w, log) = (Ok m, st') ->
  dom m = list_to_set ado_client.REQUIRED_FOLDERS /\
  st'.2 = log ++ [GetPlan; GetSuites] ++
          List.map (PostSuite root_id)
            (missing_folders (ado_client.child_suites all_suites root_id)) /\
  forall folder id,
    folder ∈ ado_client.REQUIRED_FOLDERS ->
    ado_client.child_suites all_suites root_id !! folder = Some id ->
    m !! folder = Some id.
Proof.
  intros Hplan Hsuites Hrun.
  split; [exact (ensure_folders_dom _ _ _ Hrun)|].
  rewrite (ensure_folders_unfold w w1 w2 log root_id all_suites Hplan Hsuites)
    in Hrun.
  apply ensure_each_ok in Hrun as (Hlog & _ & Hreuse).
  split.
  - rewrite Hlog. simpl. by rewrite <- !app_assoc.
  - intros folder id Hin Hlisted. apply (Hreuse folder id Hlisted). by left.
Qed.

(** X28.  On a plan that lists all four folders under its root suite,
    [ensure_folders] returns after the two reads, without creating
    anything: its map gives every required name its listed identifier. *)
Theorem ensure_folders_complete_plan (w w1 w2 : W) (log : list Request)
    (root_id : Z) (all_suites : list SuiteEntry) :
  get_plan w = (Ok root_id, w1) ->
  get_suites w1 = (Ok all_suites, w2) ->
  missing_folders (ado_client.child_suites all_suites root_id) = [] ->
  exists m,
    ado_client.ensure_folders (w, log)
    = (Ok m, (w2, log ++ [GetPlan; GetSuites])) /\
    forall folder,
      m !! folder
      = if bool_decide (folder ∈ ado_client.REQUIRED_FOLDERS)
        then ado_client.child_suites all_suites root_id !! folder
        else None.
Proof.
  intros Hplan Hsuites Hnone.
  rewrite (ensure_folders_unfold w w1 w2 log root_id all_suites Hplan
             Hsuites).
  rewrite <- app_assoc.
  destruct (ensure_each_all_listed root_id
              (ado_client.child_suites all_suites root_id)
              ado_client.REQUIRED_FOLDERS ∅
              (w2, log ++ [GetPlan] ++ [GetSuites]) Hnone)
    as (m & Hrun & Hm).
  exists m. split; [exact Hrun|]. intros folder. rewrite Hm.
  by rewrite lookup_empty.
Qed.

(** X29.  When the creation of the first missing folder fails,
    [ensure_folders] fails with the same error right after that request
    and attempts no other creation. *)
Theorem ensure_folders_create_failure (w w1 w2 w3 : W) (log : list Request)
    (root_id : Z) (all_suites : list SuiteEntry) (folder : str)
    (rest : list str) (e : exn) :
  get_plan w = (Ok root_id, w1) ->
  get_suites w1 = (Ok all_suites, w2) ->
  missing_folders (ado_client.child_suites all_suites root_id)
  = folder :: rest ->
  post_suite root_id folder w2 = (Raise e, w3) ->
  ado_client.ensure_folders (w, log)
  = (Raise e, (w3, log ++ [GetPlan; GetSuites; PostSuite root_id folder])).
Proof.
  intros Hplan Hsuites Hfirst Hpost.
  rewrite (ensure_folders_unfold w w1 w2 log root_id all_suites Hplan
             Hsuites).
  rewrite (ensure_each_first_failure root_id _ _ rest folder _ w2 w3 _ e
             Hfirst Hpost).
  by rewrite <- !app_assoc.
Qed.

End Folders.

Section ManyNonempty.
Context {W : Type} `{Collaborators W}.

Lemma assign_many_nonempty
    (add_ok : forall (suite_id test_case_id : Z) (w : W),
        (add_test_to_suite suite_id test_case_id w).1 = Ok tt)
    (self : FolderManager) (id_tc_pairs : list (Z * GeneratedTestCase))
    (w : W) (tr : list Call) :
  _folder_map self <> ∅ ->
  exists w',
    for_each id_tc_pairs (fun self p => assign_test self p.1 p.2) self (w, tr)
    = (Ok self,
       (w', tr ++ flat_map (filings_of (_folder_map self)) id_tc_pairs)).
Proof.
  intros Hmap. revert w tr.
  induction id_tc_pairs as [|p pairs IH]; intros w tr.
  - exists w. simpl. unfold ret. rewrite app_nil_r. reflexivity.
  - cbn [for_each flat_map].
    destruct (assign_test_nonempty add_ok self p w tr Hmap) as (w1 & H1).
    unfold mbind. rewrite H1.
    destruct (IH w1 (tr ++ filings_of (_folder_map self) p)) as (w2 & H2).
    exists w2. rewrite H2. rewrite <- app_assoc. reflexivity.
Qed.

End ManyNonempty.

Lemma normalize_category_required (category : str) :
  normalize_category category ∈ ado_client.REQUIRED_FOLDERS.
Proof.
  unfold normalize_category, ado_client.REQUIRED_FOLDERS.
  case_bool_decide as Hin.
  - rewrite !elem_of_cons in Hin. rewrite !elem_of_cons. tauto.
  - apply list_elem_of_further, list_elem_of_here.
Qed.

Lemma filing_nonzero (suite_id test_case_id : Z) :
  suite_id <> 0 ->
  filing (Some suite_id) test_case_id
  = [AddTestToSuite suite_id test_case_id].
Proof.
  intros Hnz. unfold filing.
  by rewrite (proj2 (Z.eqb_neq suite_id 0) Hnz).
Qed.

Section Provisioned.
Context {W : Type} `{TestPlanService W}.

(** X30.  With the folders provisioned by [ADOClient.ensure_folders]
    and a suite service that accepts every filing, [assign_many] on a
    fresh manager provisions once and then files every test case exactly
    twice: in the catch-all folder and in the folder of its category. *)
Theorem assign_many_with_provisioned_folders
    (base : Collaborators (W * list Request))
    (add_ok : forall (suite_id test_case_id : Z) (st : W * list Request),
        (@add_test_to_suite _ base suite_id test_case_id st).1 = Ok tt)
    (id_tc_pairs : list (Z * GeneratedTestCase))
    (st st1 : W * list Request) (tr : list Call) (m : gmap str Z) :
  ado_client.ensure_folders st = (Ok m, st1) ->
  (forall folder id, m !! folder = Some id -> id <> 0) ->
  (exists st',
     assign_many (H := ado_collaborators base) {| _folder_map := ∅ |}
       id_tc_pairs (st, tr)
     = (Ok {| _folder_map := m |},
        (st', tr ++ EnsureFolders :: flat_map (filings_of m) id_tc_pairs))) /\
  forall p : Z * GeneratedTestCase,
    exists complete_id cat_suite_id,
      m !! COMPLETE = Some complete_id /\
      m !! normalize_category (gtc_category p.2) = Some cat_suite_id /\
      filings_of m p = [AddTestToSuite complete_id p.1;
                        AddTestToSuite cat_suite_id p.1].
Proof.
  intros Hensure Hnz.
  pose proof (ensure_folders_dom _ _ _ Hensure) as Hdom.
  assert (Hreq : forall folder, folder ∈ ado_client.REQUIRED_FOLDERS ->
                                is_Some (m !! folder)).
  { intros folder Hin. apply elem_of_dom. rewrite Hdom.
    by apply elem_of_list_to_set. }
  assert (Hne : m <> ∅).
  { intros ->. destruct (Hreq COMPLETE) as [id Hid];
      [apply list_elem_of_here|]. by rewrite lookup_empty in Hid. }
  split.
  - unfold assign_many, ensure_folder_map, setup_folders.
    rewrite bool_decide_eq_true_2 by done.
    rewrite !mbind_assoc, mbind_call.
    change (@ensure_folders _ (ado_collaborators base))
      with (@ado_client.ensure_folders W _).
    rewrite Hensure. rewrite !mbind_ret. cbn [fst].
    destruct (assign_many_nonempty (H := ado_collaborators base) add_ok
                {| _folder_map := m |} id_tc_pairs st1
                (tr ++ [EnsureFolders]) Hne) as (st' & Hrun).
    exists st'. rewrite Hrun. simpl. by rewrite <- app_assoc.
  - intros p.
    destruct (Hreq COMPLETE) as [c Hc]; [apply list_elem_of_here|].
    destruct (Hreq (normalize_category (gtc_category p.2))) as [k Hk];
      [apply normalize_category_required|].
    exists c, k. split; [exact Hc|]. split; [exact Hk|].
    unfold filings_of. rewrite Hc, Hk.
    rewrite (filing_nonzero c p.1 (Hnz _ _ Hc)).
    by rewrite (filing_nonzero k p.1 (Hnz _ _ Hk)).
Qed.

End Provisioned.

Lemma list_child_suites_last_wins_witness :
  exists m,
    ado_client._list_child_suites (H := plan_service) 1 (example_plan, [])
    = (Ok m, (example_plan, [] ++ [GetSuites])) /\
    forall name,
      m !! name = last (listed_ids (p_suites example_plan) 1 name).
Proof.
  apply (list_child_suites_last_wins (H := plan_service) 1 example_plan
           example_plan [] (p_suites example_plan)).
  reflexivity.
Defined.

Lemma ensure_folders_reuses_and_creates_witness :
  dom example_folder_map = list_to_set ado_client.REQUIRED_FOLDERS /\
  [GetPlan; GetSuites; PostSuite 1 SMOKE; PostSuite 1 SANITY]
  = [] ++ [GetPlan; GetSuites] ++
    List.map (PostSuite 1)
      (missing_folders
         (ado_client.child_suites (p_suites example_plan) 1)) /\
  forall folder id,
    folder ∈ ado_client.REQUIRED_FOLDERS ->
    ado_client.child_suites (p_suites example_plan) 1 !! folder = Some id ->
    example_folder_map !! folder = Some id.
Proof.
  apply (ensure_folders_reuses_and_creates (H := plan_service)
           example_plan example_plan example_plan [] 1
           (p_suites example_plan) example_folder_map
           (example_plan_after,
            [GetPlan; GetSuites; PostSuite 1 SMOKE; PostSuite 1 SANITY])).
  - reflexivity.
  - reflexivity.
  - vm_compute. reflexivity.
Defined.

Lemma ensure_folders_complete_plan_witness :
  exists m,
    ado_client.ensure_folders (H := plan_service) (example_plan_after, [])
    = (Ok m, (example_plan_after, [] ++ [GetPlan; GetSuites])) /\
    forall folder,
      m !! folder
      = if bool_decide (folder ∈ ado_client.REQUIRED_FOLDERS)
        then ado_client.child_suites (p_suites example_plan_after) 1
               !! folder
        else None.
Proof.
  apply (ensure_folders_complete_plan (H := plan_service)
           example_plan_after example_plan_after example_plan_after [] 1
           (p_suites example_plan_after)).
  - reflexivity.
  - reflexivity.
  - vm_compute. reflexivity.
Defined.

Lemma ensure_folders_create_failure_witness :
  ado_client.ensure_folders (H := read_only_service) (example_plan, [])
  = (Raise RemoteError,
     (example_plan, [] ++ [GetPlan; GetSuites; PostSuite 1 SMOKE])).
Proof.
  apply (ensure_folders_create_failure (H := read_only_service)
           example_plan example_plan example_plan example_plan [] 1
           (p_suites example_plan) SMOKE [SANITY] RemoteError).
  - reflexivity.
  - reflexivity.
  - vm_compute. reflexivity.
  - reflexivity.
Defined.

Lemma example_folder_map_nonzero (folder : str) (id : Z) :
  example_folder_map !! folder = Some id -> id <> 0.
Proof.
  unfold example_folder_map.
  repeat (rewrite lookup_insert_Some;
          intros [[_ <-] | [_ Hrest]]; [discriminate | revert Hrest]).
  rewrite lookup_empty. discriminate.
Qed.

Lemma assign_many_with_provisioned_folders_witness :
  (exists st',
     assign_many (H := ado_collaborators (H := plan_service) plan_base)
       {| _folder_map := ∅ |}
       [(100, example_case); (8, identical_case)] ((example_plan, []), [])
     = (Ok {| _folder_map := example_folder_map |},
        (st', [] ++ EnsureFolders ::
              flat_map (filings_of example_folder_map)
                [(100, example_case); (8, identical_case)]))) /\
  forall p : Z * GeneratedTestCase,
    exists complete_id cat_suite_id,
      example_folder_map !! COMPLETE = Some complete_id /\
      example_folder_map !! normalize_category (gtc_category p.2)
      = Some cat_suite_id /\
      filings_of example_folder_map p
      = [AddTestToSuite complete_id p.1; AddTestToSuite cat_suite_id p.1].
Proof.
  apply (assign_many_with_provisioned_folders (H := plan_service) plan_base
           (fun _ _ _ => eq_refl)
           [(100, example_case); (8, identical_case)]
           (example_plan, [])
           (example_plan_after,
            [GetPlan; GetSuites; PostSuite 1 SMOKE; PostSuite 1 SANITY])
           [] example_folder_map).
  - vm_compute. reflexivity.
  - exact example_folder_map_nonzero.
Defined.

Example ensure_folders_example :
  ado_client.ensure_folders (H := plan_service) (example_plan, [])
  = (Ok example_folder_map,
     (example_plan_after,
      [GetPlan; GetSuites; PostSuite 1 SMOKE; PostSuite 1 SANITY])).
Proof. vm_compute. reflexivity. Qed.
